(** * Open-post mutation protocol of the websocket server

    A shallow embedding of [websockets/post_updates.go]: the operations a
    client applies to the post it is currently writing (append a rune,
    backspace, splice, close, insert an image, spoiler it), together with the
    part of Go's [unicode/utf8] package and of the string conversions that
    the buffer manipulation relies on.

    Bytes and runes are integers ([Z]); fixed-width Go integers carry their
    wrap-around explicitly. *)

From Stdlib Require Import String ZArith List Lia Bool.
Import ListNotations.
Local Open Scope Z_scope.

(** ** Fixed-width integers *)

Module gotypes.

(** Conversion to [int] (64-bit, two's complement). *)
Definition int (z : Z) : Z := (z + 2 ^ 63) mod 2 ^ 64 - 2 ^ 63.

(** Conversion to [uint] and to [uint64]. *)
Definition uint (z : Z) : Z := z mod 2 ^ 64.

(** Conversion to [uint32]. *)
Definition uint32 (z : Z) : Z := Z.land z 0xFFFFFFFF.

(** Conversion to [byte]. *)
Definition byte (z : Z) : Z := Z.land z 0xFF.

(** The values of type [rune] (an alias of [int32]). *)
Definition is_rune (r : Z) : Prop := - 2 ^ 31 <= r < 2 ^ 31.

(** The values of type [int]. *)
Definition is_int (z : Z) : Prop := - 2 ^ 63 <= z < 2 ^ 63.

(** Indexing [p[i]]; every use below is guarded by a length test, as in the
    source. *)
Definition idx (p : list Z) (i : Z) : Z := nth (Z.to_nat i) p 0.

(** The slice expression [p[lo:hi]]. *)
Definition slice (p : list Z) (lo hi : Z) : list Z :=
  firstn (Z.to_nat (hi - lo)) (skipn (Z.to_nat lo) p).

Definition lenof {A} (p : list A) : Z := Z.of_nat (length p).

End gotypes.
Import gotypes.

(** ** Go's [unicode/utf8] and the string conversions *)

Module utf8.

Definition RuneError : Z := 0xFFFD.
Definition RuneSelf : Z := 0x80.
Definition MaxRune : Z := 0x10FFFF.
Definition UTFMax : Z := 4.

Definition surrogateMin : Z := 0xD800.
Definition surrogateMax : Z := 0xDFFF.

Definition tx : Z := 0x80.
Definition t2 : Z := 0xC0.
Definition t3 : Z := 0xE0.
Definition t4 : Z := 0xF0.

Definition maskx : Z := 0x3F.
Definition mask2 : Z := 0x1F.
Definition mask3 : Z := 0x0F.
Definition mask4 : Z := 0x07.

Definition rune1Max : Z := 0x7F.
Definition rune2Max : Z := 0x7FF.
Definition rune3Max : Z := 0xFFFF.

Definition locb : Z := 0x80.
Definition hicb : Z := 0xBF.

(** Information about the first byte of an encoding: [as_] is ASCII, [xx] is
    invalid, the others carry the size in the low bits and the index of the
    range accepted for the second byte in the high ones. *)
Definition xx : Z := 0xF1.
Definition as_ : Z := 0xF0.
Definition s1 : Z := 0x02.
Definition s2 : Z := 0x13.
Definition s3 : Z := 0x03.
Definition s4 : Z := 0x23.
Definition s5 : Z := 0x34.
Definition s6 : Z := 0x04.
Definition s7 : Z := 0x44.

(** The table [first[256]]. *)
Definition first (b : Z) : Z :=
  if b <? 0x80 then as_
  else if b <? 0xC2 then xx
  else if b <? 0xE0 then s1
  else if b =? 0xE0 then s2
  else if b <? 0xED then s3
  else if b =? 0xED then s4
  else if b <? 0xF0 then s3
  else if b =? 0xF0 then s5
  else if b <? 0xF4 then s6
  else if b =? 0xF4 then s7
  else xx.

(** The table [acceptRanges], as a pair (lo, hi). *)
Definition acceptRanges (i : Z) : Z * Z :=
  if i =? 0 then (locb, hicb)
  else if i =? 1 then (0xA0, hicb)
  else if i =? 2 then (locb, 0x9F)
  else if i =? 3 then (0x90, hicb)
  else if i =? 4 then (locb, 0x8F)
  else (0, 0).

(** [utf8.DecodeRune]: the first rune of [p] and its width in bytes. *)
Definition DecodeRune (p : list Z) : Z * Z :=
  let n := lenof p in
  if n <? 1 then (RuneError, 0) else
  let p0 := idx p 0 in
  let x := first p0 in
  if as_ <=? x then
    (* mask := rune(x) << 31 >> 31: all ones exactly when bit 0 of x is set *)
    ((if Z.testbit x 0 then RuneError else p0), 1)
  else
  let sz := Z.land x 7 in
  let accept := acceptRanges (Z.shiftr x 4) in
  if n <? sz then (RuneError, 1) else
  let b1 := idx p 1 in
  if (b1 <? fst accept) || (snd accept <? b1) then (RuneError, 1) else
  if sz <=? 2 then
    (Z.lor (Z.shiftl (Z.land p0 mask2) 6) (Z.land b1 maskx), 2)
  else
  let b2 := idx p 2 in
  if (b2 <? locb) || (hicb <? b2) then (RuneError, 1) else
  if sz <=? 3 then
    (Z.lor (Z.lor (Z.shiftl (Z.land p0 mask3) 12)
                  (Z.shiftl (Z.land b1 maskx) 6))
           (Z.land b2 maskx), 3)
  else
  let b3 := idx p 3 in
  if (b3 <? locb) || (hicb <? b3) then (RuneError, 1) else
  (Z.lor (Z.lor (Z.lor (Z.shiftl (Z.land p0 mask4) 18)
                       (Z.shiftl (Z.land b1 maskx) 12))
                (Z.shiftl (Z.land b2 maskx) 6))
         (Z.land b3 maskx), 4).

(** [utf8.RuneStart]: the byte is not a continuation byte. *)
Definition RuneStart (b : Z) : bool := negb (Z.land b 0xC0 =? 0x80).

(** The loop [for start--; start >= lim; start-- { if RuneStart(p[start])
    { break } }] of [DecodeLastRune], entered after the first decrement. It
    runs at most [UTFMax] times, since [lim = end - UTFMax]. *)
Fixpoint scanStart (p : list Z) (lim start : Z) (fuel : nat) : Z :=
  match fuel with
  | O => start
  | S fuel' =>
      if start <? lim then start
      else if RuneStart (idx p start) then start
      else scanStart p lim (start - 1) fuel'
  end.

(** [utf8.DecodeLastRune]: the last rune of [p] and its width in bytes. *)
Definition DecodeLastRune (p : list Z) : Z * Z :=
  let end_ := lenof p in
  if end_ =? 0 then (RuneError, 0) else
  let start := end_ - 1 in
  let r := idx p start in
  if r <? RuneSelf then (r, 1) else
  let lim := Z.max 0 (end_ - UTFMax) in
  let start := scanStart p lim (start - 1) (Z.to_nat UTFMax) in
  let start := Z.max 0 start in
  let '(r, size) := DecodeRune (slice p start end_) in
  if negb (start + size =? end_) then (RuneError, 1) else (r, size).

(** [utf8.RuneLen]: the number of bytes of the encoding, -1 for a value that
    is not valid to encode. *)
Definition RuneLen (r : Z) : Z :=
  if r <? 0 then -1
  else if r <=? rune1Max then 1
  else if r <=? rune2Max then 2
  else if (surrogateMin <=? r) && (r <=? surrogateMax) then -1
  else if r <=? rune3Max then 3
  else if r <=? MaxRune then 4
  else -1.

Definition encode3 (r : Z) : list Z :=
  [ Z.lor t3 (byte (Z.shiftr r 12));
    Z.lor tx (Z.land (byte (Z.shiftr r 6)) maskx);
    Z.lor tx (Z.land (byte r) maskx) ].

Definition encode4 (r : Z) : list Z :=
  [ Z.lor t4 (byte (Z.shiftr r 18));
    Z.lor tx (Z.land (byte (Z.shiftr r 12)) maskx);
    Z.lor tx (Z.land (byte (Z.shiftr r 6)) maskx);
    Z.lor tx (Z.land (byte r) maskx) ].

(** The conversion [string(r)] of a rune, which is [utf8.EncodeRune]: a value
    that is no valid code point is written as U+FFFD. *)
Definition encodeRune (r : Z) : list Z :=
  let i := uint32 r in
  if i <=? rune1Max then [byte r]
  else if i <=? rune2Max then
    [ Z.lor t2 (byte (Z.shiftr r 6)); Z.lor tx (Z.land (byte r) maskx) ]
  else if (MaxRune <? i) || ((surrogateMin <=? i) && (i <=? surrogateMax))
  then encode3 RuneError
  else if i <=? rune3Max then encode3 r
  else encode4 r.

(** The conversion [string(rs)] of a slice of runes. *)
Fixpoint encodeRunes (rs : list Z) : list Z :=
  match rs with
  | [] => []
  | r :: rs' => encodeRune r ++ encodeRunes rs'
  end.

(** The conversion [[]rune(string(p))], which decodes rune after rune; [skip]
    counts the bytes of the current rune that are still to be passed. *)
Fixpoint decodeFrom (skip : nat) (p : list Z) : list Z :=
  match p with
  | [] => []
  | _ :: p' =>
      match skip with
      | S k => decodeFrom k p'
      | O =>
          let '(r, size) := DecodeRune p in
          r :: decodeFrom (Z.to_nat size - 1) p'
      end
  end.

Definition decodeRunes (p : list Z) : list Z := decodeFrom 0 p.

(** The rune a value turns into when it is written and read back. *)
Definition validRune (r : Z) : bool :=
  (0 <=? r) && (r <=? MaxRune)
  && negb ((surrogateMin <=? r) && (r <=? surrogateMax)).

Definition norm (r : Z) : Z := if validRune r then r else RuneError.

(** A buffer is well-formed UTF-8 when it decodes to valid code points and
    writing them back gives the buffer again. *)
Definition wellFormed (p : list Z) : bool :=
  forallb validRune (decodeRunes p)
  && (if list_eq_dec Z.eq_dec (encodeRunes (decodeRunes p)) p
      then true else false).

End utf8.

(** *** Checking a property on every integer of a range *)

Fixpoint forall_below (k : nat) (base : Z) (P : Z -> bool) : bool :=
  match k with
  | O => P base
  | S k' =>
      forall_below k' base P
      && forall_below k' (base + 2 ^ Z.of_nat k') P
  end.

Module utf8_checks.
Import utf8.

(** What is checked of the encoding of one code point: it has the length
    [RuneLen] says, starts with a byte that is no continuation byte, goes on
    with continuation bytes only, has no zero byte unless the rune is zero,
    has a newline byte only when the rune is a newline, and decodes to the
    rune. *)
Definition contByte (b : Z) : bool := (0x80 <=? b) && (b <=? 0xBF).

Definition shapeOK (e : list Z) : bool :=
  match e with
  | [] => false
  | b0 :: t =>
      RuneStart b0 && (0 <=? b0) && (b0 <? 256)
      && forallb contByte t
      && forallb (fun b => negb (RuneStart b)) t
      && (lenof t <=? 3)
      && (negb (lenof t =? 0) || (b0 <? RuneSelf))
  end.

Definition checkRune (r : Z) : bool :=
  if validRune r then
    let e := encodeRune r in
    shapeOK e
    && (lenof e =? RuneLen r)
    && (let '(r', size) := DecodeRune e in (r' =? r) && (size =? lenof e))
    && (if existsb (Z.eqb 0) e then r =? 0 else true)
    && (if existsb (Z.eqb 10) e then r =? 10 else true)
  else true.

Definition tagFacts (m : Z) : bool :=
  (if m <? 64 then Z.lor tx m =? tx + m else true)
  && (if m <? 8 then Z.lor t4 m =? t4 + m else true).

Definition byteFacts (x : Z) : bool :=
  Bool.eqb (RuneStart x) (negb (contByte x)).

(** What holds of the encoding of a valid code point. *)
Record encFacts (r : Z) : Prop := {
  ef_shape : shapeOK (encodeRune r) = true;
  ef_len : lenof (encodeRune r) = RuneLen r;
  ef_decode : forall rest,
      DecodeRune (encodeRune r ++ rest) = (r, lenof (encodeRune r));
  ef_zero : In 0 (encodeRune r) -> r = 0;
  ef_nl : In 10 (encodeRune r) -> r = 10
}.

End utf8_checks.

(** ** The open post and its operations ([websockets/post_updates.go]) *)

Module websockets.
Import utf8.

(** Common part of a splice request and a splice response. Both fields are
    of type [uint]. *)
Record spliceCoords := { Start : Z; Len : Z }.

(** Like [spliceRequest], but with a string [Text] field. *)
Record spliceRequestString := {
  srs_coords : spliceCoords;
  srs_Text : list Z
}.

(** Response to a [spliceRequest]. Sent to all listening clients. *)
Record spliceMessage := {
  ID : Z;
  sm_request : spliceRequestString
}.

(** Request to replace text of the open post; [Text] is a slice of runes. *)
Record spliceRequest := {
  coords : spliceCoords;
  Text : list Z
}.

(** The request of [insertImage], as the source reads its fields. *)
Record ImageRequest := {
  Spoiler : bool;
  Token : string;
  Name : string
}.

(** The part of [common.Link] the source reads. *)
Record Link := { LinkID : Z }.

Inductive error : Type :=
| errNoPostOpen
| errEmptyPost
| errTooManyLines
| errSpliceTooLong
| errSpliceNOOP
| errTextOnly
| errHasImage
| ErrBodyTooLong                      (* common.ErrBodyTooLong *)
| ErrContainsNull                     (* common.ErrContainsNull *)
| errInvalidSpliceCoords (body : list Z) (req : spliceRequestString)
| errNew (msg : string).              (* errors.New and errors of callees *)

(** The value [decodeMessage(data, &v)] leaves in [v], or its error; the
    JSON decoding itself is outside this file. *)
Definition decoded (A : Type) : Type := (error + A)%type.

(** The client's view of the post it is writing. *)
Record openPost := {
  isSpoilered : bool;
  len : Z;
  lines : Z;
  id : Z;
  op : Z;
  body : list Z;
  board : string
}.

(** [openPost{}] *)
Definition emptyPost : openPost :=
  {| isSpoilered := false; len := 0; lines := 0; id := 0; op := 0;
     body := []; board := EmptyString |}.

Record Client := {
  post : openPost;
  ip : string;
  captchaSession : string
}.

Definition setPost (c : Client) (p : openPost) : Client :=
  {| post := p; ip := ip c; captchaSession := captchaSession c |}.

Definition setBody (p : openPost) (b : list Z) : openPost :=
  {| isSpoilered := isSpoilered p; len := len p; lines := lines p;
     id := id p; op := op p; body := b; board := board p |}.

Definition setLen (p : openPost) (n : Z) : openPost :=
  {| isSpoilered := isSpoilered p; len := n; lines := lines p;
     id := id p; op := op p; body := body p; board := board p |}.

Definition setLines (p : openPost) (n : Z) : openPost :=
  {| isSpoilered := isSpoilered p; len := len p; lines := n;
     id := id p; op := op p; body := body p; board := board p |}.

Definition setSpoilered (p : openPost) (b : bool) : openPost :=
  {| isSpoilered := b; len := len p; lines := lines p;
     id := id p; op := op p; body := body p; board := board p |}.

Section Operations.

(** The state of the store, the commands of a post and the images are kept
    abstract: their packages are outside this file. *)
Variables DB Command Image : Type.

(** The messages [common.EncodeMessage] and [common.PrependMessageType]
    build, by message type and payload. Marshalling these payloads (numbers,
    strings and structs of them) to JSON does not fail, so the error result
    of [EncodeMessage] is not modelled. *)
Inductive Message : Type :=
| MessageAppend (postID char : Z)
| MessageBackspace (postID : Z)
| MessageSplice (m : spliceMessage)
| MessageInsertImage (payload : list Z)
| MessageSpoiler (postID : Z)
| MessageStoleImageFrom (from : Z)
| MessageStoleImageTo (postID : Z) (img : Image).

(** The calls made on the client's update feed [c.feed], oldest first. *)
Inductive FeedCall : Type :=
| FeedSetOpenBody (postID : Z) (body : list Z) (msg : Message)
| FeedInsertImage (postID : Z) (spoilered : bool) (msg : Message)
| FeedSpoilerImage (postID : Z) (msg : Message)
| FeedSend (msg : Message).

(** What the operations act on besides the client: the spam score kept for
    the client's session and address, the update feed and the store. *)
Record World := {
  spamScore : Z;
  feed : list FeedCall;
  store : DB
}.

Definition setStore (w : World) (d : DB) : World :=
  {| spamScore := spamScore w; feed := feed w; store := d |}.

Definition feedCall (w : World) (f : FeedCall) : World :=
  {| spamScore := spamScore w; feed := feed w ++ [f]; store := store w |}.

(** The constants, the configuration and the functions of the packages
    [common], [config], [parser] and [db] that the operations use. *)
Record Env := {
  (* common *)
  MaxLenBody : Z;
  MaxLinesBody : Z;
  (* config *)
  CharScore : Z;
  ImageScore : Z;
  TextOnly : string -> bool;
  (* parser *)
  IsPrintable : Z -> bool -> option error;
  IsPrintableRunes : list Z -> bool -> option error;
  RegisterFilter : Z -> list Z -> DB -> bool * DB;
  ApplyFilters : Z -> list Z -> DB -> (bool * list Z) * DB;
  ParseBody : list Z -> string -> Z -> Z -> string -> bool -> DB ->
              (list Link * list Command * option error) * DB;
  (* db *)
  SetOpenBody : Z -> list Z -> DB -> option error * DB;
  HasImage : Z -> DB -> bool * option error;
  InsertImage : Z -> string -> string -> bool -> DB ->
                (list Z * option error) * DB;
  SpoilerImage : Z -> Z -> DB -> option error * DB;
  TransferImage : Z -> Z -> Z -> DB -> (option Image * option error) * DB;
  ClosePost : Z -> Z -> list Z -> list Link -> list Command -> DB ->
              option error * DB;
  (* websockets *)
  formatImageName : string -> string
}.

(** An environment with another [parser.ParseBody]. *)
Definition setParseBody
  (f : list Z -> string -> Z -> Z -> string -> bool -> DB ->
       (list Link * list Command * option error) * DB)
  (E : Env) : Env :=
  {| MaxLenBody := MaxLenBody E;
     MaxLinesBody := MaxLinesBody E;
     CharScore := CharScore E;
     ImageScore := ImageScore E;
     TextOnly := TextOnly E;
     IsPrintable := IsPrintable E;
     IsPrintableRunes := IsPrintableRunes E;
     RegisterFilter := RegisterFilter E;
     ApplyFilters := ApplyFilters E;
     ParseBody := f;
     SetOpenBody := SetOpenBody E;
     HasImage := HasImage E;
     InsertImage := InsertImage E;
     SpoilerImage := SpoilerImage E;
     TransferImage := TransferImage E;
     ClosePost := ClosePost E;
     formatImageName := formatImageName E |}.

Variable E : Env.

(** What an operation leaves: the error it returns ([None] for [nil]) with
    the client and the world after it, or a run-time panic. *)
Inductive outcome : Type :=
| Ret (err : option error) (c : Client) (w : World)
| Panic.

(** Modelled from the spec: [db.IncrementSpamScore] is not under src/; it
    "atomically adds to per-ip and per-session counters". The world keeps
    the score of one client, whose session and address do not change. *)
Definition IncrementSpamScore (session addr : string) (score : Z)
  (w : World) : World :=
  {| spamScore := spamScore w + score; feed := feed w; store := store w |}.

(** Increment the spam score for this IP by score. *)
Definition incrementSpamScore (score : Z) (c : Client) (w : World) : World :=
  IncrementSpamScore (captchaSession c) (ip c) score w.

(** Modelled from the spec: [Client.hasPost] is not under src/. "All
    PostWriter operations require that the Client has an OpenPost; otherwise
    they fail with no_post_open"; a client has no open post when
    [c.post.id == 0], the test [closePost] makes itself. *)
Definition hasPost (c : Client) : bool * option error :=
  if id (post c) =? 0 then (false, Some errNoPostOpen) else (true, None).

(** Modelled from the spec: [openPost.countLines] is not under src/.
    "Recount lines from scratch", the lines being the newlines of the
    body. *)
Definition countLines (p : openPost) : openPost :=
  setLines p (lenof (filter (Z.eqb 10) (body p))).

(** Send message to thread update feed and write the open post's buffer to
    the database. [n] specifies the number of characters updated. *)
Definition updateBody (msg : Message) (n : Z) (c : Client) (w : World)
  : outcome :=
  let w := feedCall w (FeedSetOpenBody (id (post c)) (body (post c)) msg) in
  let w := incrementSpamScore (uint (uint n * CharScore E)) c w in
  let '(err, d) := SetOpenBody E (id (post c)) (body (post c)) (store w) in
  Ret err c (setStore w d).

(** Append a rune to the body of the open post. *)
Definition appendRune (data : decoded Z) (c : Client) (w : World)
  : outcome :=
  let '(has, err) := hasPost c in
  match err with
  | Some e => Ret (Some e) c w
  | None =>
  if negb has then Ret None c w
  else if int (len (post c) + 1) >? MaxLenBody E
  then Ret (Some ErrBodyTooLong) c w
  else
  match data with
  | inl e => Ret (Some e) c w
  | inr char =>
  if char =? 0 then Ret (Some ErrContainsNull) c w
  else
  let p := if char =? 10
           then setLines (post c) (int (lines (post c) + 1))
           else post c in
  if (char =? 10) && (lines p >? MaxLinesBody E)
  then Ret (Some errTooManyLines) (setPost c p) w
  else
  match IsPrintable E char true with
  | Some e => Ret (Some e) (setPost c p) w
  | None =>
  let msg := MessageAppend (id p) (uint char) in
  let p := setBody p (body p ++ encodeRune char) in
  let p := setLen p (int (len p + 1)) in
  updateBody msg 1 (setPost c p) w
  end
  end
  end.

(** Remove one character from the end of the line in the open post. *)
Definition backspace (c : Client) (w : World) : outcome :=
  let '(has, err) := hasPost c in
  match err with
  | Some e => Ret (Some e) c w
  | None =>
  if negb has then Ret None c w
  else if len (post c) =? 0 then Ret (Some errEmptyPost) c w
  else
  let p := post c in
  let msg := MessageBackspace (id p) in
  let '(r, lastRuneLen) := DecodeLastRune (body p) in
  let p := setBody p (slice (body p) 0 (lenof (body p) - lastRuneLen)) in
  let p := if r =? 10 then setLines p (int (lines p - 1)) else p in
  let p := setLen p (int (len p - 1)) in
  updateBody msg 1 (setPost c p) w
  end.

(** [byteStartPos], the sum of [utf8.RuneLen] over the runes before the
    start of the splice. *)
Definition byteStart (prefix : list Z) : Z :=
  fold_left (fun pos r => int (pos + RuneLen r)) prefix 0.

(** Splice the text in the open post. A slice expression whose bound lies
    beyond the length of the slice panics; the spare capacity Go allows it
    to reach into is not modelled. *)
Definition spliceText (data : decoded spliceRequest) (c : Client)
  (w : World) : outcome :=
  let '(has, err) := hasPost c in
  match err with
  | Some e => Ret (Some e) c w
  | None =>
  if negb has then Ret None c w
  else
  match data with
  | inl e => Ret (Some e) c w
  | inr req =>
  match IsPrintableRunes E (Text req) true with
  | Some e => Ret (Some e) c w
  | None =>
  let p := post c in
  let start := Start (coords req) in
  let dlen := Len (coords req) in
  (* Validate *)
  if (start >? MaxLenBody E) || (dlen >? MaxLenBody E)
     || (int (uint (start + dlen)) >? len p)
  then Ret (Some (errInvalidSpliceCoords (body p)
                    {| srs_coords := {| Start := start; Len := dlen |};
                       srs_Text := encodeRunes (Text req) |})) c w
  else if (dlen =? 0) && (lenof (Text req) =? 0)
  then Ret (Some errSpliceNOOP) c w
  else if lenof (Text req) >? MaxLenBody E
  then Ret (Some errSpliceTooLong) c w
  else if existsb (Z.eqb 0) (Text req)
  then Ret (Some ErrContainsNull) c w
  else
  let old := decodeRunes (body p) in
  (* old[req.Start+req.Len:] *)
  if uint (start + dlen) >? lenof old then Panic
  else
  let end_ := Text req ++ skipn (Z.to_nat (uint (start + dlen))) old in
  let p := setLen p (int (len p + int (int (- int dlen)
                                        + lenof (Text req)))) in
  let res := {| ID := id p;
                sm_request := {| srs_coords := coords req;
                                 srs_Text := encodeRunes (Text req) |} |} in
  (* If it goes over the max post length, trim the end *)
  let exceeding := int (len p - MaxLenBody E) in
  (* end[:len(end)-exceeding] and old[int(req.Start):] *)
  if (exceeding >? 0)
     && ((int (lenof end_ - exceeding) <? 0)
         || (int start <? 0) || (int start >? lenof old))
  then Panic
  else
  let '(end_, res, p) :=
    if exceeding >? 0 then
      let end_ := firstn (Z.to_nat (int (lenof end_ - exceeding))) end_ in
      (end_,
       {| ID := ID res;
          sm_request :=
            {| srs_coords :=
                 {| Start := start;
                    Len := uint (lenof (skipn (Z.to_nat (int start)) old)) |};
               srs_Text := encodeRunes end_ |} |},
       setLen p (MaxLenBody E))
    else (end_, res, p) in
  let msg := MessageSplice res in
  (* old[:req.Start] *)
  if start >? lenof old then Panic
  else
  let byteStartPos := byteStart (firstn (Z.to_nat start) old) in
  (* c.post.body[:byteStartPos] *)
  if (byteStartPos <? 0) || (byteStartPos >? lenof (body p)) then Panic
  else
  let p := setBody p (firstn (Z.to_nat byteStartPos) (body p)
                      ++ encodeRunes end_) in
  let p := countLines p in
  if lines p >? MaxLinesBody E
  then Ret (Some errTooManyLines) (setPost c p) w
  else
  (* +1, so you can't spam zero insert splices to infinity *)
  updateBody msg (int (lenof (srs_Text (sm_request res)) + 1))
             (setPost c p) w
  end
  end
  end.

(** [bytes.Contains]: [sub] occurs in [b]. *)
Fixpoint hasPrefix (b sub : list Z) : bool :=
  match sub, b with
  | [], _ => true
  | _ :: _, [] => false
  | x :: sub', y :: b' => (x =? y) && hasPrefix b' sub'
  end.

Fixpoint bytesContains (b sub : list Z) : bool :=
  hasPrefix b sub
  || match b with
     | [] => false
     | _ :: b' => bytesContains b' sub
     end.

(** The bytes of the literal ["#steal"]. *)
Definition stealCommand : list Z := [35; 115; 116; 101; 97; 108].

(** The filter block of [closePost]: unless [parser.RegisterFilter] handles
    the body, [parser.ApplyFilters] rewrites it in place, and a rewritten
    body is sent to the feed as a splice of the whole old body. *)
Definition filterBody (p : openPost) (w : World) : openPost * World :=
  let '(registered, d) := RegisterFilter E (op p) (body p) (store w) in
  let w := setStore w d in
  if negb registered then
    let oldLen := lenof (body p) in
    let '(modified, body', d) := ApplyFilters E (op p) (body p) (store w) in
    let p := setBody p body' in
    let w := setStore w d in
    if modified then
      let msg :=
        MessageSplice
          {| ID := id p;
             sm_request :=
               {| srs_coords := {| Start := 0; Len := uint oldLen |};
                  srs_Text := body' |} |} in
      (p, feedCall w (FeedSetOpenBody (id p) body' msg))
    else (p, w)
  else (p, w).

(** The end of [closePost]: the post is closed in the store with the links
    and commands found, and the client's open post is cleared. *)
Definition finishClose (links : list Link) (com : list Command)
  (c : Client) (w : World) : outcome :=
  let '(err, d) :=
    ClosePost E (id (post c)) (op (post c)) (body (post c)) links com
              (store w) in
  match err with
  | Some e => Ret (Some e) c (setStore w d)
  | None => Ret None (setPost c emptyPost) (setStore w d)
  end.

(** Close an open post and parse the last line, if needed. *)
Definition closePost (c : Client) (w : World) : outcome :=
  if id (post c) =? 0 then Ret (Some errNoPostOpen) c w
  else
  if negb (len (post c) =? 0) then
    let '(p, w) := filterBody (post c) w in
    let c := setPost c p in
    let '(links, com, err, d) :=
      ParseBody E (body p) (board p) (op p) (id p) (ip c) false (store w) in
    let w := setStore w d in
    match err with
    | Some e => Ret (Some e) c w
    | None =>
    if String.eqb (board p) "a" && negb (lenof links =? 0)
       && bytesContains (body p) stealCommand
    then
      let from := LinkID (nth (Z.to_nat (lenof links - 1)) links
                              {| LinkID := 0 |}) in
      let '(img, err, d) := TransferImage E from (id p) (op p) (store w) in
      let w := setStore w d in
      match err with
      | Some e => Ret (Some e) c w
      | None =>
      match img with
      | Some im =>
          let w := incrementSpamScore (ImageScore E) c w in
          let w := feedCall w (FeedSend (MessageStoleImageFrom from)) in
          let w := feedCall w (FeedSend (MessageStoleImageTo (id p) im)) in
          finishClose links com c w
      | None => finishClose links com c w
      end
      end
    else finishClose links com c w
    end
  else finishClose [] [] c w.

(** Check, if post has an image. Done through the DB, so the poster can
    reupload, after his has been stolen. *)
Definition hasImage (c : Client) (w : World)
  : bool * option error * Client :=
  let '(has, err) := HasImage E (id (post c)) (store w) in
  match err with
  | Some e => (has, Some e, c)
  | None =>
  if negb has
  then (* Allow respoilering *)
       (has, None, setPost c (setSpoilered (post c) false))
  else (has, None, c)
  end.

(** Insert an image into an existing open post. *)
Definition insertImage (data : decoded ImageRequest) (c : Client)
  (w : World) : outcome :=
  (* Ensure this can not be spammed, as this function can be resolved into
     a NOP branch. *)
  let w := incrementSpamScore (CharScore E) c w in
  let '(has, err) := hasPost c in
  match err with
  | Some e => Ret (Some e) c w
  | None =>
  if negb has then Ret (Some errNoPostOpen) c w
  else
  let '(hasImg, err, c) := hasImage c w in
  match err with
  | Some e => Ret (Some e) c w
  | None =>
  if hasImg
  then (* Can be caused by network latency - NOP it *)
       Ret None c w
  else
  match data with
  | inl e => Ret (Some e) c w
  | inr req =>
  if TextOnly E (board (post c)) then Ret (Some errTextOnly) c w
  else
  let name := formatImageName E (Name req) in
  let '(msg, err, d) :=
    InsertImage E (id (post c)) (Token req) name (Spoiler req) (store w) in
  let w := setStore w d in
  match err with
  | Some e => Ret (Some e) c w
  | None =>
  let c := setPost c (setSpoilered (post c) (Spoiler req)) in
  let w := feedCall w (FeedInsertImage (id (post c)) (Spoiler req)
                         (MessageInsertImage msg)) in
  Ret None c w
  end
  end
  end
  end.

(** Spoiler an already inserted image in an unclosed post. *)
Definition spoilerImage (c : Client) (w : World) : outcome :=
  let w := incrementSpamScore (CharScore E) c w in
  let '(has, err) := hasPost c in
  match err with
  | Some e => Ret (Some e) c w
  | None =>
  if negb has then Ret (Some errNoPostOpen) c w
  else
  let '(hasImg, err, c) := hasImage c w in
  match err with
  | Some e => Ret (Some e) c w
  | None =>
  if negb hasImg
  then Ret (Some (errNew "post does not have an image")) c w
  else if isSpoilered (post c)
  then (* Can be caused by network latency - NOP it *)
       Ret None c w
  else
  let '(err, d) := SpoilerImage E (id (post c)) (op (post c)) (store w) in
  let w := setStore w d in
  match err with
  | Some e => Ret (Some e) c w
  | None =>
  let msg := MessageSpoiler (id (post c)) in
  Ret None c (feedCall w (FeedSpoilerImage (id (post c)) msg))
  end
  end
  end.

(** *** The splice in the words of the specification *)

(** "[body[0:s] + t + body[s+l:]]", on runes. *)
Definition spliceRunes (B : list Z) (s l : Z) (t : list Z) : list Z :=
  firstn (Z.to_nat s) B ++ t ++ skipn (Z.to_nat (s + l)) B.

(** "Tail-trim if over the cap." *)
Definition tailTrim (cap : Z) (rs : list Z) : list Z :=
  firstn (Z.to_nat cap) rs.

(** The new text of a splice that passed the checks. *)
Definition spliced (c : Client) (req : spliceRequest) : list Z :=
  tailTrim (MaxLenBody E)
    (spliceRunes (decodeRunes (body (post c))) (Start (coords req))
       (Len (coords req)) (Text req)).

(** The message of a splice that passed the checks. *)
Definition splicedMessage (c : Client) (req : spliceRequest)
  : spliceMessage :=
  let s := Start (coords req) in
  let l := Len (coords req) in
  let end_ := Text req ++ skipn (Z.to_nat (s + l))
                            (decodeRunes (body (post c))) in
  let over := len (post c) - l + lenof (Text req) - MaxLenBody E in
  if over >? 0
  then {| ID := id (post c);
          sm_request :=
            {| srs_coords := {| Start := s; Len := len (post c) - s |};
               srs_Text :=
                 encodeRunes (firstn (Z.to_nat (lenof end_ - over)) end_) |}
       |}
  else {| ID := id (post c);
          sm_request := {| srs_coords := coords req;
                           srs_Text := encodeRunes (Text req) |} |}.

(** *** Sequences of text operations *)

Inductive call : Type :=
| CallAppendRune (data : decoded Z)
| CallBackspace
| CallSpliceText (data : decoded spliceRequest).

Definition step (k : call) (c : Client) (w : World) : outcome :=
  match k with
  | CallAppendRune data => appendRune data c w
  | CallBackspace => backspace c w
  | CallSpliceText data => spliceText data c w
  end.

(** The calls of [ks] in turn, whatever each of them returns. *)
Fixpoint run (ks : list call) (c : Client) (w : World) : outcome :=
  match ks with
  | [] => Ret None c w
  | k :: ks' =>
      match step k c w with
      | Ret _ c' w' => run ks' c' w'
      | Panic => Panic
      end
  end.

(** *** Well-formed inputs and states *)

(** A rune received by [appendRune] is an [int32]; the fields of a splice
    request are [uint]s and its text is a slice of runes. *)
Definition callOK (k : call) : Prop :=
  match k with
  | CallAppendRune (inr char) => is_rune char
  | CallSpliceText (inr req) =>
      0 <= Start (coords req) < 2 ^ 64 /\ 0 <= Len (coords req) < 2 ^ 64
      /\ Forall is_rune (Text req)
  | _ => True
  end.

(** The test of [callOK]. *)
Definition is_runeb (r : Z) : bool := (- 2 ^ 31 <=? r) && (r <? 2 ^ 31).

Definition callOKb (k : call) : bool :=
  match k with
  | CallAppendRune (inr char) => is_runeb char
  | CallSpliceText (inr req) =>
      (0 <=? Start (coords req)) && (Start (coords req) <? 2 ^ 64)
      && (0 <=? Len (coords req)) && (Len (coords req) <? 2 ^ 64)
      && forallb is_runeb (Text req)
  | _ => true
  end.

(** The constants are lengths far below the range of [int]. *)
Definition envOK : Prop :=
  0 <= MaxLenBody E < 2 ^ 31 /\ 0 <= MaxLinesBody E < 2 ^ 31.

(** What holds of the text of a valid open post: the buffer is well-formed
    UTF-8 without NUL and [len] is its length in runes. *)
Definition textOK (p : openPost) : Prop :=
  wellFormed (body p) = true
  /\ len p = lenof (decodeRunes (body p))
  /\ ~ In 0 (body p).

(** [repr p rs]: the buffer of [p] is the encoding of the valid, non-zero
    code points [rs], and [len] is their number. *)
Definition repr (p : openPost) (rs : list Z) : Prop :=
  forallb validRune rs = true
  /\ body p = encodeRunes rs
  /\ len p = lenof rs
  /\ ~ In 0 rs.

(** What every text operation keeps: a well-formed text within the limit
    of [MaxLenBody]. *)
Definition textInv (p : openPost) : Prop :=
  textOK p /\ len p <= MaxLenBody E.

(** A valid open post: besides, the limits hold and [lines] counts the
    newlines. *)
Definition validPost (p : openPost) : Prop :=
  id p <> 0
  /\ textOK p
  /\ len p <= MaxLenBody E
  /\ lines p = lenof (filter (Z.eqb 10) (decodeRunes (body p)))
  /\ lines p <= MaxLinesBody E.

(** The test of [validPost], to run it on a concrete post. *)
Definition validPostb (p : openPost) : bool :=
  negb (id p =? 0)
  && wellFormed (body p)
  && (len p =? lenof (decodeRunes (body p)))
  && negb (existsb (Z.eqb 0) (body p))
  && (len p <=? MaxLenBody E)
  && (lines p =? lenof (filter (Z.eqb 10) (decodeRunes (body p))))
  && (lines p <=? MaxLinesBody E).

Definition envOKb : bool :=
  (0 <=? MaxLenBody E) && (MaxLenBody E <? 2 ^ 31)
  && (0 <=? MaxLinesBody E) && (MaxLinesBody E <? 2 ^ 31).

End Operations.

Arguments MaxLenBody {DB Command Image} e.
Arguments MaxLinesBody {DB Command Image} e.
Arguments CharScore {DB Command Image} e.
Arguments ImageScore {DB Command Image} e.
Arguments TextOnly {DB Command Image} e _.
Arguments IsPrintable {DB Command Image} e _ _.
Arguments IsPrintableRunes {DB Command Image} e _ _.
Arguments RegisterFilter {DB Command Image} e _ _ _.
Arguments ApplyFilters {DB Command Image} e _ _ _.
Arguments ParseBody {DB Command Image} e _ _ _ _ _ _ _.
Arguments SetOpenBody {DB Command Image} e _ _ _.
Arguments HasImage {DB Command Image} e _ _.
Arguments InsertImage {DB Command Image} e _ _ _ _ _.
Arguments SpoilerImage {DB Command Image} e _ _ _.
Arguments TransferImage {DB Command Image} e _ _ _ _.
Arguments ClosePost {DB Command Image} e _ _ _ _ _ _.
Arguments formatImageName {DB Command Image} e _.
Arguments setParseBody {DB Command Image} f E.
Arguments spamScore {DB Image} w.
Arguments feed {DB Image} w.
Arguments store {DB Image} w.
Arguments setStore {DB Image} w d.
Arguments feedCall {DB Image} w f.
Arguments IncrementSpamScore {DB Image} session addr score w.
Arguments incrementSpamScore {DB Image} score c w.
Arguments updateBody {DB Command Image} E msg n c w.
Arguments appendRune {DB Command Image} E data c w.
Arguments backspace {DB Command Image} E c w.
Arguments spliceText {DB Command Image} E data c w.
Arguments filterBody {DB Command Image} E p w.
Arguments finishClose {DB Command Image} E links com c w.
Arguments closePost {DB Command Image} E c w.
Arguments hasImage {DB Command Image} E c w.
Arguments insertImage {DB Command Image} E data c w.
Arguments spoilerImage {DB Command Image} E c w.
Arguments step {DB Command Image} E k c w.
Arguments run {DB Command Image} E ks c w.
Arguments envOK {DB Command Image} E.
Arguments validPost {DB Command Image} E p.
Arguments textInv {DB Command Image} E p.
Arguments validPostb {DB Command Image} E p.
Arguments envOKb {DB Command Image} E.
Arguments spliced {DB Command Image} E c req.
Arguments splicedMessage {DB Command Image} E c req.
Arguments Ret {DB Image} err c w.
Arguments Panic {DB Image}.
Arguments MessageAppend {Image} postID char.
Arguments MessageBackspace {Image} postID.
Arguments MessageSplice {Image} m.
Arguments MessageInsertImage {Image} payload.
Arguments MessageSpoiler {Image} postID.
Arguments MessageStoleImageFrom {Image} from.
Arguments MessageStoleImageTo {Image} postID img.
Arguments FeedSetOpenBody {Image} postID body msg.
Arguments FeedInsertImage {Image} postID spoilered msg.
Arguments FeedSpoilerImage {Image} postID msg.
Arguments FeedSend {Image} msg.

End websockets.
(** ** An in-memory store, to run the operations on concrete posts *)

Module memstore.
Import utf8 websockets.

(** Open bodies by post, the posts that have an image, the spoilered ones
    and the closed posts with their body and the posts they link to. *)
Record MemDB := {
  openBodies : list (Z * list Z);
  images : list Z;
  spoilered : list Z;
  closed : list (Z * list Z * list Z)
}.

Definition emptyDB : MemDB :=
  {| openBodies := []; images := []; spoilered := []; closed := [] |}.

Definition hasID (n : Z) (l : list Z) : bool := existsb (Z.eqb n) l.

Definition dropID (n : Z) (l : list Z) : list Z :=
  filter (fun m => negb (m =? n)) l.

Definition memSetOpenBody (n : Z) (b : list Z) (d : MemDB)
  : option error * MemDB :=
  (None,
   {| openBodies :=
        (n, b) :: filter (fun e => negb (fst e =? n)) (openBodies d);
      images := images d; spoilered := spoilered d; closed := closed d |}).

Definition memHasImage (n : Z) (d : MemDB) : bool * option error :=
  (hasID n (images d), None).

Definition memInsertImage (n : Z) (token name : string) (spoiler : bool)
  (d : MemDB) : (list Z * option error) * MemDB :=
  (([], None),
   {| openBodies := openBodies d;
      images := n :: images d;
      spoilered := if spoiler then n :: spoilered d
                   else dropID n (spoilered d);
      closed := closed d |}).

Definition memSpoilerImage (n thread : Z) (d : MemDB)
  : option error * MemDB :=
  (None,
   {| openBodies := openBodies d; images := images d;
      spoilered := n :: spoilered d; closed := closed d |}).

(** The image of post [from] goes to post [n]; an image is named after the
    post it was first inserted in. *)
Definition memTransferImage (from n thread : Z) (d : MemDB)
  : (option Z * option error) * MemDB :=
  if hasID from (images d) && negb (hasID n (images d)) then
    ((Some from, None),
     {| openBodies := openBodies d;
        images := n :: dropID from (images d);
        spoilered := dropID from (spoilered d);
        closed := closed d |})
  else ((None, None), d).

Definition memClosePost (n thread : Z) (b : list Z) (links : list Link)
  (com : list unit) (d : MemDB) : option error * MemDB :=
  (None,
   {| openBodies := filter (fun e => negb (fst e =? n)) (openBodies d);
      images := images d; spoilered := spoilered d;
      closed := (n, b, map LinkID links) :: closed d |}).

(** A stand-in for [parser.IsPrintable]: control characters other than the
    newline, and values that are no code points, are refused. *)
Definition memIsPrintable (r : Z) (multiline : bool) : option error :=
  if r =? 10 then
    if multiline then None else Some (errNew "non-printable rune")
  else if (r <? 32) || ((127 <=? r) && (r <? 160)) || negb (validRune r)
  then Some (errNew "non-printable rune")
  else None.

Fixpoint memIsPrintableRunes (rs : list Z) (multiline : bool)
  : option error :=
  match rs with
  | [] => None
  | r :: rs' =>
      match memIsPrintable r multiline with
      | Some e => Some e
      | None => memIsPrintableRunes rs' multiline
      end
  end.

(** A stand-in for [parser.ParseBody] that finds no link and no command,
    except that it reports post 1 as a link when its last argument is
    set. *)
Definition memParseBody (b : list Z) (brd : string) (thread n : Z)
  (addr : string) (flag : bool) (d : MemDB)
  : (list Link * list unit * option error) * MemDB :=
  ((if flag then [{| LinkID := 1 |}] else [], [], None), d).

(** The environment over the in-memory store: bodies of at most 2000 runes
    and 100 lines, no filters, no text-only board; commands are not
    modelled and an image is named by a number. *)
Definition memEnv : Env MemDB unit Z :=
  {| MaxLenBody := 2000;
     MaxLinesBody := 100;
     CharScore := 170;
     ImageScore := 15000;
     TextOnly := fun _ => false;
     IsPrintable := memIsPrintable;
     IsPrintableRunes := memIsPrintableRunes;
     RegisterFilter := fun _ _ d => (false, d);
     ApplyFilters := fun _ b d => ((false, b), d);
     ParseBody := memParseBody;
     SetOpenBody := memSetOpenBody;
     HasImage := memHasImage;
     InsertImage := memInsertImage;
     SpoilerImage := memSpoilerImage;
     TransferImage := memTransferImage;
     ClosePost := memClosePost;
     formatImageName := fun s => s |}.

(** The bytes of an ASCII string. *)
Fixpoint bytesOf (s : string) : list Z :=
  match s with
  | EmptyString => []
  | String a s' => Z.of_N (Ascii.N_of_ascii a) :: bytesOf s'
  end.

(** An open post 101 of thread 42 on board "g", with the given body. *)
Definition postOfBytes (b : list Z) : openPost :=
  {| isSpoilered := false;
     len := lenof (decodeRunes b);
     lines := lenof (filter (Z.eqb 10) (decodeRunes b));
     id := 101; op := 42; body := b; board := "g" |}.

Definition postOf (s : string) : openPost := postOfBytes (bytesOf s).

Definition clientOf (p : openPost) : Client :=
  {| post := p; ip := "::1"; captchaSession := "" |}.

Definition world0 : World MemDB Z :=
  {| spamScore := 0; feed := []; store := emptyDB |}.

(** A world whose store has an image for post 101. *)
Definition worldWithImage : World MemDB Z :=
  {| spamScore := 0; feed := [];
     store := {| openBodies := []; images := [101]; spoilered := [];
                 closed := [] |} |}.

(** A post whose image was spoilered and has since been taken away. *)
Definition postAfterSteal : openPost :=
  {| isSpoilered := true; len := 2; lines := 0; id := 101; op := 42;
     body := bytesOf "hi"; board := "g" |}.

(** The request of the second boundary scenario of the specification:
    "hello", splice at 1 of length 3 with "EY". *)
Definition helloRequest : spliceRequest :=
  {| coords := {| Start := 1; Len := 3 |}; Text := [69; 89] |}.

(** A body of [MaxLenBody - 2] letters "a", and the insertion of the ten
    digits at its start. *)
Definition longPost : openPost := postOfBytes (repeat 97 1998).

Definition digitsRequest : spliceRequest :=
  {| coords := {| Start := 0; Len := 0 |};
     Text := [48; 49; 50; 51; 52; 53; 54; 55; 56; 57] |}.

(** A body of [MaxLinesBody] newlines, and the insertion of 101 newlines
    into a post that has none. *)
Definition linesPost : openPost := postOfBytes (repeat 10 100).

Definition newlinesRequest : spliceRequest :=
  {| coords := {| Start := 0; Len := 0 |}; Text := repeat 10 101 |}.

(** Calls on "hello": a three-byte rune is appended and taken back, the
    splice of the specification, a NUL and a value that is no code point
    (both refused), a splice with coordinates beyond the text, a splice
    whose text has a surrogate (refused as not printable), a request that
    was not decoded, a backspace. *)
Definition helloCalls : list call :=
  [ CallAppendRune (inr 0x20AC);
    CallBackspace;
    CallSpliceText (inr helloRequest);
    CallAppendRune (inr 0);
    CallAppendRune (inr 0x110000);
    CallSpliceText
      (inr {| coords := {| Start := 3; Len := 9 |}; Text := [97] |});
    CallSpliceText
      (inr {| coords := {| Start := 4; Len := 0 |};
              Text := [0xD800; 10; 0x1F600] |});
    CallAppendRune (inl (errNew "bad JSON"));
    CallBackspace ].

(** The client and the world an operation leaves, when it returns. *)
Definition after (o : outcome MemDB Z) : Client * World MemDB Z :=
  match o with
  | Ret _ c w => (c, w)
  | Panic => (clientOf emptyPost, world0)
  end.

(** "hello" after the append of the euro sign, a rune of three bytes. *)
Definition euroAppended : Client * World MemDB Z :=
  after (appendRune memEnv (inr 0x20AC) (clientOf (postOf "hello")) world0).

(** A post of thread 42 on board "a" that asks for the image of the last
    post it links to. *)
Definition stealPost : openPost :=
  {| isSpoilered := false; len := 10; lines := 0; id := 101; op := 42;
     body := bytesOf ">>7 #steal"; board := "a" |}.

(** A stand-in for [parser.ParseBody] that finds the links to posts 5 and
    7. *)
Definition linksParseBody (b : list Z) (brd : string) (thread n : Z)
  (addr : string) (flag : bool) (d : MemDB)
  : (list Link * list unit * option error) * MemDB :=
  (([{| LinkID := 5 |}; {| LinkID := 7 |}], [], None), d).

(** A world whose store has an image for post 7. *)
Definition worldWithImage7 : World MemDB Z :=
  {| spamScore := 0; feed := [];
     store := {| openBodies := []; images := [7]; spoilered := [];
                 closed := [] |} |}.

(** The environment over the in-memory store whose parser finds the links
    to posts 5 and 7. *)
Definition stealEnv : Env MemDB unit Z := setParseBody linksParseBody memEnv.


(** A store that is out of reach for bodies of five bytes, over the
    in-memory store. *)
Definition busySetOpenBody (n : Z) (b : list Z) (d : MemDB)
  : option error * MemDB :=
  if lenof b =? 5 then (Some (errNew "store timeout"), d)
  else memSetOpenBody n b d.

Definition busyEnv : Env MemDB unit Z :=
  {| MaxLenBody := MaxLenBody memEnv;
     MaxLinesBody := MaxLinesBody memEnv;
     CharScore := CharScore memEnv;
     ImageScore := ImageScore memEnv;
     TextOnly := TextOnly memEnv;
     IsPrintable := IsPrintable memEnv;
     IsPrintableRunes := IsPrintableRunes memEnv;
     RegisterFilter := RegisterFilter memEnv;
     ApplyFilters := ApplyFilters memEnv;
     ParseBody := ParseBody memEnv;
     SetOpenBody := busySetOpenBody;
     HasImage := HasImage memEnv;
     InsertImage := InsertImage memEnv;
     SpoilerImage := SpoilerImage memEnv;
     TransferImage := TransferImage memEnv;
     ClosePost := ClosePost memEnv;
     formatImageName := formatImageName memEnv |}.

(** "hello" after the append of an exclamation mark, with that store. *)
Definition bangAppended : Client * World MemDB Z :=
  after (appendRune busyEnv (inr 33) (clientOf (postOf "hello")) world0).

End memstore.
(** ** Conversions of splice requests, and what the text operations leave *)

Module extras.
Import utf8 websockets memstore.

(** The values of type [byte]. *)
Definition is_byte (b : Z) : Prop := 0 <= b < 256.

(** [utf8.Valid]: whether [p] consists entirely of valid UTF-8-encoded
    runes. The loop [for i := 0; i < n;] is written on the bytes from [i]
    on; a rune that the end of [p] cuts short is refused, as the test
    [i+size > n] does. The fast path, which skips eight ASCII bytes at a
    time, is left out: it changes nothing in the result. *)
Fixpoint Valid (p : list Z) : bool :=
  match p with
  | [] => true
  | pi :: p1 =>
      if pi <? RuneSelf then Valid p1
      else
      let x := first pi in
      if x =? xx then false (* Illegal starter byte. *)
      else
      let size := Z.land x 7 in
      let accept := acceptRanges (Z.shiftr x 4) in
      match p1 with
      | [] => false (* Short or invalid. *)
      | c1 :: p2 =>
          if (c1 <? fst accept) || (snd accept <? c1) then false
          else if size =? 2 then Valid p2
          else
          match p2 with
          | [] => false
          | c2 :: p3 =>
              if (c2 <? locb) || (hicb <? c2) then false
              else if size =? 3 then Valid p3
              else
              match p3 with
              | [] => false
              | c3 :: p4 =>
                  if (c3 <? locb) || (hicb <? c3) then false
                  else Valid p4
              end
          end
      end
  end.

(** The bytes [l] are the encoding of a code point, the one they decode
    to. *)
Definition encodes (l : list Z) : bool :=
  let r := fst (DecodeRune l) in
  validRune r
  && (if list_eq_dec Z.eq_dec (encodeRune r) l then true else false).

(** What is checked of a first byte, along the tests of [utf8.Valid]: the
    sequences of one, two and three bytes that pass are encodings, and the
    first two bytes of a sequence of four that pass are those of a code
    point from U+10000 to U+10FFFF. *)
Definition fourStart (b0 c1 : Z) : bool :=
  (0xF0 <=? b0) && (b0 <=? 0xF4) && (0x80 <=? c1) && (c1 <=? 0xBF)
  && (0x10000 <=? (b0 - 0xF0) * 2 ^ 18 + (c1 - 0x80) * 2 ^ 12)
  && ((b0 - 0xF0) * 2 ^ 18 + (c1 - 0x80) * 2 ^ 12 + 4095 <=? MaxRune).

Definition validStart (b0 : Z) : bool :=
  if b0 <? RuneSelf then encodes [b0]
  else
  let x := first b0 in
  if x =? xx then true
  else
  let size := Z.land x 7 in
  let accept := acceptRanges (Z.shiftr x 4) in
  forall_below 8 0 (fun c1 =>
    if (c1 <? fst accept) || (snd accept <? c1) then true
    else if size =? 2 then encodes [b0; c1]
    else if size =? 3 then
      forall_below 8 0 (fun c2 =>
        if (c2 <? locb) || (hicb <? c2) then true
        else encodes [b0; c1; c2])
    else fourStart b0 c1).

(** Custom marshaling of [[]rune] -> [string]: the value
    [spliceRequest.MarshalJSON] hands to [json.Marshal]. *)
Definition marshalRequest (s : spliceRequest) : spliceRequestString :=
  {| srs_coords := coords s; srs_Text := encodeRunes (Text s) |}.

(** Custom unmarshaling of [string] -> [[]rune]: the request
    [spliceRequest.UnmarshalJSON] builds from the [spliceRequestString]
    that [json.Unmarshal] has filled. *)
Definition unmarshalRequest (tmp : spliceRequestString) : spliceRequest :=
  {| coords := srs_coords tmp; Text := decodeRunes (srs_Text tmp) |}.

(** The fields of a client that the text operations never write. *)
Definition sameFrame (c c' : Client) : Prop :=
  id (post c') = id (post c)
  /\ op (post c') = op (post c)
  /\ board (post c') = board (post c)
  /\ isSpoilered (post c') = isSpoilered (post c)
  /\ ip c' = ip c
  /\ captchaSession c' = captchaSession c.

(** A text operation either panics, or returns an error and leaves the
    world as it was, or ends with [updateBody]; the client keeps its
    frame. *)
Definition shaped {DB Command Image} (E : Env DB Command Image)
  (o : outcome DB Image) (c : Client) (w : World DB Image) : Prop :=
  o = Panic
  \/ exists c', sameFrame c c'
       /\ ((exists e, o = Ret (Some e) c' w)
           \/ (exists msg n, o = updateBody E msg n c' w)).

(** The post after the rune [r] has been appended. *)
Definition appended (p : openPost) (r : Z) : openPost :=
  {| isSpoilered := isSpoilered p;
     len := len p + 1;
     lines := lines p + (if r =? 10 then 1 else 0);
     id := id p; op := op p;
     body := body p ++ encodeRune r;
     board := board p |}.

(** The post after its last rune has been removed. *)
Definition chopped (p : openPost) : openPost :=
  let rs := decodeRunes (body p) in
  {| isSpoilered := isSpoilered p;
     len := len p - 1;
     lines := lines p - (if last rs 0 =? 10 then 1 else 0);
     id := id p; op := op p;
     body := encodeRunes (removelast rs);
     board := board p |}.

(** A store that accepts every write of an open body. *)
Definition storeAccepts {DB Command Image} (E : Env DB Command Image)
  : Prop :=
  forall n b d, fst (SetOpenBody E n b d) = None.

(** The request that inserts the rune [r] at the end of the post. *)
Definition appendRequest (p : openPost) (r : Z) : spliceRequest :=
  {| coords := {| Start := len p; Len := 0 |}; Text := [r] |}.

(** The request that puts back what the request [req] replaced in the
    runes [B]. *)
Definition undoRequest (B : list Z) (req : spliceRequest) : spliceRequest :=
  {| coords := {| Start := Start (coords req);
                  Len := lenof (Text req) |};
     Text := firstn (Z.to_nat (Len (coords req)))
               (skipn (Z.to_nat (Start (coords req))) B) |}.

(** The number of characters an operation hands to [updateBody]: one for
    an append or a backspace, the bytes of the text of the message plus one
    for a splice. *)
Definition charsUpdated {DB Command Image} (E : Env DB Command Image)
  (k : call) (c : Client) : Z :=
  match k with
  | CallSpliceText (inr req) =>
      lenof (srs_Text (sm_request (splicedMessage E c req))) + 1
  | _ => 1
  end.

(** What the filter block of [closePost] sends to the feed: nothing, or the
    splice that replaces the body. *)
Definition filterCalls {Image} (n : Z) (l : list (FeedCall Image)) : Prop :=
  l = [] \/ exists b m, l = [FeedSetOpenBody n b (MessageSplice m)].

(** The two messages [closePost] sends when it has taken an image: the
    image is one that [db.TransferImage] has handed over, for the post
    [n] of the thread [thread]. *)
Definition stealCalls {DB Command Image} (E : Env DB Command Image)
  (n thread : Z) (l : list (FeedCall Image)) : Prop :=
  exists from im d0 d1,
    TransferImage E from n thread d0 = (Some im, None, d1)
    /\ l = [FeedSend (MessageStoleImageFrom from);
            FeedSend (MessageStoleImageTo n im)].

(** [sub] occurs in [b]. *)
Definition occursIn (sub b : list Z) : Prop :=
  exists pre suf, b = pre ++ sub ++ suf.

(** The post that asks for the image of post 7, closed. *)
Definition stolen : Client * World MemDB Z :=
  after (closePost stealEnv (clientOf stealPost) worldWithImage7).

(** The post with an image, spoilered twice. *)
Definition spoileredOnce : Client * World MemDB Z :=
  after (spoilerImage memEnv (clientOf (postOf "hi")) worldWithImage).

Definition spoileredTwice : Client * World MemDB Z :=
  after (spoilerImage memEnv (fst spoileredOnce) (snd spoileredOnce)).

(** A request for a spoilered image, and the post after it. *)
Definition catRequest : ImageRequest :=
  {| Spoiler := true; Token := "t0"; Name := "cat.png" |}.

Definition catInserted : Client * World MemDB Z :=
  after (insertImage memEnv (inr catRequest) (clientOf (postOf "hi"))
           world0).

(** The in-memory environment with every board text-only. *)
Definition textOnlyEnv : Env MemDB unit Z :=
  {| MaxLenBody := MaxLenBody memEnv;
     MaxLinesBody := MaxLinesBody memEnv;
     CharScore := CharScore memEnv;
     ImageScore := ImageScore memEnv;
     TextOnly := fun _ => true;
     IsPrintable := IsPrintable memEnv;
     IsPrintableRunes := IsPrintableRunes memEnv;
     RegisterFilter := RegisterFilter memEnv;
     ApplyFilters := ApplyFilters memEnv;
     ParseBody := ParseBody memEnv;
     SetOpenBody := SetOpenBody memEnv;
     HasImage := HasImage memEnv;
     InsertImage := InsertImage memEnv;
     SpoilerImage := SpoilerImage memEnv;
     TransferImage := TransferImage memEnv;
     ClosePost := ClosePost memEnv;
     formatImageName := formatImageName memEnv |}.

(** The request for an image on a text-only board. *)
Definition catRefused : Client * World MemDB Z :=
  after (insertImage textOnlyEnv (inr catRequest) (clientOf (postOf "hi"))
           world0).

End extras.
(** * Properties *)

(** ** Encoding and decoding one rune *)

Lemma forall_below_spec k : forall base P,
  forall_below k base P = true ->
  forall z, base <= z < base + 2 ^ Z.of_nat k -> P z = true.
Proof.
  induction k as [|k IH]; intros base P H z Hz.
  - simpl in *. assert (z = base) by lia. subst. exact H.
  - cbn [forall_below] in H. apply andb_true_iff in H as [H1 H2].
    rewrite Nat2Z.inj_succ, Z.pow_succ_r in Hz by lia.
    destruct (Z_lt_ge_dec z (base + 2 ^ Z.of_nat k)).
    + apply (IH base); auto. lia.
    + apply (IH (base + 2 ^ Z.of_nat k)); auto. lia.
Qed.

Module utf8_facts.
Import utf8 utf8_checks.

Lemma checkRune_all : forall_below 16 0 checkRune = true.
Proof. vm_compute. reflexivity. Qed.

(** *** Bit operations as arithmetic *)

Ltac dlia := Z.div_mod_to_equations; lia.

Lemma byte_mod x : byte x = x mod 256.
Proof. unfold byte. change 0xFF with (Z.ones 8). now rewrite Z.land_ones. Qed.

Lemma land_maskx x : Z.land x maskx = x mod 64.
Proof. unfold maskx. change 0x3F with (Z.ones 6). now rewrite Z.land_ones. Qed.

Lemma land_mask4 x : Z.land x mask4 = x mod 8.
Proof. unfold mask4. change 0x07 with (Z.ones 3). now rewrite Z.land_ones. Qed.

Lemma lor_shiftl_add x y n :
  0 <= n -> 0 <= y < 2 ^ n -> Z.lor (Z.shiftl x n) y = x * 2 ^ n + y.
Proof.
  intros Hn Hy.
  assert (Hd : Z.land (Z.shiftl x n) y = 0).
  { apply Z.bits_inj'. intros i Hi. rewrite Z.land_spec, Z.bits_0.
    destruct (Z_lt_ge_dec i n).
    - rewrite Z.shiftl_spec_low by lia. reflexivity.
    - destruct (Z.eq_dec y 0) as [->|Hy0].
      + rewrite Z.bits_0. apply andb_false_r.
      + rewrite (Z.bits_above_log2 y i); [apply andb_false_r | lia |].
        apply Z.log2_lt_pow2; [lia|].
        apply Z.lt_le_trans with (2 ^ n); [lia|].
        apply Z.pow_le_mono_r; lia. }
  rewrite <- Z.lxor_lor, <- Z.add_nocarry_lxor by assumption.
  now rewrite Z.shiftl_mul_pow2.
Qed.

Lemma lor_add x y n :
  0 <= n -> 0 <= y < 2 ^ n -> x mod 2 ^ n = 0 -> Z.lor x y = x + y.
Proof.
  intros Hn Hy Hx.
  assert (Hp : 0 < 2 ^ n) by (apply Z.pow_pos_nonneg; lia).
  assert (E : x = Z.shiftl (x / 2 ^ n) n).
  { rewrite Z.shiftl_mul_pow2 by lia.
    pose proof (Z.div_mod x (2 ^ n)). lia. }
  rewrite E at 1. rewrite lor_shiftl_add by assumption.
  pose proof (Z.div_mod x (2 ^ n)). lia.
Qed.

Lemma tagFacts_all : forall_below 6 0 tagFacts = true.
Proof. vm_compute. reflexivity. Qed.

Lemma lor_tx m : 0 <= m < 64 -> Z.lor tx m = tx + m.
Proof.
  intros H. pose proof (forall_below_spec _ _ _ tagFacts_all m) as F.
  unfold tagFacts in F. destruct (Z.ltb_spec m 64); [|lia].
  apply andb_true_iff in F as [F _]; [|simpl; lia]. now apply Z.eqb_eq.
Qed.

Lemma lor_t4 m : 0 <= m < 8 -> Z.lor t4 m = t4 + m.
Proof.
  intros H. pose proof (forall_below_spec _ _ _ tagFacts_all m) as F.
  unfold tagFacts in F. destruct (Z.ltb_spec m 8); [|lia].
  apply andb_true_iff in F as [_ F]; [|simpl; lia]. now apply Z.eqb_eq.
Qed.

Lemma encode4_digits r :
  0x10000 <= r <= MaxRune ->
  encode4 r = [ t4 + r / 2 ^ 18; tx + (r / 2 ^ 12) mod 64;
                tx + (r / 2 ^ 6) mod 64; tx + r mod 64 ].
Proof.
  unfold MaxRune. intros H. unfold encode4.
  rewrite !land_maskx, !byte_mod, !Z.shiftr_div_pow2 by lia.
  change (2 ^ 18) with 262144; change (2 ^ 12) with 4096;
    change (2 ^ 6) with 64.
  rewrite lor_t4 by dlia. rewrite !lor_tx by dlia.
  repeat (apply (f_equal2 (@cons Z)); [dlia|]). reflexivity.
Qed.

(** *** Lengths and indices *)

Lemma len_nil {A} : lenof (@nil A) = 0.
Proof. reflexivity. Qed.

Lemma len_cons {A} (a : A) l : lenof (a :: l) = 1 + lenof l.
Proof. unfold lenof. cbn [length]. lia. Qed.

Lemma len_app {A} (p q : list A) : lenof (p ++ q) = lenof p + lenof q.
Proof. unfold lenof. rewrite length_app. lia. Qed.

Lemma len_nonneg {A} (p : list A) : 0 <= lenof p.
Proof. unfold lenof. lia. Qed.

Lemma idx_0 a l : idx (a :: l) 0 = a.
Proof. reflexivity. Qed.

Lemma idx_1 a b l : idx (a :: b :: l) 1 = b.
Proof. reflexivity. Qed.

Lemma idx_2 a b c l : idx (a :: b :: c :: l) 2 = c.
Proof. reflexivity. Qed.

Lemma idx_3 a b c d l : idx (a :: b :: c :: d :: l) 3 = d.
Proof. reflexivity. Qed.

Ltac list_norm :=
  cbn [app] in *;
  rewrite ?len_app, ?len_cons, ?len_nil, ?idx_0, ?idx_1, ?idx_2, ?idx_3 in *.

(** A decoding that consumed the whole of [p] did not look beyond it, so it
    is the decoding of every buffer that starts with [p]. *)
Lemma DecodeRune_app p rest r s :
  DecodeRune p = (r, s) -> s = lenof p -> 2 <= s \/ r <> RuneError ->
  DecodeRune (p ++ rest) = (r, s).
Proof.
  intros H Hs Hc. pose proof (len_nonneg rest) as Hr.
  unfold DecodeRune in *.
  destruct p as [|p0 p].
  { cbn in H. inversion H; subst. destruct Hc; [lia | congruence]. }
  destruct p as [|b1 [|b2 [|b3 [|b4 p']]]]; list_norm;
    try pose proof (len_nonneg p') as Hp';
    generalize dependent (first p0); intros x;
    generalize (Z.land x 7); intros sz;
    generalize (acceptRanges (Z.shiftr x 4)); intros acc H;
    repeat match type of H with
           | context [if ?c then _ else _] => destruct c eqn:?
           end;
    inversion H; subst; clear H;
    repeat match goal with
           | E : (_ <? _) = _ |- _ =>
               first [apply Z.ltb_lt in E | apply Z.ltb_ge in E]
           | E : (_ <=? _) = _ |- _ =>
               first [apply Z.leb_le in E | apply Z.leb_gt in E]
           end;
    try lia; try (destruct Hc; [lia | congruence]);
    repeat match goal with
           | |- context [?a <? ?b] =>
               destruct (Z.ltb_spec a b); try lia
           | |- context [?a <=? ?b] =>
               destruct (Z.leb_spec a b); try lia
           end; cbn [orb]; try reflexivity.
Qed.

(** *** The encoding of a valid code point *)

Lemma shapeOK_len e : shapeOK e = true -> 1 <= lenof e <= 4.
Proof.
  destruct e as [|b0 t]; [discriminate|]. cbn [shapeOK]. intros H.
  repeat (apply andb_true_iff in H as [H ?]).
  rewrite len_cons. pose proof (len_nonneg t). lia.
Qed.

Lemma encFacts_small r :
  0 <= r < 2 ^ 16 -> validRune r = true -> encFacts r.
Proof.
  intros Hr Hv.
  pose proof (forall_below_spec _ _ _ checkRune_all r Hr) as C.
  unfold checkRune in C. rewrite Hv in C.
  repeat (apply andb_true_iff in C as [C ?]).
  destruct (DecodeRune (encodeRune r)) as [r' size] eqn:D.
  match goal with H : (r' =? r) && _ = true |- _ =>
    apply andb_true_iff in H as [E1 E2] end.
  apply Z.eqb_eq in E1, E2. subst r' size.
  pose proof (shapeOK_len _ C) as L.
  split; auto.
  - now apply Z.eqb_eq.
  - intros rest. apply DecodeRune_app; auto.
    destruct (Z.eq_dec (lenof (encodeRune r)) 1) as [L1|]; [|left; lia].
    right. intros ->. revert L1. vm_compute. discriminate.
  - intros I. destruct (existsb (Z.eqb 0) (encodeRune r)) eqn:X.
    + now apply Z.eqb_eq.
    + rewrite <- not_true_iff_false, existsb_exists in X.
      exfalso. apply X. exists 0. split; auto.
  - intros I. destruct (existsb (Z.eqb 10) (encodeRune r)) eqn:X.
    + now apply Z.eqb_eq.
    + rewrite <- not_true_iff_false, existsb_exists in X.
      exfalso. apply X. exists 10. split; auto.
Qed.

Lemma combine4 a b c d :
  0 <= a -> 0 <= b < 64 -> 0 <= c < 64 -> 0 <= d < 64 ->
  Z.lor (Z.lor (Z.lor (Z.shiftl a 18) (Z.shiftl b 12)) (Z.shiftl c 6)) d
  = a * 2 ^ 18 + b * 2 ^ 12 + c * 2 ^ 6 + d.
Proof.
  intros Ha Hb Hc Hd. rewrite !Z.shiftl_mul_pow2 by lia.
  change (2 ^ 18) with 262144; change (2 ^ 12) with 4096;
    change (2 ^ 6) with 64.
  rewrite (lor_add (a * 262144) (b * 4096) 18);
    [|lia|change (2 ^ 18) with 262144; lia
     |change (2 ^ 18) with 262144; dlia].
  rewrite (lor_add _ (c * 64) 12);
    [|lia|change (2 ^ 12) with 4096; lia
     |change (2 ^ 12) with 4096; dlia].
  rewrite (lor_add _ d 6);
    [|lia|change (2 ^ 6) with 64; lia|change (2 ^ 6) with 64; dlia].
  reflexivity.
Qed.

Lemma DecodeRune_four p0 b1 b2 b3 rest :
  first p0 < as_ -> Z.land (first p0) 7 = 4 ->
  fst (acceptRanges (Z.shiftr (first p0) 4)) <= b1
    <= snd (acceptRanges (Z.shiftr (first p0) 4)) ->
  locb <= b2 <= hicb -> locb <= b3 <= hicb ->
  DecodeRune (p0 :: b1 :: b2 :: b3 :: rest)
  = (Z.lor (Z.lor (Z.lor (Z.shiftl (Z.land p0 mask4) 18)
                         (Z.shiftl (Z.land b1 maskx) 12))
                  (Z.shiftl (Z.land b2 maskx) 6))
           (Z.land b3 maskx), 4).
Proof.
  intros Hx Hsz H1 H2 H3. pose proof (len_nonneg rest).
  unfold DecodeRune. list_norm. rewrite Hsz.
  repeat match goal with
         | |- context [?a <? ?b] => destruct (Z.ltb_spec a b); try lia
         | |- context [?a <=? ?b] => destruct (Z.leb_spec a b); try lia
         end.
  reflexivity.
Qed.

Lemma byteFacts_all : forall_below 8 0 byteFacts = true.
Proof. vm_compute. reflexivity. Qed.

Lemma RuneStart_byte x : 0 <= x < 256 -> RuneStart x = negb (contByte x).
Proof.
  intros H. pose proof (forall_below_spec _ _ _ byteFacts_all x H) as F.
  now apply eqb_prop in F.
Qed.

Lemma contByte_tx m : 0 <= m < 64 -> contByte (tx + m) = true.
Proof.
  intros H. unfold contByte, tx. apply andb_true_iff.
  split; apply Z.leb_le; lia.
Qed.

Lemma encFacts_big r : 0x10000 <= r <= MaxRune -> encFacts r.
Proof.
  intros Hr. pose proof (encode4_digits r Hr) as E.
  unfold MaxRune in Hr.
  assert (Er : encodeRune r = encode4 r).
  { unfold encodeRune, uint32. change 0xFFFFFFFF with (Z.ones 32).
    rewrite Z.land_ones, Z.mod_small by lia.
    unfold rune1Max, rune2Max, rune3Max, MaxRune, surrogateMin, surrogateMax.
    repeat match goal with
           | |- context [?a <? ?b] => destruct (Z.ltb_spec a b); try lia
           | |- context [?a <=? ?b] => destruct (Z.leb_spec a b); try lia
           end; reflexivity. }
  rewrite E in Er. clear E.
  change (2 ^ 18) with 262144 in Er; change (2 ^ 12) with 4096 in Er;
    change (2 ^ 6) with 64 in Er.
  set (a := r / 262144) in *. set (b := (r / 4096) mod 64) in *.
  set (c := (r / 64) mod 64) in *. set (d := r mod 64) in *.
  assert (Ha : 0 <= a <= 4) by (subst a; dlia).
  assert (Hb : 0 <= b < 64) by (subst b; dlia).
  assert (Hc : 0 <= c < 64) by (subst c; dlia).
  assert (Hd : 0 <= d < 64) by (subst d; dlia).
  assert (Hab : (a = 0 -> 16 <= b) /\ (a = 4 -> b <= 15))
    by (subst a b; dlia).
  assert (Hsum : a * 2 ^ 18 + b * 2 ^ 12 + c * 2 ^ 6 + d = r).
  { change (2 ^ 18) with 262144; change (2 ^ 12) with 4096;
      change (2 ^ 6) with 64. subst a b c d. dlia. }
  assert (Hstart : RuneStart (t4 + a) = true).
  { rewrite RuneStart_byte by (unfold t4; lia).
    unfold contByte, t4. destruct (Z.leb_spec (240 + a) 191); [lia|].
    now rewrite andb_false_r. }
  split; rewrite Er.
  - cbn [shapeOK forallb]. rewrite Hstart.
    rewrite !RuneStart_byte by (unfold tx; lia).
    rewrite !contByte_tx by assumption.
    replace (0 <=? t4 + a) with true
      by (symmetry; apply Z.leb_le; unfold t4; lia).
    replace (t4 + a <? 256) with true
      by (symmetry; apply Z.ltb_lt; unfold t4; lia).
    reflexivity.
  - unfold RuneLen, rune1Max, rune2Max, rune3Max, MaxRune, surrogateMin,
      surrogateMax.
    repeat match goal with
           | |- context [?a <? ?b] => destruct (Z.ltb_spec a b); try lia
           | |- context [?a <=? ?b] => destruct (Z.leb_spec a b); try lia
           end; reflexivity.
  - intros rest. cbn [app].
    assert (Hf : first (t4 + a) = s5 /\ a = 0 \/
                 first (t4 + a) = s6 /\ 1 <= a <= 3 \/
                 first (t4 + a) = s7 /\ a = 4).
    { assert (Hcase : a = 0 \/ a = 1 \/ a = 2 \/ a = 3 \/ a = 4) by lia.
      destruct Hcase as [->|[->|[->|[->| ->]]]];
        [left|right; left|right; left|right; left|right; right];
        (split; [reflexivity | lia]). }
    rewrite DecodeRune_four.
    + rewrite land_mask4, !land_maskx.
      replace ((t4 + a) mod 8) with a by (unfold t4; dlia).
      replace ((tx + b) mod 64) with b by (unfold tx; dlia).
      replace ((tx + c) mod 64) with c by (unfold tx; dlia).
      replace ((tx + d) mod 64) with d by (unfold tx; dlia).
      rewrite combine4, Hsum by lia. reflexivity.
    + destruct Hf as [[-> _]|[[-> _]|[-> _]]]; reflexivity.
    + destruct Hf as [[-> _]|[[-> _]|[-> _]]]; reflexivity.
    + destruct Hab as [A0 A4].
      destruct Hf as [[-> ?]|[[-> ?]|[-> ?]]].
      * change (acceptRanges (Z.shiftr s5 4)) with (0x90, 0xBF).
        cbn [fst snd]. unfold tx. lia.
      * change (acceptRanges (Z.shiftr s6 4)) with (0x80, 0xBF).
        cbn [fst snd]. unfold tx. lia.
      * change (acceptRanges (Z.shiftr s7 4)) with (0x80, 0x8F).
        cbn [fst snd]. unfold tx. lia.
    + unfold locb, hicb, tx. lia.
    + unfold locb, hicb, tx. lia.
  - intros I. unfold t4, tx in I. cbn [In] in I. lia.
  - intros I. unfold t4, tx in I. cbn [In] in I. lia.
Qed.

Lemma validRune_range r :
  validRune r = true ->
  0 <= r <= MaxRune /\ ~ (surrogateMin <= r <= surrogateMax).
Proof.
  unfold validRune. intros H.
  apply andb_true_iff in H as [H H3]. apply andb_true_iff in H as [H1 H2].
  apply Z.leb_le in H1, H2. apply negb_true_iff in H3.
  split; [lia|]. intros [A B]. apply Z.leb_le in A, B.
  now rewrite A, B in H3.
Qed.

Lemma encFacts_valid r : validRune r = true -> encFacts r.
Proof.
  intros Hv. pose proof (validRune_range r Hv) as [Hr _].
  destruct (Z_lt_ge_dec r 0x10000).
  - apply encFacts_small; auto. change (2 ^ 16) with 0x10000. lia.
  - apply encFacts_big. lia.
Qed.

(** *** The encoding of an arbitrary rune *)

Lemma validRune_is_rune r : validRune r = true -> is_rune r.
Proof.
  intros H. apply validRune_range in H as [H _].
  unfold MaxRune in H. unfold is_rune. lia.
Qed.

Lemma norm_valid r : validRune (norm r) = true.
Proof. unfold norm. destruct (validRune r) eqn:E; [exact E | reflexivity]. Qed.

Lemma norm_of_valid r : validRune r = true -> norm r = r.
Proof. unfold norm. now intros ->. Qed.

Lemma norm_idem r : norm (norm r) = norm r.
Proof. apply norm_of_valid, norm_valid. Qed.

Lemma encodeRune_norm r : is_rune r -> encodeRune r = encodeRune (norm r).
Proof.
  intros Hr. unfold norm. destruct (validRune r) eqn:V; [reflexivity|].
  change (encodeRune RuneError) with (encode3 RuneError).
  unfold is_rune in Hr. unfold validRune in V.
  unfold encodeRune, uint32. change 0xFFFFFFFF with (Z.ones 32).
  rewrite Z.land_ones by lia.
  unfold rune1Max, rune2Max, rune3Max, MaxRune, surrogateMin, surrogateMax
    in *.
  change (2 ^ 31) with 2147483648 in Hr.
  change (2 ^ 32) with 4294967296.
  destruct (Z_lt_ge_dec r 0).
  - replace (r mod 4294967296) with (r + 4294967296) by dlia.
    repeat match goal with
           | |- context [?a <? ?b] => destruct (Z.ltb_spec a b); try lia
           | |- context [?a <=? ?b] => destruct (Z.leb_spec a b); try lia
           end; reflexivity.
  - rewrite Z.mod_small by lia.
    repeat match type of V with
           | context [?a <? ?b] => destruct (Z.ltb_spec a b); try lia
           | context [?a <=? ?b] => destruct (Z.leb_spec a b); try lia
           end; cbn in V; try discriminate;
    repeat match goal with
           | |- context [?a <? ?b] => destruct (Z.ltb_spec a b); try lia
           | |- context [?a <=? ?b] => destruct (Z.leb_spec a b); try lia
           end; reflexivity.
Qed.

Lemma norm_zero r : is_rune r -> norm r = 0 -> r = 0.
Proof.
  unfold norm. destruct (validRune r); [auto|]. intros _ H. discriminate H.
Qed.

Lemma norm_nl r : norm r = 10 -> r = 10.
Proof.
  unfold norm. destruct (validRune r); [auto|]. intros H. discriminate H.
Qed.

Lemma encodeRune_shape r : is_rune r -> shapeOK (encodeRune r) = true.
Proof.
  intros H. rewrite encodeRune_norm by assumption.
  apply encFacts_valid, norm_valid.
Qed.

Lemma encodeRune_len r : is_rune r -> 1 <= lenof (encodeRune r) <= 4.
Proof. intros H. now apply shapeOK_len, encodeRune_shape. Qed.

Lemma encodeRune_RuneLen r :
  validRune r = true -> RuneLen r = lenof (encodeRune r).
Proof. intros H. symmetry. now apply encFacts_valid. Qed.

Lemma DecodeRune_encode r rest :
  is_rune r ->
  DecodeRune (encodeRune r ++ rest) = (norm r, lenof (encodeRune r)).
Proof.
  intros H. rewrite encodeRune_norm by assumption.
  apply encFacts_valid, norm_valid.
Qed.

Lemma encodeRune_zero r : is_rune r -> In 0 (encodeRune r) -> r = 0.
Proof.
  intros H I. rewrite encodeRune_norm in I by assumption.
  apply norm_zero; [assumption|].
  now apply (ef_zero _ (encFacts_valid _ (norm_valid r))).
Qed.

Lemma encodeRune_nl r : is_rune r -> In 10 (encodeRune r) -> r = 10.
Proof.
  intros H I. rewrite encodeRune_norm in I by assumption.
  apply norm_nl.
  now apply (ef_nl _ (encFacts_valid _ (norm_valid r))).
Qed.

Lemma encodeRune_of_nl : encodeRune 10 = [10].
Proof. reflexivity. Qed.

(** *** Slices of rune sequences *)

Lemma encodeRunes_app rs1 rs2 :
  encodeRunes (rs1 ++ rs2) = encodeRunes rs1 ++ encodeRunes rs2.
Proof.
  induction rs1 as [|r rs1 IH]; cbn [encodeRunes app]; [reflexivity|].
  now rewrite IH, app_assoc.
Qed.

Lemma encodeRunes_norm rs :
  Forall is_rune rs -> encodeRunes (map norm rs) = encodeRunes rs.
Proof.
  induction 1 as [|r rs Hr _ IH]; cbn [encodeRunes map]; [reflexivity|].
  now rewrite IH, <- encodeRune_norm.
Qed.

Lemma decodeFrom_skip t rest :
  decodeFrom (length t) (t ++ rest) = decodeFrom 0 rest.
Proof.
  induction t as [|b t IH]; [reflexivity|]. cbn [length app decodeFrom].
  exact IH.
Qed.

Lemma decodeRunes_cons r rest :
  is_rune r ->
  decodeRunes (encodeRune r ++ rest) = norm r :: decodeRunes rest.
Proof.
  intros Hr. unfold decodeRunes.
  pose proof (DecodeRune_encode r rest Hr) as D.
  pose proof (encodeRune_len r Hr) as L.
  destruct (encodeRune r) as [|b0 t] eqn:E; [cbn in L; lia|].
  cbn [app decodeFrom]. cbn [app] in D. rewrite D.
  f_equal. rewrite len_cons. unfold lenof.
  replace (Z.to_nat (1 + Z.of_nat (length t)) - 1)%nat with (length t)
    by lia.
  apply decodeFrom_skip.
Qed.

Lemma decodeRunes_encode rs rest :
  Forall is_rune rs ->
  decodeRunes (encodeRunes rs ++ rest) = map norm rs ++ decodeRunes rest.
Proof.
  induction 1 as [|r rs Hr _ IH]; cbn [encodeRunes map app]; [reflexivity|].
  rewrite <- app_assoc, decodeRunes_cons by assumption. now rewrite IH.
Qed.

Lemma decodeRunes_encodeRunes rs :
  Forall is_rune rs -> decodeRunes (encodeRunes rs) = map norm rs.
Proof.
  intros H. rewrite <- (app_nil_r (encodeRunes rs)).
  rewrite decodeRunes_encode by assumption. cbn. apply app_nil_r.
Qed.

Lemma Forall_valid_is_rune rs :
  forallb validRune rs = true -> Forall is_rune rs.
Proof.
  rewrite forallb_forall, Forall_forall. intros H r I.
  apply validRune_is_rune; auto.
Qed.

Lemma map_norm_valid rs : forallb validRune rs = true -> map norm rs = rs.
Proof.
  induction rs as [|r rs IH]; cbn [forallb map]; [reflexivity|].
  intros H. apply andb_true_iff in H as [H1 H2].
  now rewrite IH, norm_of_valid.
Qed.

Lemma forallb_valid_norm rs : forallb validRune (map norm rs) = true.
Proof.
  induction rs as [|r rs IH]; cbn [forallb map]; [reflexivity|].
  now rewrite norm_valid, IH.
Qed.

(** A well-formed buffer is the encoding of the valid code points it decodes
    to, and conversely. *)
Lemma wellFormed_spec p :
  wellFormed p = true <->
  forallb validRune (decodeRunes p) = true /\
  encodeRunes (decodeRunes p) = p.
Proof.
  unfold wellFormed. rewrite andb_true_iff.
  destruct (list_eq_dec Z.eq_dec (encodeRunes (decodeRunes p)) p);
    intuition congruence.
Qed.

Lemma wellFormed_encodeRunes rs :
  Forall is_rune rs -> wellFormed (encodeRunes rs) = true.
Proof.
  intros H. apply wellFormed_spec.
  rewrite decodeRunes_encodeRunes by assumption.
  split; [apply forallb_valid_norm | now apply encodeRunes_norm].
Qed.

End utf8_facts.
(** ** Operations without an open post, images and closing *)

Module post_claims.
Import utf8 websockets memstore.

Section Generic.
Context {DB Command Image : Type}.
Variable E : Env DB Command Image.

Lemma hasPost_closed c :
  id (post c) = 0 -> hasPost c = (false, Some errNoPostOpen).
Proof. unfold hasPost. now intros ->. Qed.

Lemma hasPost_open c : id (post c) <> 0 -> hasPost c = (true, None).
Proof.
  unfold hasPost. intros H. destruct (Z.eqb_spec (id (post c)) 0); easy.
Qed.

End Generic.

(** C1, as amended. A client without an open post ([c.post.id == 0]) gets
    the error "no post open" from each of the six operations, and its open
    post, the feed and the store are left as they were. [appendRune],
    [backspace], [spliceText] and [closePost] change nothing at all;
    [insertImage] and [spoilerImage] have added [CharScore] to the spam
    score before they look for the post. *)
Theorem no_post_open {DB Command Image} (E : Env DB Command Image)
  (c : Client) (w : World DB Image) :
  id (post c) = 0 ->
  (forall data, appendRune E data c w = Ret (Some errNoPostOpen) c w)
  /\ backspace E c w = Ret (Some errNoPostOpen) c w
  /\ (forall data, spliceText E data c w = Ret (Some errNoPostOpen) c w)
  /\ closePost E c w = Ret (Some errNoPostOpen) c w
  /\ (forall data,
        insertImage E data c w
        = Ret (Some errNoPostOpen) c (incrementSpamScore (CharScore E) c w))
  /\ spoilerImage E c w
     = Ret (Some errNoPostOpen) c (incrementSpamScore (CharScore E) c w).
Proof.
  intros H. pose proof (hasPost_closed c H) as HP.
  repeat split; intros;
    unfold appendRune, backspace, spliceText, closePost, insertImage,
      spoilerImage;
    rewrite ?HP, ?H; reflexivity.
Qed.

Lemma no_post_open_witness :
  id (post (clientOf emptyPost)) = 0
  /\ backspace memEnv (clientOf emptyPost) world0
     = Ret (Some errNoPostOpen) (clientOf emptyPost) world0.
Proof.
  split; [reflexivity|].
  apply (no_post_open memEnv (clientOf emptyPost) world0). reflexivity.
Defined.

(** C1, as stated, fails for [insertImage]: without an open post it returns
    "no post open", yet the spam score has gone from 0 to [CharScore]. *)
Lemma no_post_open_insertImage_scores :
  id (post (clientOf emptyPost)) = 0
  /\ exists w',
       insertImage memEnv (inl (errNew "bad JSON")) (clientOf emptyPost)
                   world0
       = Ret (Some errNoPostOpen) (clientOf emptyPost) w'
       /\ spamScore world0 = 0 /\ spamScore w' = 170 /\ w' <> world0.
Proof.
  split; [reflexivity|]. eexists. split; [reflexivity|].
  repeat split. discriminate.
Qed.

(** C8, as amended. Every call of [insertImage], whatever it returns, adds
    exactly [CharScore] to the spam score; [ImageScore] is never added. *)
Theorem insertImage_spam_score {DB Command Image}
  (E : Env DB Command Image) data (c : Client) (w : World DB Image) :
  exists err c' w',
    insertImage E data c w = Ret err c' w'
    /\ spamScore w' = spamScore w + CharScore E.
Proof.
  unfold insertImage, hasImage.
  destruct (hasPost c) as [has [e|]]; [repeat eexists|].
  destruct has; cbn [negb]; [|repeat eexists].
  cbn [store incrementSpamScore IncrementSpamScore].
  destruct (HasImage E (id (post c)) (store w)) as [hi [e|]];
    [repeat eexists|].
  destruct hi; cbn [negb]; [repeat eexists|].
  destruct data as [e|req]; [repeat eexists|].
  cbn [post setPost setSpoilered board id].
  destruct (TextOnly E (board (post c))); [repeat eexists|].
  destruct (InsertImage E _ _ _ _ _) as [[msg [e|]] d]; repeat eexists.
Qed.

(** C8, as stated, fails: a successful [insertImage] leaves the spam score
    at 170, from 0. *)
Lemma insertImage_changes_spam_score :
  exists c' w',
    insertImage memEnv
      (inr {| Spoiler := false; Token := "t"; Name := "a.png" |})
      (clientOf (postOf "hi")) world0
    = Ret None c' w'
    /\ spamScore world0 = 0 /\ spamScore w' = 170.
Proof. do 2 eexists. split; [reflexivity|]. split; reflexivity. Qed.

(** C7, as amended. When the store says that the open post already has an
    image, [insertImage] does nothing and returns no error (the case is put
    down to network latency): client, feed and store stay as they were,
    only [CharScore] has been added to the spam score. The answer is the
    store's, not the client's. *)
Theorem insertImage_has_image {DB Command Image}
  (E : Env DB Command Image) data (c : Client) (w : World DB Image) :
  id (post c) <> 0 ->
  HasImage E (id (post c)) (store w) = (true, None) ->
  insertImage E data c w
  = Ret None c (incrementSpamScore (CharScore E) c w).
Proof.
  intros Hid Hhas. unfold insertImage, hasImage.
  rewrite (hasPost_open c Hid).
  cbn [negb store incrementSpamScore IncrementSpamScore].
  rewrite Hhas. reflexivity.
Qed.

Lemma insertImage_has_image_witness :
  insertImage memEnv
    (inr {| Spoiler := false; Token := "t"; Name := "a.png" |})
    (clientOf (postOf "hi")) worldWithImage
  = Ret None (clientOf (postOf "hi"))
        (incrementSpamScore (CharScore memEnv) (clientOf (postOf "hi"))
           worldWithImage).
Proof.
  apply (insertImage_has_image memEnv); [discriminate | reflexivity].
Defined.

(** C7, as stated, fails: the store has an image for the post and
    [insertImage] returns [nil], not [errHasImage]. *)
Lemma insertImage_no_has_image_error :
  HasImage memEnv 101 (store worldWithImage) = (true, None)
  /\ exists c' w',
       insertImage memEnv
         (inr {| Spoiler := false; Token := "t"; Name := "a.png" |})
         (clientOf (postOf "hi")) worldWithImage
       = Ret None c' w'
       /\ Ret None c' w' <> Ret (Some errHasImage) c' w'.
Proof.
  split; [reflexivity|]. do 2 eexists. split; [reflexivity|]. discriminate.
Qed.

(** C10, as amended. When [hasImage] learns from the store that the open
    post has no image, it resets [isSpoilered]; an image inserted then
    starts with the spoiler flag of its request, whatever the flag of the
    removed image was; and when the request did not ask for a spoiler, a
    following [spoilerImage] that finds the image in the store does spoiler
    it: it calls [db.SpoilerImage] and, unless that fails, sends
    [MessageSpoiler] to the feed. *)
Theorem hasImage_allows_respoilering {DB Command Image}
  (E : Env DB Command Image) (c : Client) (w : World DB Image) :
  id (post c) <> 0 ->
  HasImage E (id (post c)) (store w) = (false, None) ->
  hasImage E c w = (false, None, setPost c (setSpoilered (post c) false))
  /\ forall req c1 w1,
       insertImage E (inr req) c w = Ret None c1 w1 ->
       isSpoilered (post c1) = Spoiler req
       /\ (Spoiler req = false ->
           HasImage E (id (post c1)) (store w1) = (true, None) ->
           spoilerImage E c1 w1
           = let w2 := incrementSpamScore (CharScore E) c1 w1 in
             let '(err, d) :=
               SpoilerImage E (id (post c1)) (op (post c1)) (store w2) in
             match err with
             | Some e => Ret (Some e) c1 (setStore w2 d)
             | None =>
                 Ret None c1
                   (feedCall (setStore w2 d)
                      (FeedSpoilerImage (id (post c1))
                         (MessageSpoiler (id (post c1)))))
             end).
Proof.
  intros Hid Hno.
  assert (HI : forall w0, store w0 = store w ->
            hasImage E c w0
            = (false, None, setPost c (setSpoilered (post c) false))).
  { intros w0 Hs. unfold hasImage. rewrite Hs, Hno. reflexivity. }
  split; [now apply HI|].
  intros req c1 w1. unfold insertImage.
  rewrite (hasPost_open c Hid). cbn [negb].
  rewrite HI by reflexivity.
  cbn [post setPost setSpoilered board id store incrementSpamScore
       IncrementSpamScore].
  destruct (TextOnly E (board (post c))); [discriminate|].
  destruct (InsertImage E _ _ _ _ _) as [[msg [e|]] d]; [discriminate|].
  intros H. injection H as <- <-.
  cbn [post setPost setSpoilered isSpoilered id op].
  split; [reflexivity|].
  intros Hsp Hhas. unfold spoilerImage, hasImage.
  rewrite hasPost_open by exact Hid.
  cbn [negb post setPost setSpoilered isSpoilered id op store
       incrementSpamScore IncrementSpamScore feedCall setStore] in *.
  rewrite Hhas, Hsp. cbn [negb].
  destruct (SpoilerImage E _ _ _) as [[e|] d']; reflexivity.
Qed.

Lemma hasImage_allows_respoilering_witness :
  hasImage memEnv (clientOf postAfterSteal) world0
  = (false, None,
     setPost (clientOf postAfterSteal) (setSpoilered postAfterSteal false)).
Proof.
  apply (hasImage_allows_respoilering memEnv (clientOf postAfterSteal)
           world0); [discriminate | reflexivity].
Defined.

(** C10, as stated, fails when the new image is inserted with the spoiler
    flag: it starts spoilered, and the following [spoilerImage] returns
    through the branch of the already spoilered image, with nothing sent to
    the feed and nothing written to the store. *)
Lemma respoiler_after_spoilered_insert :
  HasImage memEnv 101 (store world0) = (false, None)
  /\ exists c1 w1,
       insertImage memEnv
         (inr {| Spoiler := true; Token := "t"; Name := "a.png" |})
         (clientOf postAfterSteal) world0
       = Ret None c1 w1
       /\ isSpoilered (post c1) = true
       /\ HasImage memEnv 101 (store w1) = (true, None)
       /\ spoilerImage memEnv c1 w1
          = Ret None c1 (incrementSpamScore (CharScore memEnv) c1 w1).
Proof.
  split; [reflexivity|]. do 2 eexists.
  split; [reflexivity|]. repeat split.
Qed.




End post_claims.
(** ** Buffers of runes *)

Module buffer_facts.
Import utf8 utf8_checks utf8_facts.

Ltac len_lia := unfold lenof in *; cbn [length] in *; lia.

Lemma idx_app_r p e k :
  0 <= k -> idx (p ++ e) (lenof p + k) = idx e k.
Proof.
  intros Hk. unfold idx, lenof.
  rewrite app_nth2 by lia. f_equal. lia.
Qed.

Lemma slice_app_r p e : slice (p ++ e) (lenof p) (lenof p + lenof e) = e.
Proof.
  unfold slice, lenof. rewrite Nat2Z.id, skipn_app, skipn_all, Nat.sub_diag.
  cbn [app skipn].
  replace (Z.to_nat (Z.of_nat (length p) + Z.of_nat (length e)
                     - Z.of_nat (length p))) with (length e) by lia.
  apply firstn_all.
Qed.

Lemma slice_app_l p e : slice (p ++ e) 0 (lenof p) = p.
Proof.
  unfold slice, lenof. cbn [Z.to_nat skipn]. rewrite Z.sub_0_r, Nat2Z.id.
  rewrite firstn_app, firstn_all, Nat.sub_diag. cbn [firstn].
  apply app_nil_r.
Qed.

Lemma DecodeRune_ascii b rest :
  0 <= b < RuneSelf -> DecodeRune (b :: rest) = (b, 1).
Proof.
  unfold RuneSelf. intros H. pose proof (len_nonneg rest).
  unfold DecodeRune. list_norm.
  destruct (Z.ltb_spec (1 + lenof rest) 1); [lia|].
  unfold first. destruct (Z.ltb_spec b 0x80); [|lia]. reflexivity.
Qed.

Lemma scanStart_hit q lim s fuel :
  lim <= s -> RuneStart (idx q s) = true ->
  scanStart q lim s (S fuel) = s.
Proof.
  intros Hl Hs. cbn [scanStart].
  destruct (Z.ltb_spec s lim); [lia|]. now rewrite Hs.
Qed.

Lemma scanStart_skip q lim s fuel :
  lim <= s -> RuneStart (idx q s) = false ->
  scanStart q lim s (S fuel) = scanStart q lim (s - 1) fuel.
Proof.
  intros Hl Hs. cbn [scanStart].
  destruct (Z.ltb_spec s lim); [lia|]. now rewrite Hs.
Qed.

(** The last rune of a buffer that ends with the encoding of [r]. *)
Lemma DecodeLastRune_encode p r :
  is_rune r ->
  DecodeLastRune (p ++ encodeRune r) = (norm r, lenof (encodeRune r)).
Proof.
  intros Hr.
  pose proof (encodeRune_shape r Hr) as S.
  pose proof (DecodeRune_encode r [] Hr) as D. rewrite app_nil_r in D.
  pose proof (len_nonneg p) as Lp.
  destruct (encodeRune r) as [|b0 t] eqn:Ee; [discriminate|].
  cbn [shapeOK] in S.
  repeat (apply andb_true_iff in S as [S ?]).
  repeat match goal with
         | H : (_ <=? _) = true |- _ => apply Z.leb_le in H
         | H : (_ <? _) = true |- _ => apply Z.ltb_lt in H
         end.
  unfold DecodeLastRune. rewrite len_app.
  destruct t as [|b1 t].
  - (* a single byte *)
    list_norm.
    match goal with H : negb _ || _ = true |- _ =>
      cbn in H; apply Z.ltb_lt in H; rename H into Hb end.
    destruct (Z.eqb_spec (lenof p + (1 + 0)) 0); [lia|].
    replace (lenof p + (1 + 0) - 1) with (lenof p + 0) by lia.
    rewrite idx_app_r, idx_0 by lia.
    destruct (Z.ltb_spec b0 RuneSelf); [|lia].
    rewrite DecodeRune_ascii in D by lia. now inversion D.
  - (* several bytes: the last one is a continuation byte *)
    assert (HL : 2 <= lenof (b0 :: b1 :: t) <= 4).
    { list_norm. pose proof (len_nonneg t). lia. }
    set (e := b0 :: b1 :: t) in *.
    destruct (Z.eqb_spec (lenof p + lenof e) 0); [lia|].
    assert (Hlast : RuneSelf <= idx (p ++ e) (lenof p + lenof e - 1)).
    { replace (lenof p + lenof e - 1) with (lenof p + (lenof e - 1)) by lia.
      rewrite idx_app_r by lia. subst e.
      match goal with H : forallb contByte _ = true |- _ =>
        rename H into Hc end.
      destruct t as [|b2 [|b3 [|b4 t]]]; list_norm;
        cbn [forallb] in Hc;
        repeat (apply andb_true_iff in Hc as [? Hc]);
        unfold contByte in *;
        repeat match goal with
               | H : _ && _ = true |- _ => apply andb_true_iff in H as [? ?]
               | H : (_ <=? _) = true |- _ => apply Z.leb_le in H
               end.
      + unfold RuneSelf; lia.
      + unfold RuneSelf; lia.
      + unfold RuneSelf; lia.
      + pose proof (len_nonneg t). lia. }
    destruct (Z.ltb_spec (idx (p ++ e) (lenof p + lenof e - 1)) RuneSelf);
      [lia|].
    assert (Hscan :
      scanStart (p ++ e) (Z.max 0 (lenof p + lenof e - UTFMax))
                (lenof p + lenof e - 1 - 1) (Z.to_nat UTFMax) = lenof p).
    { match goal with H : forallb (fun b => negb (RuneStart b)) _ = true |- _
        => rename H into Hn end.
      match goal with H : RuneStart b0 = true |- _ => rename H into Hs end.
      change (Z.to_nat UTFMax) with 4%nat.
      assert (Hlim : Z.max 0 (lenof p + lenof e - UTFMax) <= lenof p)
        by (unfold UTFMax; lia).
      revert Hlim. generalize (Z.max 0 (lenof p + lenof e - UTFMax)).
      intros lim Hlim.
      assert (H0e : idx (p ++ e) (lenof p + 0) = b0)
        by (rewrite idx_app_r by lia; reflexivity).
      destruct t as [|b2 [|b3 [|b4 t]]]; cbn [forallb] in Hn;
        repeat (apply andb_true_iff in Hn as [? Hn]);
        repeat match goal with
               | H : negb _ = true |- _ => apply negb_true_iff in H
               end.
      + replace (lenof p + lenof e - 1 - 1) with (lenof p + 0)
          by (subst e; len_lia).
        rewrite scanStart_hit; [lia | lia | now rewrite H0e].
      + assert (H1e : idx (p ++ e) (lenof p + 1) = b1)
          by (rewrite idx_app_r by lia; reflexivity).
        replace (lenof p + lenof e - 1 - 1) with (lenof p + 1)
          by (subst e; len_lia).
        rewrite scanStart_skip; [|lia|now rewrite H1e].
        replace (lenof p + 1 - 1) with (lenof p + 0) by lia.
        rewrite scanStart_hit; [lia | lia | now rewrite H0e].
      + assert (H1e : idx (p ++ e) (lenof p + 1) = b1)
          by (rewrite idx_app_r by lia; reflexivity).
        assert (H2e : idx (p ++ e) (lenof p + 2) = b2)
          by (rewrite idx_app_r by lia; reflexivity).
        replace (lenof p + lenof e - 1 - 1) with (lenof p + 2)
          by (subst e; len_lia).
        rewrite scanStart_skip; [|lia|now rewrite H2e].
        replace (lenof p + 2 - 1) with (lenof p + 1) by lia.
        rewrite scanStart_skip; [|lia|now rewrite H1e].
        replace (lenof p + 1 - 1) with (lenof p + 0) by lia.
        rewrite scanStart_hit; [lia | lia | now rewrite H0e].
      + subst e. len_lia. }
    rewrite Hscan. rewrite Z.max_r by lia.
    rewrite slice_app_r, D.
    destruct (Z.eqb_spec (lenof p + lenof e) (lenof p + lenof e));
      [reflexivity | lia].
Qed.

End buffer_facts.
(** ** The text of an open post as a sequence of runes *)

Module text_facts.
Import utf8 utf8_checks utf8_facts buffer_facts websockets.

Lemma int_id z : - 2 ^ 63 <= z < 2 ^ 63 -> int z = z.
Proof.
  intros H. unfold int. rewrite Z.mod_small; lia.
Qed.

Lemma uint_id z : 0 <= z < 2 ^ 64 -> uint z = z.
Proof. intros H. unfold uint. now apply Z.mod_small. Qed.

Lemma in_firstn {A} n (l : list A) x : In x (firstn n l) -> In x l.
Proof.
  revert l. induction n as [|n IH]; intros [|a l]; cbn; try tauto.
  intros [->|H]; auto.
Qed.

Lemma in_skipn {A} n (l : list A) x : In x (skipn n l) -> In x l.
Proof.
  revert l. induction n as [|n IH]; intros [|a l]; cbn; try tauto.
  intros H. right. now apply IH.
Qed.

Lemma Forall_firstn_ {A} (P : A -> Prop) n l :
  Forall P l -> Forall P (firstn n l).
Proof.
  rewrite !Forall_forall. intros H x I. apply H. eapply in_firstn; eauto.
Qed.

Lemma Forall_skipn_ {A} (P : A -> Prop) n l :
  Forall P l -> Forall P (skipn n l).
Proof.
  rewrite !Forall_forall. intros H x I. apply H. eapply in_skipn; eauto.
Qed.

Lemma len_firstn {A} n (l : list A) :
  0 <= n <= lenof l -> lenof (firstn (Z.to_nat n) l) = n.
Proof. intros H. unfold lenof in *. rewrite length_firstn. lia. Qed.

Lemma len_skipn {A} n (l : list A) :
  0 <= n <= lenof l -> lenof (skipn (Z.to_nat n) l) = lenof l - n.
Proof. intros H. unfold lenof in *. rewrite length_skipn. lia. Qed.

Lemma len_map {A B} (f : A -> B) l : lenof (map f l) = lenof l.
Proof. unfold lenof. now rewrite length_map. Qed.

(** *** Newlines and NUL in an encoding *)

Lemma filter_none {A} (f : A -> bool) l :
  (forall x, In x l -> f x = false) -> filter f l = [].
Proof.
  induction l as [|a l IH]; cbn; [reflexivity|]. intros H.
  rewrite (H a) by auto. apply IH. auto.
Qed.

Lemma newlines_encodeRune r :
  is_rune r ->
  filter (Z.eqb 10) (encodeRune r) = if r =? 10 then [10] else [].
Proof.
  intros Hr. destruct (Z.eqb_spec r 10) as [->|Hn]; [reflexivity|].
  apply filter_none. intros x I. destruct (Z.eqb_spec 10 x) as [<-|];
    [|reflexivity].
  exfalso. apply Hn. now apply encodeRune_nl.
Qed.

Lemma newlines_encodeRunes rs :
  Forall is_rune rs ->
  lenof (filter (Z.eqb 10) (encodeRunes rs))
  = lenof (filter (Z.eqb 10) rs).
Proof.
  induction 1 as [|r rs Hr _ IH]; [reflexivity|].
  cbn [encodeRunes filter]. rewrite filter_app, len_app, IH.
  rewrite newlines_encodeRune by assumption.
  rewrite (Z.eqb_sym 10 r). destruct (r =? 10); list_norm; lia.
Qed.

Lemma nul_encodeRunes rs :
  Forall is_rune rs -> In 0 (encodeRunes rs) -> In 0 rs.
Proof.
  induction 1 as [|r rs Hr _ IH]; cbn [encodeRunes]; [tauto|].
  rewrite in_app_iff. intros [I|I].
  - left. now apply encodeRune_zero.
  - right. auto.
Qed.

Lemma nul_in_encodeRunes rs : In 0 rs -> In 0 (encodeRunes rs).
Proof.
  induction rs as [|r rs IH]; cbn [encodeRunes In]; [tauto|].
  rewrite in_app_iff. intros [->|I]; [left; now left | right; auto].
Qed.

Lemma newlines_norm rs :
  filter (Z.eqb 10) (map norm rs) = filter (Z.eqb 10) rs.
Proof.
  induction rs as [|r rs IH]; [reflexivity|]. cbn [map filter].
  rewrite IH. unfold norm.
  destruct (validRune r) eqn:V; [reflexivity|].
  change (10 =? RuneError) with false.
  destruct (Z.eqb_spec 10 r) as [<-|]; [|reflexivity].
  vm_compute in V. discriminate V.
Qed.

(** *** Lengths in bytes *)

Lemma len_encodeRunes_bound rs :
  Forall is_rune rs -> 0 <= lenof (encodeRunes rs) <= 4 * lenof rs.
Proof.
  induction 1 as [|r rs Hr _ IH]; [cbn; lia|].
  cbn [encodeRunes]. rewrite len_app, len_cons.
  pose proof (encodeRune_len r Hr). lia.
Qed.

Lemma byteStart_from rs : forall acc,
  forallb validRune rs = true ->
  0 <= acc -> acc + 4 * lenof rs < 2 ^ 63 ->
  fold_left (fun pos r => int (pos + RuneLen r)) rs acc
  = acc + lenof (encodeRunes rs).
Proof.
  induction rs as [|r rs IH]; intros acc V Ha Hb.
  - cbn. lia.
  - cbn [forallb] in V. apply andb_true_iff in V as [Vr V].
    cbn [fold_left encodeRunes]. rewrite len_app.
    rewrite len_cons in Hb.
    pose proof (encodeRune_len r (validRune_is_rune r Vr)) as L.
    pose proof (len_nonneg rs).
    rewrite encodeRune_RuneLen by assumption.
    rewrite int_id by lia. rewrite IH by (auto; lia). lia.
Qed.

Lemma byteStart_encode rs :
  forallb validRune rs = true -> 4 * lenof rs < 2 ^ 63 ->
  byteStart rs = lenof (encodeRunes rs).
Proof.
  intros V H. unfold byteStart. rewrite byteStart_from; auto; lia.
Qed.

Lemma firstn_encodeRunes rs1 rs2 :
  firstn (Z.to_nat (lenof (encodeRunes rs1))) (encodeRunes rs1 ++ rs2)
  = encodeRunes rs1.
Proof.
  unfold lenof. rewrite Nat2Z.id, firstn_app, firstn_all, Nat.sub_diag.
  cbn [firstn]. apply app_nil_r.
Qed.

(** *** The runes of a well-formed text *)

Lemma repr_decode p rs : repr p rs -> decodeRunes (body p) = rs.
Proof.
  intros (V & B & _ & _). rewrite B.
  rewrite decodeRunes_encodeRunes by now apply Forall_valid_is_rune.
  now apply map_norm_valid.
Qed.

Lemma textOK_repr p : textOK p -> repr p (decodeRunes (body p)).
Proof.
  intros (W & L & N). apply wellFormed_spec in W as [V B].
  repeat split; auto.
  intros I. apply N. rewrite <- B. now apply nul_in_encodeRunes.
Qed.

Lemma repr_textOK p rs : repr p rs -> textOK p.
Proof.
  intros R. pose proof (repr_decode _ _ R) as D.
  destruct R as (V & B & L & N).
  pose proof (Forall_valid_is_rune _ V) as F.
  repeat split.
  - rewrite B. now apply wellFormed_encodeRunes.
  - now rewrite D.
  - rewrite B. intros I. apply N. now apply nul_encodeRunes.
Qed.

(** A text made of arbitrary runes, none of them zero. *)
Lemma repr_of_runes p rs :
  Forall is_rune rs -> ~ In 0 rs ->
  body p = encodeRunes rs -> len p = lenof rs ->
  repr p (map norm rs).
Proof.
  intros F N B L. repeat split.
  - apply forallb_valid_norm.
  - now rewrite encodeRunes_norm.
  - now rewrite len_map.
  - intros I. apply in_map_iff in I as (r & Hr & I).
    rewrite Forall_forall in F.
    apply norm_zero in Hr; [subst; auto | auto].
Qed.

Lemma newlines_body p rs :
  repr p rs ->
  lenof (filter (Z.eqb 10) (body p)) = lenof (filter (Z.eqb 10) rs).
Proof.
  intros (V & B & _ & _). rewrite B.
  apply newlines_encodeRunes. now apply Forall_valid_is_rune.
Qed.

End text_facts.
(** ** Appending a rune and taking it back *)

Module append_claims.
Import utf8 utf8_checks utf8_facts buffer_facts websockets text_facts
  post_claims memstore.

Lemma int_succ_pred z : is_int z -> int (int (z + 1) - 1) = z.
Proof.
  unfold is_int, int. intros H.
  change (2 ^ 63) with 9223372036854775808 in *.
  change (2 ^ 64) with 18446744073709551616.
  dlia.
Qed.

Lemma int_succ_nonzero z : 0 <= z < 2 ^ 63 -> int (z + 1) <> 0.
Proof.
  unfold int. intros H.
  change (2 ^ 63) with 9223372036854775808 in *.
  change (2 ^ 64) with 18446744073709551616.
  dlia.
Qed.

Lemma norm_is_nl r : (norm r =? 10) = (r =? 10).
Proof.
  destruct (Z.eqb_spec r 10) as [->|Hn]; [reflexivity|].
  destruct (Z.eqb_spec (norm r) 10) as [Hr|]; [|reflexivity].
  exfalso. apply Hn. now apply norm_nl.
Qed.

Lemma post_eta p :
  {| isSpoilered := isSpoilered p; len := len p; lines := lines p;
     id := id p; op := op p; body := body p; board := board p |} = p.
Proof. now destruct p. Qed.

Lemma client_eta c :
  {| post := post c; ip := ip c; captchaSession := captchaSession c |} = c.
Proof. now destruct c. Qed.

(** C9, as amended. When [appendRune] accepts a rune (of one byte or of
    several), the [backspace] that follows takes the same bytes off the
    buffer and puts [len] and [lines] back: the client is exactly as before
    the append. What this [backspace] returns is what the store answers to
    the write of the restored body: [nil] when the store accepts it, the
    store's error otherwise. The spam score is not restored. *)
Theorem append_then_backspace {DB Command Image}
  (E : Env DB Command Image) (r : Z) (c c1 : Client)
  (w w1 : World DB Image) :
  is_rune r ->
  0 <= len (post c) < 2 ^ 63 -> is_int (lines (post c)) ->
  appendRune E (inr r) c w = Ret None c1 w1 ->
  exists w2,
    backspace E c1 w1
    = Ret (fst (SetOpenBody E (id (post c)) (body (post c)) (store w1)))
          c w2
    /\ spamScore w2 = spamScore w1 + uint (uint 1 * CharScore E).
Proof.
  intros Hr Hlen Hlines H. unfold appendRune in H.
  destruct (Z.eqb_spec (id (post c)) 0) as [Hid|Hid].
  { rewrite (hasPost_closed c Hid) in H. discriminate H. }
  rewrite (hasPost_open c Hid) in H. cbn [negb] in H.
  destruct (int (len (post c) + 1) >? MaxLenBody E); [discriminate H|].
  destruct (Z.eqb_spec r 0) as [|Hr0]; [discriminate H|].
  assert (Hlen' : is_int (len (post c))) by (unfold is_int; lia).
  destruct (r =? 10) eqn:Hnl; cbn [andb] in H;
    [destruct (lines _ >? MaxLinesBody E); [discriminate H|] | ];
    (destruct (IsPrintable E r true); [discriminate H|];
     unfold updateBody in H;
     cbn [post setPost setBody setLen setLines id body store feedCall
          incrementSpamScore IncrementSpamScore] in H;
     destruct (SetOpenBody E _ _ _) as [[e|] d] eqn:HS; [discriminate H|];
     injection H as <- <-;
     unfold backspace, hasPost;
     cbn [post setPost setBody setLen setLines id body len lines store
          feedCall incrementSpamScore IncrementSpamScore setStore];
     destruct (Z.eqb_spec (id (post c)) 0); [contradiction|]; cbn [negb];
     destruct (Z.eqb_spec (int (len (post c) + 1)) 0) as [Hz|_];
       [exfalso; revert Hz; now apply int_succ_nonzero|];
     rewrite DecodeLastRune_encode by assumption;
     rewrite len_app;
     replace (lenof (body (post c)) + lenof (encodeRune r)
              - lenof (encodeRune r)) with (lenof (body (post c))) by lia;
     rewrite slice_app_l, norm_is_nl, Hnl;
     unfold updateBody, setPost, setLen, setLines, setBody;
     cbn [post ip captchaSession isSpoilered len lines id op body board
          store feedCall incrementSpamScore IncrementSpamScore setStore
          spamScore feed];
     rewrite ?int_succ_pred by assumption;
     rewrite post_eta, client_eta;
     destruct (SetOpenBody E (id (post c)) (body (post c)) d) as [e' d'];
     eexists; split; reflexivity).
Qed.

Lemma append_then_backspace_witness :
  body (post (fst euroAppended)) = bytesOf "hello" ++ [0xE2; 0x82; 0xAC]
  /\ exists w2,
       backspace memEnv (fst euroAppended) (snd euroAppended)
       = Ret None (clientOf (postOf "hello")) w2.
Proof.
  split; [reflexivity|].
  destruct (append_then_backspace memEnv 0x20AC (clientOf (postOf "hello"))
              (fst euroAppended) world0 (snd euroAppended))
    as (w2 & H & _).
  - unfold is_rune. lia.
  - assert (L : len (post (clientOf (postOf "hello"))) = 5) by reflexivity.
    rewrite L. lia.
  - assert (L : lines (post (clientOf (postOf "hello"))) = 0)
      by reflexivity.
    rewrite L. unfold is_int. lia.
  - reflexivity.
  - exists w2. exact H.
Defined.

(** C9, as stated, fails: with a store that is out of reach for the body
    "hello", the append of "!" to "hello" is accepted, and the [backspace]
    that follows returns the store's error; it has restored the client all
    the same. *)
Lemma backspace_after_append_fails :
  appendRune busyEnv (inr 33) (clientOf (postOf "hello")) world0
  = Ret None (fst bangAppended) (snd bangAppended)
  /\ body (post (fst bangAppended)) = bytesOf "hello!"
  /\ exists w2,
       backspace busyEnv (fst bangAppended) (snd bangAppended)
       = Ret (Some (errNew "store timeout")) (clientOf (postOf "hello")) w2.
Proof.
  split; [reflexivity|]. split; [reflexivity|].
  eexists. reflexivity.
Qed.

End append_claims.
(** ** Splicing *)

Module splice_claims.
Import utf8 utf8_checks utf8_facts buffer_facts websockets text_facts
  post_claims memstore.

Section Splice.
Context {DB Command Image : Type}.
Variable E : Env DB Command Image.
Hypothesis HE : envOK E.

(** What [spliceText] does with a request on a post whose text is the
    runes [rs]: the checks in their order, then the new text, the message
    and the recount of the lines. *)
Lemma spliceText_runes (c : Client) (w : World DB Image) req rs :
  id (post c) <> 0 ->
  repr (post c) rs -> len (post c) <= MaxLenBody E ->
  callOK (CallSpliceText (inr req)) ->
  spliceText E (inr req) c w
  = let s := Start (coords req) in
    let l := Len (coords req) in
    let t := Text req in
    match IsPrintableRunes E t true with
    | Some e => Ret (Some e) c w
    | None =>
    if (s >? MaxLenBody E) || (l >? MaxLenBody E) || (s + l >? len (post c))
    then Ret (Some (errInvalidSpliceCoords (body (post c))
                      {| srs_coords := {| Start := s; Len := l |};
                         srs_Text := encodeRunes t |})) c w
    else if (l =? 0) && (lenof t =? 0) then Ret (Some errSpliceNOOP) c w
    else if lenof t >? MaxLenBody E then Ret (Some errSpliceTooLong) c w
    else if existsb (Z.eqb 0) t then Ret (Some ErrContainsNull) c w
    else
    let end_ := firstn (Z.to_nat (MaxLenBody E - s))
                       (t ++ skipn (Z.to_nat (s + l)) rs) in
    let new := firstn (Z.to_nat s) rs ++ end_ in
    let res :=
      if len (post c) - l + lenof t >? MaxLenBody E
      then {| ID := id (post c);
              sm_request :=
                {| srs_coords := {| Start := s; Len := len (post c) - s |};
                   srs_Text := encodeRunes end_ |} |}
      else {| ID := id (post c);
              sm_request := {| srs_coords := coords req;
                               srs_Text := encodeRunes t |} |} in
    let p := countLines (setBody (setLen (post c) (lenof new))
                                 (encodeRunes new)) in
    if lines p >? MaxLinesBody E
    then Ret (Some errTooManyLines) (setPost c p) w
    else updateBody E (MessageSplice res)
                    (lenof (srs_Text (sm_request res)) + 1) (setPost c p) w
    end.
Proof.
  intros Hid R Hmax (Hs & Hl & Ht).
  pose proof (repr_decode _ _ R) as Hold.
  destruct R as (V & B & L & N).
  destruct HE as [[M0 M1] _].
  assert (P31 : 2 ^ 31 = 2147483648) by reflexivity.
  assert (P63 : 2 ^ 63 = 9223372036854775808) by reflexivity.
  assert (P64 : 2 ^ 64 = 18446744073709551616) by reflexivity.
  pose proof (len_nonneg rs) as Lrs.
  pose proof (len_nonneg (Text req)) as Lt.
  unfold spliceText. rewrite (hasPost_open c Hid). cbn [negb].
  cbv zeta.
  destruct (IsPrintableRunes E (Text req) true); [reflexivity|].
  set (s := Start (coords req)) in *. set (l := Len (coords req)) in *.
  set (t := Text req) in *.
  destruct (Z.gtb_spec s (MaxLenBody E)); [reflexivity|].
  destruct (Z.gtb_spec l (MaxLenBody E)); [reflexivity|].
  cbn [orb].
  rewrite (uint_id (s + l)) by lia. rewrite (int_id (s + l)) by lia.
  destruct (Z.gtb_spec (s + l) (len (post c))); [reflexivity|].
  destruct ((l =? 0) && (lenof t =? 0)); [reflexivity|].
  destruct (Z.gtb_spec (lenof t) (MaxLenBody E)); [reflexivity|].
  destruct (existsb (Z.eqb 0) t); [reflexivity|].
  rewrite Hold.
  destruct (Z.gtb_spec (s + l) (lenof rs)); [lia|].
  cbn [len setLen id].
  assert (Hend : lenof (t ++ skipn (Z.to_nat (s + l)) rs)
                 = lenof t + lenof rs - s - l).
  { rewrite len_app, len_skipn by lia. lia. }
  rewrite (int_id l), (int_id (- l)), (int_id (- l + lenof t)),
    (int_id (len (post c) + _)), (int_id (len (post c) + _ - _)),
    (int_id s) by lia.
  replace (len (post c) + (- l + lenof t))
    with (len (post c) - l + lenof t) by lia.
  assert (Hpre : byteStart (firstn (Z.to_nat s) rs)
                 = lenof (encodeRunes (firstn (Z.to_nat s) rs))).
  { apply byteStart_encode.
    - apply forallb_forall. intros x I.
      rewrite forallb_forall in V. apply V. eapply in_firstn; eauto.
    - rewrite len_firstn by lia. lia. }
  assert (Hbody : body (post c)
                  = encodeRunes (firstn (Z.to_nat s) rs)
                    ++ encodeRunes (skipn (Z.to_nat s) rs)).
  { rewrite <- encodeRunes_app, firstn_skipn. exact B. }
  assert (Hcut : firstn (Z.to_nat (byteStart (firstn (Z.to_nat s) rs)))
                        (body (post c))
                 = encodeRunes (firstn (Z.to_nat s) rs)).
  { rewrite Hpre, Hbody. apply firstn_encodeRunes. }
  assert (Hpos : (byteStart (firstn (Z.to_nat s) rs) <? 0)
                 || (byteStart (firstn (Z.to_nat s) rs)
                     >? lenof (body (post c))) = false).
  { rewrite Hpre. rewrite Hbody at 1. rewrite len_app.
    pose proof (len_nonneg (encodeRunes (firstn (Z.to_nat s) rs))).
    pose proof (len_nonneg (encodeRunes (skipn (Z.to_nat s) rs))).
    destruct (Z.ltb_spec (lenof (encodeRunes (firstn (Z.to_nat s) rs))) 0);
      [lia|].
    destruct (Z.gtb_spec (lenof (encodeRunes (firstn (Z.to_nat s) rs)))
                (lenof (encodeRunes (firstn (Z.to_nat s) rs))
                 + lenof (encodeRunes (skipn (Z.to_nat s) rs))));
      [lia | reflexivity]. }
  destruct (Z.gtb_spec (len (post c) - l + lenof t - MaxLenBody E) 0)
    as [Hover|Hfit].
  - (* over the limit: the end is trimmed *)
    destruct (Z.gtb_spec (len (post c) - l + lenof t) (MaxLenBody E));
      [|lia].
    rewrite Hend.
    replace (lenof t + lenof rs - s - l
             - (len (post c) - l + lenof t - MaxLenBody E))
      with (MaxLenBody E - s) by lia.
    rewrite (int_id (MaxLenBody E - s)) by lia.
    destruct (Z.ltb_spec (MaxLenBody E - s) 0); [lia|].
    destruct (Z.ltb_spec s 0); [lia|].
    destruct (Z.gtb_spec s (lenof rs)); [lia|].
    cbn [andb orb]. cbn [len setLen body setBody id ID sm_request srs_Text].
    rewrite Hpos, Hcut.
    rewrite len_skipn by lia. rewrite uint_id by lia.
    rewrite <- encodeRunes_app.
    assert (Hnew : lenof (firstn (Z.to_nat s) rs
                          ++ firstn (Z.to_nat (MaxLenBody E - s))
                               (t ++ skipn (Z.to_nat (s + l)) rs))
                   = MaxLenBody E).
    { rewrite len_app, len_firstn, len_firstn by lia. lia. }
    rewrite Hnew. rewrite L.
    rewrite int_id; [reflexivity|].
    pose proof (len_encodeRunes_bound
                  (firstn (Z.to_nat (MaxLenBody E - s))
                     (t ++ skipn (Z.to_nat (s + l)) rs))) as Hb.
    rewrite len_firstn in Hb by lia.
    assert (HF : Forall is_rune (firstn (Z.to_nat (MaxLenBody E - s))
                                   (t ++ skipn (Z.to_nat (s + l)) rs))).
    { apply Forall_firstn_, Forall_app. split; [exact Ht|].
      apply Forall_skipn_. now apply Forall_valid_is_rune. }
    specialize (Hb HF). lia.
  - (* within the limit *)
    destruct (Z.gtb_spec (len (post c) - l + lenof t) (MaxLenBody E));
      [lia|].
    cbn [andb]. destruct (Z.gtb_spec s (lenof rs)); [lia|].
    cbn [len setLen body setBody id ID sm_request srs_Text].
    rewrite Hpos, Hcut.
    rewrite <- encodeRunes_app.
    rewrite (firstn_all2 (n := Z.to_nat (MaxLenBody E - s)))
      by (unfold lenof in *; lia).
    assert (Hnew : lenof (firstn (Z.to_nat s) rs
                          ++ t ++ skipn (Z.to_nat (s + l)) rs)
                   = len (post c) - l + lenof t).
    { rewrite len_app, len_firstn, Hend by lia. lia. }
    rewrite Hnew.
    rewrite int_id; [reflexivity|].
    pose proof (len_encodeRunes_bound t Ht). lia.
Qed.

Lemma updateBody_ret msg n (c : Client) (w : World DB Image) :
  exists e d,
    updateBody E msg n c w
    = Ret e c
        (setStore
           (incrementSpamScore (uint (uint n * CharScore E)) c
              (feedCall w (FeedSetOpenBody (id (post c)) (body (post c))
                             msg))) d).
Proof.
  unfold updateBody. destruct (SetOpenBody E _ _ _) as [e d].
  now exists e, d.
Qed.

Lemma trim_whole rs s x :
  0 <= s <= MaxLenBody E -> s <= lenof rs ->
  firstn (Z.to_nat s) rs ++ firstn (Z.to_nat (MaxLenBody E - s)) x
  = tailTrim (MaxLenBody E) (firstn (Z.to_nat s) rs ++ x).
Proof.
  intros Hs Hl. unfold tailTrim. rewrite firstn_app, firstn_firstn.
  rewrite length_firstn. unfold lenof in Hl.
  replace (Init.Nat.min (Z.to_nat (MaxLenBody E)) (Z.to_nat s))
    with (Z.to_nat s) by lia.
  do 2 f_equal. lia.
Qed.

(** A successful splice: the request passed the checks, the client has the
    new text and the feed was sent the message. *)
Lemma spliceText_success (c c' : Client) (w w' : World DB Image) req :
  textInv E (post c) ->
  callOK (CallSpliceText (inr req)) ->
  spliceText E (inr req) c w = Ret None c' w' ->
  Start (coords req) + Len (coords req) <= len (post c)
  /\ Start (coords req) <= MaxLenBody E
  /\ lenof (Text req) <= MaxLenBody E
  /\ existsb (Z.eqb 0) (Text req) = false
  /\ c' = setPost c (countLines
                       (setBody (setLen (post c) (lenof (spliced E c req)))
                                (encodeRunes (spliced E c req))))
  /\ feed w'
     = feed w ++ [FeedSetOpenBody (id (post c))
                    (encodeRunes (spliced E c req))
                    (MessageSplice (splicedMessage E c req))].
Proof.
  intros [T Hmax] Hreq H.
  destruct (Z.eqb_spec (id (post c)) 0) as [Hid|Hid].
  { unfold spliceText in H. rewrite (hasPost_closed c Hid) in H.
    discriminate H. }
  pose proof (textOK_repr _ T) as R.
  rewrite (spliceText_runes c w req _ Hid R Hmax Hreq) in H.
  cbv zeta in H.
  destruct Hreq as (Hs & Hl & Ht).
  destruct R as (V & B & L & N).
  pose proof (len_nonneg (decodeRunes (body (post c)))) as Lrs.
  pose proof (len_nonneg (Text req)) as Lt.
  destruct HE as [[M0 M1] _].
  destruct (IsPrintableRunes E (Text req) true); [discriminate H|].
  destruct (Z.gtb_spec (Start (coords req)) (MaxLenBody E));
    [discriminate H|].
  destruct (Z.gtb_spec (Len (coords req)) (MaxLenBody E));
    [discriminate H|].
  destruct (Z.gtb_spec (Start (coords req) + Len (coords req))
              (len (post c))); [discriminate H|].
  cbn [orb] in H.
  destruct ((Len (coords req) =? 0) && (lenof (Text req) =? 0));
    [discriminate H|].
  destruct (Z.gtb_spec (lenof (Text req)) (MaxLenBody E));
    [discriminate H|].
  destruct (existsb (Z.eqb 0) (Text req)) eqn:Hz; [discriminate H|].
  rewrite trim_whole in H by lia.
  change (tailTrim (MaxLenBody E)
            (firstn (Z.to_nat (Start (coords req)))
               (decodeRunes (body (post c)))
             ++ Text req
             ++ skipn (Z.to_nat (Start (coords req) + Len (coords req)))
                  (decodeRunes (body (post c)))))
    with (spliced E c req) in H.
  match type of H with
  | (if ?b then _ else _) = _ => destruct b; [discriminate H|]
  end.
  match type of H with
  | updateBody E ?msg ?n ?c0 w = _ =>
      destruct (updateBody_ret msg n c0 w) as (e & d & U)
  end.
  rewrite U in H. injection H as -> <- <-.
  repeat split; try assumption.
  cbn [feed setStore incrementSpamScore IncrementSpamScore feedCall post
       setPost id body
       countLines setLines setBody setLen].
  do 3 f_equal. unfold splicedMessage. cbv zeta.
  assert (Hend :
    lenof (Text req
           ++ skipn (Z.to_nat (Start (coords req) + Len (coords req)))
                (decodeRunes (body (post c))))
    = lenof (Text req) + lenof (decodeRunes (body (post c)))
      - Start (coords req) - Len (coords req)).
  { rewrite len_app, len_skipn by lia. lia. }
  destruct (Z.gtb_spec (len (post c) - Len (coords req) + lenof (Text req))
              (MaxLenBody E));
    destruct (Z.gtb_spec (len (post c) - Len (coords req)
                          + lenof (Text req) - MaxLenBody E) 0);
    try lia; [|reflexivity].
  rewrite Hend. do 4 f_equal. f_equal. lia.
Qed.

End Splice.

Lemma validPostb_spec {DB Command Image} (E : Env DB Command Image) p :
  validPostb E p = true -> validPost E p.
Proof.
  unfold validPostb, validPost, textOK. intros H.
  repeat (apply andb_true_iff in H as [H ?]).
  repeat match goal with
         | H : (_ =? _) = true |- _ => apply Z.eqb_eq in H
         | H : (_ <=? _) = true |- _ => apply Z.leb_le in H
         | H : negb _ = true |- _ => apply negb_true_iff in H
         end.
  repeat split; try assumption.
  - intros Hid. rewrite Hid in H. discriminate H.
  - intros I.
    match goal with
    | X : existsb _ _ = false |- _ =>
        rewrite <- not_true_iff_false, existsb_exists in X; apply X
    end.
    exists 0. split; auto.
Qed.

Lemma envOKb_spec {DB Command Image} (E : Env DB Command Image) :
  envOKb E = true -> envOK E.
Proof.
  unfold envOKb, envOK. intros H.
  repeat (apply andb_true_iff in H as [H ?]).
  repeat match goal with
         | H : (_ <? _) = true |- _ => apply Z.ltb_lt in H
         | H : (_ <=? _) = true |- _ => apply Z.leb_le in H
         end.
  lia.
Qed.

Lemma callOKb_spec k : callOKb k = true -> callOK k.
Proof.
  assert (R : forall r, is_runeb r = true -> is_rune r).
  { unfold is_runeb, is_rune. intros r H.
    apply andb_true_iff in H as [H1 H2].
    apply Z.leb_le in H1. apply Z.ltb_lt in H2. lia. }
  destruct k as [[e|r]| |[e|req]]; cbn [callOKb callOK]; auto.
  intros H. repeat (apply andb_true_iff in H as [H ?]).
  repeat match goal with
         | H : (_ <? _) = true |- _ => apply Z.ltb_lt in H
         | H : (_ <=? _) = true |- _ => apply Z.leb_le in H
         end.
  repeat split; try assumption.
  apply Forall_forall. intros r I. apply R.
  match goal with
  | X : forallb _ _ = true |- _ => rewrite forallb_forall in X; now apply X
  end.
Qed.

Lemma callsOKb_spec ks : forallb callOKb ks = true -> Forall callOK ks.
Proof.
  rewrite forallb_forall, Forall_forall. intros H k I.
  apply callOKb_spec. now apply H.
Qed.

Lemma validPost_textInv {DB Command Image} (E : Env DB Command Image) p :
  validPost E p -> textInv E p.
Proof. intros (_ & T & L & _). now split. Qed.

(** C2. A splice that is accepted leaves as body the runes before [start],
    the text and the runes from [start + len] on, trimmed at the tail to
    [MaxLenBody] runes; [len] is the number of these runes. (The buffer holds
    their encoding; read back, a rune of the text that is no code point is
    U+FFFD.) For "hello" and the splice of "EY" at 1 over 3 runes this is
    "hEYo" with [len] 4. *)
Theorem splice_is_replacement {DB Command Image}
  (E : Env DB Command Image) (c c' : Client) (w w' : World DB Image) req :
  envOK E -> validPost E (post c) ->
  callOK (CallSpliceText (inr req)) ->
  spliceText E (inr req) c w = Ret None c' w' ->
  let new :=
    tailTrim (MaxLenBody E)
      (spliceRunes (decodeRunes (body (post c))) (Start (coords req))
         (Len (coords req)) (Text req)) in
  body (post c') = encodeRunes new
  /\ decodeRunes (body (post c')) = map norm new
  /\ len (post c') = lenof new.
Proof.
  intros HE HV Hreq H. cbv zeta.
  pose proof (spliceText_success E HE c c' w w' req
                (validPost_textInv E _ HV) Hreq H)
    as (_ & _ & _ & _ & -> & _).
  fold (spliced E c req).
  cbn [post setPost countLines setLines setBody setLen body len].
  repeat split.
  apply decodeRunes_encodeRunes.
  destruct HV as (_ & T & _). destruct Hreq as (_ & _ & Ht).
  apply textOK_repr in T as (V & _).
  unfold spliced, tailTrim, spliceRunes.
  apply Forall_firstn_. rewrite !Forall_app. repeat split.
  - apply Forall_firstn_. now apply Forall_valid_is_rune.
  - exact Ht.
  - apply Forall_skipn_. now apply Forall_valid_is_rune.
Qed.

Lemma splice_hello :
  exists c' w',
    spliceText memEnv (inr helloRequest) (clientOf (postOf "hello")) world0
    = Ret None c' w'
    /\ body (post c') = bytesOf "hEYo" /\ len (post c') = 4.
Proof.
  pose (o := after (spliceText memEnv (inr helloRequest)
                      (clientOf (postOf "hello")) world0)).
  exists (fst o), (snd o).
  assert (H : spliceText memEnv (inr helloRequest)
                (clientOf (postOf "hello")) world0
              = Ret None (fst o) (snd o)) by reflexivity.
  split; [exact H|].
  destruct (splice_is_replacement memEnv (clientOf (postOf "hello"))
              (fst o) world0 (snd o) helloRequest) as (B & _ & L).
  - apply envOKb_spec. reflexivity.
  - apply validPostb_spec. reflexivity.
  - apply (callOKb_spec (CallSpliceText (inr helloRequest))). reflexivity.
  - exact H.
  - rewrite B, L. split; reflexivity.
Defined.

(** C5, as amended. When the new length exceeds [MaxLenBody], it is the
    text followed by the rest of the old body that is trimmed from the right
    by exactly the overflow: the old tail goes first, and the inserted text
    is cut only when the overflow is longer than that tail. The message sent
    to the feed carries [len = currentRuneLen - start] and, as text, the
    trimmed sequence. For a body of [MaxLenBody - 2] runes and a text of 10
    runes inserted at 0, the text sent is the whole submitted text followed
    by the first [MaxLenBody - 10] runes of the old body. *)
Theorem splice_over_limit {DB Command Image}
  (E : Env DB Command Image) (c c' : Client) (w w' : World DB Image) req :
  envOK E -> validPost E (post c) ->
  callOK (CallSpliceText (inr req)) ->
  spliceText E (inr req) c w = Ret None c' w' ->
  len (post c) - Len (coords req) + lenof (Text req) > MaxLenBody E ->
  let s := Start (coords req) in
  let l := Len (coords req) in
  let B := decodeRunes (body (post c)) in
  let end_ := Text req ++ skipn (Z.to_nat (s + l)) B in
  let over := len (post c) - l + lenof (Text req) - MaxLenBody E in
  let sent := firstn (Z.to_nat (lenof end_ - over)) end_ in
  feed w'
  = feed w ++ [FeedSetOpenBody (id (post c)) (body (post c'))
                 (MessageSplice
                    {| ID := id (post c);
                       sm_request :=
                         {| srs_coords :=
                              {| Start := s; Len := len (post c) - s |};
                            srs_Text := encodeRunes sent |} |})]
  /\ lenof sent = lenof end_ - over
  /\ (s = 0 -> l = 0 -> len (post c) = MaxLenBody E - 2 ->
      lenof (Text req) = 10 ->
      sent = Text req ++ firstn (Z.to_nat (MaxLenBody E - 10)) B).
Proof.
  intros HE HV Hreq H Hover. cbv zeta.
  pose proof (spliceText_success E HE c c' w w' req
                (validPost_textInv E _ HV) Hreq H)
    as (Hsl & Hs & Ht & _ & -> & ->).
  destruct HV as (_ & (_ & L & _) & Hmax & _).
  destruct Hreq as (Hs0 & Hl0 & _).
  pose proof (len_nonneg (Text req)) as Lt.
  assert (Hend :
    lenof (Text req
           ++ skipn (Z.to_nat (Start (coords req) + Len (coords req)))
                (decodeRunes (body (post c))))
    = lenof (Text req) + lenof (decodeRunes (body (post c)))
      - Start (coords req) - Len (coords req)).
  { rewrite len_app, len_skipn by lia. lia. }
  repeat split.
  - cbn [post setPost countLines setLines setBody setLen body].
    unfold splicedMessage. cbv zeta.
    destruct (Z.gtb_spec (len (post c) - Len (coords req)
                          + lenof (Text req) - MaxLenBody E) 0); [|lia].
    reflexivity.
  - rewrite len_firstn; lia.
  - intros E0 El Elen E10. rewrite Hend, E0, El, <- L, Elen, E10.
    change (Z.to_nat (0 + 0)) with 0%nat. cbn [skipn].
    replace (10 + (MaxLenBody E - 2) - 0 - 0
             - (MaxLenBody E - 2 - 0 + 10 - MaxLenBody E))
      with (MaxLenBody E) by lia.
    rewrite firstn_app.
    rewrite (@firstn_all2 _ _ (Text req)) by (unfold lenof in *; lia).
    do 2 f_equal. unfold lenof in *. lia.
Qed.

Lemma splice_over_limit_witness :
  exists t,
    feed (snd (after (spliceText memEnv (inr digitsRequest)
                        (clientOf longPost) world0)))
    = [FeedSetOpenBody 101 (Text digitsRequest ++ repeat 97 1990)
         (MessageSplice
            {| ID := 101;
               sm_request :=
                 {| srs_coords := {| Start := 0; Len := 1998 |};
                    srs_Text := t |} |})]
    /\ t = Text digitsRequest ++ repeat 97 1990.
Proof.
  pose (o := after (spliceText memEnv (inr digitsRequest)
                      (clientOf longPost) world0)).
  assert (H : spliceText memEnv (inr digitsRequest) (clientOf longPost)
                world0
              = Ret None (fst o) (snd o)) by (vm_compute; reflexivity).
  destruct (splice_over_limit memEnv (clientOf longPost) (fst o) world0
              (snd o) digitsRequest) as (F & _ & _).
  - apply envOKb_spec. reflexivity.
  - apply validPostb_spec. vm_compute. reflexivity.
  - apply (callOKb_spec (CallSpliceText (inr digitsRequest))). reflexivity.
  - exact H.
  - vm_compute. reflexivity.
  - eexists. fold o. rewrite F. split; vm_compute; reflexivity.
Defined.

(** C5, as stated, fails on its own scenario: with a body of
    [MaxLenBody - 2] letters "a" and the ten digits inserted at 0, the text
    sent starts with all ten digits, so the inserted text has not been
    trimmed by the overflow of 8, and it is not the first two digits
    followed by a tail of the old body, whatever the length of that tail. *)
Lemma splice_over_limit_keeps_text :
  exists c' w' m,
    spliceText memEnv (inr digitsRequest) (clientOf longPost) world0
    = Ret None c' w'
    /\ feed w' = [FeedSetOpenBody 101 (body (post c')) (MessageSplice m)]
    /\ firstn 10 (srs_Text (sm_request m)) = Text digitsRequest
    /\ Len (srs_coords (sm_request m)) = 1998
    /\ forall k, srs_Text (sm_request m) <> [48; 49] ++ repeat 97 k.
Proof.
  do 3 eexists. split; [vm_compute; reflexivity|].
  split; [reflexivity|].
  split; [reflexivity|]. split; [reflexivity|].
  intros k Hk. apply (f_equal (fun x => nth 2 x 0)) in Hk.
  destruct k as [|[|k]]; cbn in Hk; discriminate Hk.
Qed.

End splice_claims.
(** ** What sequences of text operations keep *)

Module invariant_claims.
Import utf8 utf8_checks utf8_facts buffer_facts websockets text_facts
  post_claims append_claims splice_claims memstore.

Section Invariant.
Context {DB Command Image : Type}.
Variable E : Env DB Command Image.
Hypothesis HE : envOK E.

Ltac kept :=
  do 3 eexists; split; [reflexivity | cbn [post setPost]; assumption].

Lemma textInv_setLines p n : textInv E p -> textInv E (setLines p n).
Proof. intros [T L]. split; assumption. Qed.

Lemma textInv_of_runes p rs :
  Forall is_rune rs -> ~ In 0 rs ->
  body p = encodeRunes rs -> len p = lenof rs ->
  lenof rs <= MaxLenBody E ->
  textInv E p.
Proof.
  intros F N B L M. split; [|lia].
  eapply repr_textOK, repr_of_runes; eauto.
Qed.

Lemma appendRune_inv data (c : Client) (w : World DB Image) :
  textInv E (post c) -> callOK (CallAppendRune data) ->
  exists e c' w',
    appendRune E data c w = Ret e c' w' /\ textInv E (post c').
Proof.
  intros HI Hc. unfold appendRune.
  destruct (hasPost c) as [has [e|]]; [kept|].
  destruct has; cbn [negb]; [|kept].
  destruct (Z.gtb_spec (int (len (post c) + 1)) (MaxLenBody E)) as [|Hfit];
    [kept|].
  destruct data as [e|r]; [kept|]. cbn in Hc.
  destruct (Z.eqb_spec r 0) as [|Hr0]; [kept|].
  set (p1 := if r =? 10
             then setLines (post c) (int (lines (post c) + 1))
             else post c).
  assert (H1 : textInv E p1).
  { subst p1. destruct (r =? 10); [now apply textInv_setLines | exact HI]. }
  assert (Hb : body p1 = body (post c) /\ len p1 = len (post c)).
  { subst p1. destruct (r =? 10); split; reflexivity. }
  destruct Hb as [Hb Hl]. clearbody p1.
  destruct ((r =? 10) && (lines p1 >? MaxLinesBody E));
    [kept|].
  destruct (IsPrintable E r true); [kept|].
  match goal with
  | |- context [updateBody E ?msg ?n ?c0 w] =>
      destruct (updateBody_ret E msg n c0 w) as (e & d & ->)
  end.
  do 3 eexists. split; [reflexivity|].
  cbn [post setPost].
  destruct HI as [T Hmax]. pose proof (textOK_repr _ T) as (V & B & L & N).
  destruct HE as [[M0 M1] _].
  pose proof (len_nonneg (decodeRunes (body (post c)))) as Lrs.
  rewrite int_id in Hfit
    by (change (2 ^ 31) with 2147483648 in M1;
        change (2 ^ 63) with 9223372036854775808; lia).
  apply (textInv_of_runes _ (decodeRunes (body (post c)) ++ [r])).
  - apply Forall_app. split; [now apply Forall_valid_is_rune|].
    now constructor.
  - rewrite in_app_iff. cbn [In]. intuition.
  - cbn [body setLen setBody]. rewrite Hb, encodeRunes_app.
    cbn [encodeRunes]. rewrite app_nil_r. now rewrite <- B.
  - cbn [len setLen setBody]. rewrite Hl, len_app. list_norm.
    rewrite int_id
      by (change (2 ^ 31) with 2147483648 in M1;
          change (2 ^ 63) with 9223372036854775808; lia).
    lia.
  - rewrite len_app. list_norm. lia.
Qed.

Lemma backspace_inv (c : Client) (w : World DB Image) :
  textInv E (post c) ->
  exists e c' w', backspace E c w = Ret e c' w' /\ textInv E (post c').
Proof.
  intros HI. unfold backspace.
  destruct (hasPost c) as [has [e|]]; [kept|].
  destruct has; cbn [negb]; [|kept].
  destruct (Z.eqb_spec (len (post c)) 0) as [|Hn0]; [kept|].
  destruct HI as [T Hmax]. pose proof (textOK_repr _ T) as (V & B & L & N).
  destruct HE as [[M0 M1] _].
  destruct (exists_last (l := decodeRunes (body (post c)))) as (rs & r & Hrs).
  { intros Hnil. rewrite Hnil in L. cbn in L. contradiction. }
  rewrite Hrs in V, B, L, N.
  rewrite forallb_app in V. apply andb_true_iff in V as [Vrs Vr].
  cbn [forallb] in Vr. rewrite andb_true_r in Vr.
  rewrite encodeRunes_app in B. cbn [encodeRunes] in B.
  rewrite app_nil_r in B.
  rewrite B, DecodeLastRune_encode by now apply validRune_is_rune.
  rewrite len_app.
  replace (lenof (encodeRunes rs) + lenof (encodeRune r)
           - lenof (encodeRune r)) with (lenof (encodeRunes rs)) by lia.
  rewrite slice_app_l.
  match goal with
  | |- context [updateBody E ?msg ?n ?c0 w] =>
      destruct (updateBody_ret E msg n c0 w) as (e & d & ->)
  end.
  do 3 eexists. split; [reflexivity|].
  cbn [post setPost].
  rewrite len_app in L. list_norm.
  pose proof (len_nonneg rs) as Lrs.
  apply (textInv_of_runes _ rs).
  - now apply Forall_valid_is_rune.
  - intros I. apply N. apply in_app_iff. now left.
  - destruct (norm r =? 10); reflexivity.
  - destruct (norm r =? 10); cbn [len setLen setLines setBody];
      rewrite int_id
        by (change (2 ^ 31) with 2147483648 in M1;
            change (2 ^ 63) with 9223372036854775808; lia); lia.
  - lia.
Qed.

Lemma spliceText_inv data (c : Client) (w : World DB Image) :
  textInv E (post c) -> callOK (CallSpliceText data) ->
  exists e c' w',
    spliceText E data c w = Ret e c' w' /\ textInv E (post c').
Proof.
  intros HI Hc.
  destruct (Z.eqb_spec (id (post c)) 0) as [Hid|Hid].
  { unfold spliceText. rewrite (hasPost_closed c Hid). kept. }
  destruct data as [e|req].
  { unfold spliceText. rewrite (hasPost_open c Hid). kept. }
  pose proof HI as [T Hmax]. pose proof (textOK_repr _ T) as R.
  rewrite (spliceText_runes E HE c w req _ Hid R Hmax Hc). cbv zeta.
  destruct R as (V & B & L & N). destruct Hc as (Hs & Hl & Ht).
  destruct HE as [[M0 M1] _].
  pose proof (len_nonneg (decodeRunes (body (post c)))) as Lrs.
  destruct (IsPrintableRunes E (Text req) true); [kept|].
  destruct (Z.gtb_spec (Start (coords req)) (MaxLenBody E));
    [kept|].
  destruct (Z.gtb_spec (Len (coords req)) (MaxLenBody E));
    [kept|].
  destruct (Z.gtb_spec (Start (coords req) + Len (coords req))
              (len (post c))); [kept|].
  cbn [orb].
  destruct ((Len (coords req) =? 0) && (lenof (Text req) =? 0));
    [kept|].
  destruct (Z.gtb_spec (lenof (Text req)) (MaxLenBody E));
    [kept|].
  destruct (existsb (Z.eqb 0) (Text req)) eqn:Hz; [kept|].
  set (new := firstn (Z.to_nat (Start (coords req)))
                (decodeRunes (body (post c)))
              ++ firstn (Z.to_nat (MaxLenBody E - Start (coords req)))
                   (Text req
                    ++ skipn (Z.to_nat (Start (coords req)
                                        + Len (coords req)))
                         (decodeRunes (body (post c))))).
  assert (HN : textInv E (countLines
                            (setBody (setLen (post c) (lenof new))
                                     (encodeRunes new)))).
  { apply textInv_setLines. apply (textInv_of_runes _ new).
    - subst new. apply Forall_app. split.
      + apply Forall_firstn_. now apply Forall_valid_is_rune.
      + apply Forall_firstn_, Forall_app. split; [exact Ht|].
        apply Forall_skipn_. now apply Forall_valid_is_rune.
    - subst new. rewrite in_app_iff. intros [I|I].
      + apply N. eapply in_firstn; eauto.
      + apply in_firstn in I. apply in_app_iff in I as [I|I].
        * rewrite <- not_true_iff_false, existsb_exists in Hz.
          apply Hz. exists 0. split; auto.
        * apply N. eapply in_skipn; eauto.
    - reflexivity.
    - reflexivity.
    - subst new. rewrite len_app, len_firstn by lia.
      unfold lenof. rewrite length_firstn. lia. }
  match goal with
  | |- context [if ?b then _ else _] => destruct b
  end; [kept|].
  match goal with
  | |- context [updateBody E ?msg ?n ?c0 w] =>
      destruct (updateBody_ret E msg n c0 w) as (e & d & ->)
  end.
  kept.
Qed.

Lemma step_inv k (c : Client) (w : World DB Image) :
  textInv E (post c) -> callOK k ->
  exists e c' w', step E k c w = Ret e c' w' /\ textInv E (post c').
Proof.
  intros HI Hk. destruct k as [data| |data]; cbn [step].
  - now apply appendRune_inv.
  - now apply backspace_inv.
  - now apply spliceText_inv.
Qed.

Lemma run_inv ks : forall (c : Client) (w : World DB Image),
  textInv E (post c) -> Forall callOK ks ->
  exists c' w', run E ks c w = Ret None c' w' /\ textInv E (post c').
Proof.
  induction ks as [|k ks IH]; intros c w HI Hks.
  - now exists c, w.
  - inversion Hks as [|? ? Hk Hks']; subst. cbn [run].
    destruct (step_inv k c w HI Hk) as (e & c1 & w1 & -> & H1).
    now apply IH.
Qed.

End Invariant.

(** C4. Whatever calls of [appendRune], [backspace] and [spliceText] a
    valid open post goes through, refused ones included, none of them
    panics and afterwards [len] is the length of the body in runes and the
    body has no NUL, as a byte or as a rune; the body stays well-formed
    UTF-8 of at most [MaxLenBody] runes. *)
Theorem text_invariant {DB Command Image} (E : Env DB Command Image)
  (ks : list call) (c : Client) (w : World DB Image) :
  envOK E -> validPost E (post c) -> Forall callOK ks ->
  exists c' w',
    run E ks c w = Ret None c' w'
    /\ len (post c') = lenof (decodeRunes (body (post c')))
    /\ ~ In 0 (decodeRunes (body (post c')))
    /\ ~ In 0 (body (post c'))
    /\ wellFormed (body (post c')) = true
    /\ lenof (decodeRunes (body (post c'))) <= MaxLenBody E.
Proof.
  intros HE HV Hks.
  destruct (run_inv E HE ks c w (validPost_textInv E _ HV) Hks)
    as (c' & w' & Hrun & [T L]).
  exists c', w'. split; [exact Hrun|].
  pose proof (textOK_repr _ T) as (_ & _ & Hl & N).
  destruct T as (W & _ & N0). repeat split; auto. lia.
Qed.

Lemma text_invariant_witness :
  exists c' w',
    run memEnv helloCalls (clientOf (postOf "hello")) world0
    = Ret None c' w'
    /\ len (post c') = lenof (decodeRunes (body (post c'))).
Proof.
  destruct (text_invariant memEnv helloCalls (clientOf (postOf "hello"))
              world0) as (c' & w' & H & L & _).
  - apply envOKb_spec. reflexivity.
  - apply validPostb_spec. reflexivity.
  - apply callsOKb_spec. reflexivity.
  - exists c', w'. split; [exact H | exact L].
Defined.

(** C3: what the code does at two inputs the claim covers. A post of
    [MaxLinesBody] newlines is valid; the [appendRune] of one more newline
    is refused, but has counted it: [lines] is 101, above the limit and no
    longer the number of newlines of the body, which is 100. And a splice
    of 101 newlines into "x" is refused after the body has been replaced:
    the client is left with a body of 101 newlines, which the next accepted
    operation sends to the feed. The length in runes stays within
    [MaxLenBody] in both. *)
Theorem lines_not_kept :
  validPost memEnv linesPost
  /\ (exists c' w',
        appendRune memEnv (inr 10) (clientOf linesPost) world0
        = Ret (Some errTooManyLines) c' w'
        /\ lines (post c') = 101
        /\ lenof (filter (Z.eqb 10) (decodeRunes (body (post c')))) = 100
        /\ MaxLinesBody memEnv = 100)
  /\ validPost memEnv (postOf "x")
  /\ (exists c1 w1 c2 w2,
        spliceText memEnv (inr newlinesRequest) (clientOf (postOf "x"))
                   world0
        = Ret (Some errTooManyLines) c1 w1
        /\ lines (post c1) = 101
        /\ appendRune memEnv (inr 97) c1 w1 = Ret None c2 w2
        /\ lines (post c2) = 101
        /\ lenof (filter (Z.eqb 10) (decodeRunes (body (post c2)))) = 101
        /\ feed w2 = [FeedSetOpenBody 101 (body (post c2))
                        (MessageAppend 101 97)]).
Proof.
  split; [apply validPostb_spec; vm_compute; reflexivity|].
  split.
  { do 2 eexists. split; [vm_compute; reflexivity|].
    split; [vm_compute; reflexivity|].
    split; vm_compute; reflexivity. }
  split; [apply validPostb_spec; vm_compute; reflexivity|].
  do 4 eexists. split; [vm_compute; reflexivity|].
  split; [vm_compute; reflexivity|].
  split; [vm_compute; reflexivity|].
  split; [vm_compute; reflexivity|].
  split; vm_compute; reflexivity.
Qed.

End invariant_claims.
(** ** Valid UTF-8 is what the conversion from runes writes *)

Module valid_facts.
Import utf8 utf8_checks utf8_facts websockets memstore extras.

Lemma validStart_all : forall_below 8 0 validStart = true.
Proof. vm_compute. reflexivity. Qed.

Lemma encodes_spec l :
  encodes l = true -> exists r, validRune r = true /\ encodeRune r = l.
Proof.
  unfold encodes. intros H. apply andb_true_iff in H as [V H].
  destruct (list_eq_dec Z.eq_dec (encodeRune (fst (DecodeRune l))) l);
    [|discriminate H].
  eauto.
Qed.

(** Four bytes that pass the tests of [utf8.Valid] are the encoding of
    the code point their payload bits make. *)
Lemma four_encodes b0 c1 c2 c3 :
  fourStart b0 c1 = true ->
  locb <= c2 <= hicb -> locb <= c3 <= hicb ->
  exists r, validRune r = true /\ encodeRune r = [b0; c1; c2; c3].
Proof.
  unfold fourStart, locb, hicb, MaxRune. intros H H2 H3.
  repeat (apply andb_true_iff in H as [H ?]).
  repeat match goal with
         | X : (_ <=? _) = true |- _ => apply Z.leb_le in X
         end.
  change (2 ^ 18) with 262144 in *. change (2 ^ 12) with 4096 in *.
  set (r := (b0 - 240) * 262144 + (c1 - 128) * 4096 + (c2 - 128) * 64
            + (c3 - 128)).
  assert (Hr : 0x10000 <= r <= MaxRune) by (unfold MaxRune; subst r; lia).
  exists r. split.
  - unfold validRune, MaxRune, surrogateMin, surrogateMax in *.
    repeat match goal with
           | |- context [?a <=? ?b] => destruct (Z.leb_spec a b); try lia
           end; reflexivity.
  - assert (Er : encodeRune r = encode4 r).
    { unfold MaxRune in Hr.
      unfold encodeRune, uint32. change 0xFFFFFFFF with (Z.ones 32).
      rewrite Z.land_ones, Z.mod_small by lia.
      unfold rune1Max, rune2Max, rune3Max, MaxRune, surrogateMin,
        surrogateMax.
      repeat match goal with
             | |- context [?a <? ?b] => destruct (Z.ltb_spec a b); try lia
             | |- context [?a <=? ?b] => destruct (Z.leb_spec a b); try lia
             end; reflexivity. }
    rewrite Er, (encode4_digits r Hr). unfold t4, tx.
    change (2 ^ 18) with 262144. change (2 ^ 12) with 4096.
    change (2 ^ 6) with 64.
    repeat (apply (f_equal2 (@cons Z)); [subst r; dlia|]). reflexivity.
Qed.

(** A sequence of bytes that [utf8.Valid] accepts is the conversion to a
    string of a sequence of code points. *)
Lemma Valid_encoded n : forall p,
  (length p <= n)%nat -> Forall is_byte p -> Valid p = true ->
  exists rs, forallb validRune rs = true /\ encodeRunes rs = p.
Proof.
  induction n as [|n IH]; intros p Hn Hb H.
  { destruct p; [|cbn in Hn; lia]. now exists []. }
  destruct p as [|b0 p1]; [now exists []|].
  cbn [length] in Hn. inversion Hb as [|? ? B0 Hb1]; subst.
  pose proof (forall_below_spec _ _ _ validStart_all b0 B0) as S.
  unfold validStart in S. cbn [Valid] in H.
  assert (Step : forall l rest,
    (length rest <= n)%nat -> Forall is_byte rest -> Valid rest = true ->
    (exists r, validRune r = true /\ encodeRune r = l) ->
    exists rs, forallb validRune rs = true /\ encodeRunes rs = l ++ rest).
  { intros l rest Hl Hr Hv (r & V & Er).
    destruct (IH rest Hl Hr Hv) as (rs & Vs & Es).
    exists (r :: rs). cbn [forallb encodeRunes]. rewrite V, Vs, Er, Es.
    split; reflexivity. }
  destruct (b0 <? RuneSelf).
  { apply (Step [b0] p1); [lia | assumption | assumption |].
    apply encodes_spec. exact S. }
  destruct (first b0 =? xx); [discriminate H|].
  destruct p1 as [|c1 p2]; [discriminate H|].
  cbn [length] in Hn. inversion Hb1 as [|? ? B1 Hb2]; subst.
  pose proof (forall_below_spec _ _ _ S c1 B1) as S1. cbv beta in S1.
  destruct ((c1 <? fst (acceptRanges (Z.shiftr (first b0) 4)))
            || (snd (acceptRanges (Z.shiftr (first b0) 4)) <? c1));
    [discriminate H|].
  destruct (Z.land (first b0) 7 =? 2).
  { apply (Step [b0; c1] p2); [lia | assumption | assumption |].
    apply encodes_spec. exact S1. }
  destruct p2 as [|c2 p3]; [discriminate H|].
  cbn [length] in Hn. inversion Hb2 as [|? ? B2 Hb3]; subst.
  destruct (Z.ltb_spec c2 locb); [discriminate H|].
  destruct (Z.ltb_spec hicb c2); [discriminate H|].
  cbn [orb] in H.
  destruct (Z.land (first b0) 7 =? 3).
  { pose proof (forall_below_spec _ _ _ S1 c2 B2) as S2. cbv beta in S2.
    destruct (Z.ltb_spec c2 locb); [lia|].
    destruct (Z.ltb_spec hicb c2); [lia|]. cbn [orb] in S2.
    apply (Step [b0; c1; c2] p3); [lia | assumption | assumption |].
    apply encodes_spec. exact S2. }
  destruct p3 as [|c3 p4]; [discriminate H|].
  cbn [length] in Hn. inversion Hb3 as [|? ? B3 Hb4]; subst.
  destruct (Z.ltb_spec c3 locb); [discriminate H|].
  destruct (Z.ltb_spec hicb c3); [discriminate H|].
  cbn [orb] in H.
  apply (Step [b0; c1; c2; c3] p4); [lia | assumption | assumption |].
  apply four_encodes; [exact S1 | lia | lia].
Qed.

(** Reading a valid UTF-8 string as runes and writing the runes as a
    string gives the string again. *)
Lemma Valid_round_trip p :
  Forall is_byte p -> Valid p = true ->
  forallb validRune (decodeRunes p) = true
  /\ encodeRunes (decodeRunes p) = p.
Proof.
  intros Hb H.
  destruct (Valid_encoded (length p) p (le_n _) Hb H) as (rs & V & <-).
  rewrite decodeRunes_encodeRunes by now apply Forall_valid_is_rune.
  rewrite map_norm_valid by assumption. now split.
Qed.

End valid_facts.
(** ** More on the text operations *)

Module text_extras.
Import utf8 utf8_checks utf8_facts valid_facts buffer_facts websockets
  text_facts post_claims append_claims splice_claims invariant_claims
  memstore extras.

(** X1. A splice request whose runes are code points comes back unchanged
    when it is marshalled (the text as a string) and unmarshalled (the
    string as runes), multi-byte runes included; a rune that is no code
    point comes back as U+FFFD. *)
Theorem unmarshal_marshal (s : spliceRequest) :
  Forall is_rune (Text s) ->
  unmarshalRequest (marshalRequest s)
  = {| coords := coords s; Text := map norm (Text s) |}
  /\ (forallb validRune (Text s) = true ->
      unmarshalRequest (marshalRequest s) = s).
Proof.
  intros H. unfold unmarshalRequest, marshalRequest.
  cbn [srs_coords srs_Text]. rewrite decodeRunes_encodeRunes by assumption.
  split; [reflexivity|].
  intros V. rewrite map_norm_valid by assumption. now destruct s.
Qed.

Lemma unmarshal_marshal_witness :
  unmarshalRequest
    (marshalRequest
       {| coords := {| Start := 1; Len := 3 |};
          Text := [0x41; 0xE9; 0x20AC; 0x1F600] |})
  = {| coords := {| Start := 1; Len := 3 |};
       Text := [0x41; 0xE9; 0x20AC; 0x1F600] |}.
Proof.
  apply (unmarshal_marshal
           {| coords := {| Start := 1; Len := 3 |};
              Text := [0x41; 0xE9; 0x20AC; 0x1F600] |}).
  - repeat constructor; unfold is_rune; lia.
  - reflexivity.
Defined.

(** X2. A splice message whose text is valid UTF-8, in the sense of
    [utf8.Valid], comes back unchanged when it is unmarshalled (the string
    as runes) and marshalled again (the runes as a string). *)
Theorem marshal_unmarshal (tmp : spliceRequestString) :
  Forall is_byte (srs_Text tmp) -> Valid (srs_Text tmp) = true ->
  marshalRequest (unmarshalRequest tmp) = tmp.
Proof.
  intros Hb V. destruct (Valid_round_trip _ Hb V) as [_ B].
  unfold unmarshalRequest, marshalRequest. cbn [coords Text].
  rewrite B. now destruct tmp.
Qed.

Lemma marshal_unmarshal_witness :
  marshalRequest
    (unmarshalRequest
       {| srs_coords := {| Start := 0; Len := 0 |};
          srs_Text := [0x68; 0xC3; 0xA9; 0xE2; 0x82; 0xAC;
                       0xF0; 0x9F; 0x98; 0x80] |})
  = {| srs_coords := {| Start := 0; Len := 0 |};
       srs_Text := [0x68; 0xC3; 0xA9; 0xE2; 0x82; 0xAC;
                    0xF0; 0x9F; 0x98; 0x80] |}.
Proof.
  apply (marshal_unmarshal
           {| srs_coords := {| Start := 0; Len := 0 |};
              srs_Text := [0x68; 0xC3; 0xA9; 0xE2; 0x82; 0xAC;
                           0xF0; 0x9F; 0x98; 0x80] |}).
  - cbn [srs_Text].
    repeat (constructor; [unfold is_byte; lia|]). constructor.
  - reflexivity.
Defined.

Section Shape.
Context {DB Command Image : Type}.
Variable E : Env DB Command Image.

Lemma sameFrame_refl c : sameFrame c c.
Proof. repeat split. Qed.

Ltac frame := repeat split; cbn; try reflexivity.

Ltac refused c0 :=
  right; exists c0; split;
  [ repeat split | left; eexists; reflexivity ].

Ltac updated c0 :=
  right; exists c0; split;
  [ repeat split | right; do 2 eexists; reflexivity ].

Lemma appendRune_shaped data c w : shaped E (appendRune E data c w) c w.
Proof.
  unfold appendRune, hasPost.
  destruct (id (post c) =? 0); [refused c|]. cbn [negb].
  destruct (int (len (post c) + 1) >? MaxLenBody E); [refused c|].
  destruct data as [e|r]; [refused c|].
  destruct (r =? 0); [refused c|].
  destruct (r =? 10); cbn [andb].
  - destruct (lines _ >? MaxLinesBody E);
      [refused (setPost c (setLines (post c) (int (lines (post c) + 1))))|].
    destruct (IsPrintable E r true);
      [refused (setPost c (setLines (post c) (int (lines (post c) + 1))))|].
    match goal with
    | |- shaped _ (updateBody _ _ _ ?c0 _) _ _ => updated c0
    end.
  - destruct (IsPrintable E r true); [refused (setPost c (post c))|].
    match goal with
    | |- shaped _ (updateBody _ _ _ ?c0 _) _ _ => updated c0
    end.
Qed.

Lemma backspace_shaped c w : shaped E (backspace E c w) c w.
Proof.
  unfold backspace, hasPost.
  destruct (id (post c) =? 0); [refused c|]. cbn [negb].
  destruct (len (post c) =? 0); [refused c|].
  destruct (DecodeLastRune (body (post c))) as [r k].
  destruct (r =? 10);
    match goal with
    | |- shaped _ (updateBody _ _ _ ?c0 _) _ _ => updated c0
    end.
Qed.

Lemma spliceText_shaped data c w : shaped E (spliceText E data c w) c w.
Proof.
  unfold spliceText, hasPost.
  destruct (id (post c) =? 0); [refused c|]. cbn [negb].
  destruct data as [e|req]; [refused c|].
  destruct (IsPrintableRunes E (Text req) true); [refused c|].
  cbv zeta.
  destruct (_ || _ || _); [refused c|].
  destruct (_ && _); [refused c|].
  destruct (lenof (Text req) >? MaxLenBody E); [refused c|].
  destruct (existsb (Z.eqb 0) (Text req)); [refused c|].
  destruct (uint _ >? lenof _); [now left|].
  match goal with
  | |- context [if ?b && ?b' then Panic else _] => destruct b
  end; cbn [andb].
  - destruct (_ || _ || _); [now left|].
    destruct (_ >? lenof _); [now left|].
    destruct (_ || _); [now left|].
    match goal with
    | |- context [if ?b then Ret _ _ _ else _] => destruct b
    end.
    + match goal with
      | |- shaped _ (Ret _ ?c0 _) _ _ => refused c0
      end.
    + match goal with
      | |- shaped _ (updateBody _ _ _ ?c0 _) _ _ => updated c0
      end.
  - destruct (_ >? lenof _); [now left|].
    destruct (_ || _); [now left|].
    match goal with
    | |- context [if ?b then Ret _ _ _ else _] => destruct b
    end.
    + match goal with
      | |- shaped _ (Ret _ ?c0 _) _ _ => refused c0
      end.
    + match goal with
      | |- shaped _ (updateBody _ _ _ ?c0 _) _ _ => updated c0
      end.
Qed.

Lemma step_shaped k c w : shaped E (step E k c w) c w.
Proof.
  destruct k; cbn [step].
  - apply appendRune_shaped.
  - apply backspace_shaped.
  - apply spliceText_shaped.
Qed.

End Shape.

Lemma sameFrame_trans c1 c2 c3 :
  sameFrame c1 c2 -> sameFrame c2 c3 -> sameFrame c1 c3.
Proof.
  unfold sameFrame. intros (a1 & a2 & a3 & a4 & a5 & a6)
    (b1 & b2 & b3 & b4 & b5 & b6).
  repeat split; congruence.
Qed.

(** X3. A text operation that returns [nil] has sent exactly one message
    to the feed, a [SetOpenBody] with the body the client now holds, and has
    written that same body to the store: after every accepted operation the
    feed's copy, the store's copy and the client's buffer agree. *)
Theorem accepted_update_mirrors {DB Command Image}
  (E : Env DB Command Image) k (c c' : Client) (w w' : World DB Image) :
  step E k c w = Ret None c' w' ->
  exists msg,
    feed w' = feed w ++ [FeedSetOpenBody (id (post c')) (body (post c')) msg]
    /\ SetOpenBody E (id (post c')) (body (post c')) (store w)
       = (None, store w').
Proof.
  intros H. destruct (step_shaped E k c w) as [P|(c0 & _ & [[e R]|(m & n & U)])].
  - rewrite P in H. discriminate H.
  - rewrite R in H. discriminate H.
  - rewrite U in H. unfold updateBody in H.
    cbn [store feedCall incrementSpamScore IncrementSpamScore] in H.
    destruct (SetOpenBody E (id (post c0)) (body (post c0)) (store w))
      as [e d] eqn:S.
    injection H as -> <- <-. exists m. split; [reflexivity|].
    exact S.
Qed.

Lemma accepted_update_mirrors_witness :
  exists msg,
    feed (snd euroAppended)
    = feed world0
      ++ [FeedSetOpenBody 101 (bytesOf "hello" ++ [0xE2; 0x82; 0xAC]) msg].
Proof.
  destruct (accepted_update_mirrors memEnv (CallAppendRune (inr 0x20AC))
              (clientOf (postOf "hello")) (fst euroAppended) world0
              (snd euroAppended) eq_refl) as (msg & F & _).
  exists msg. exact F.
Defined.

(** X4. A text operation that returns an error has left the world as it
    was (nothing sent, nothing scored, nothing stored), unless the error is
    the store's own answer to the write of the open body. *)
Theorem refused_update_untouched {DB Command Image}
  (E : Env DB Command Image) k (c c' : Client) (w w' : World DB Image) e :
  step E k c w = Ret (Some e) c' w' ->
  w' = w
  \/ fst (SetOpenBody E (id (post c')) (body (post c')) (store w)) = Some e.
Proof.
  intros H. destruct (step_shaped E k c w) as [P|(c0 & _ & [[e0 R]|(m & n & U)])].
  - rewrite P in H. discriminate H.
  - rewrite R in H. injection H as _ _ <-. now left.
  - rewrite U in H. unfold updateBody in H.
    cbn [store feedCall incrementSpamScore IncrementSpamScore] in H.
    destruct (SetOpenBody E (id (post c0)) (body (post c0)) (store w))
      as [e1 d] eqn:S.
    injection H as -> <- _. right. now rewrite S.
Qed.

Lemma refused_update_untouched_witness :
  snd (after (step memEnv (CallAppendRune (inr 0)) (clientOf (postOf "hi"))
                world0)) = world0
  \/ fst (SetOpenBody memEnv 101 (bytesOf "hi") (store world0))
     = Some ErrContainsNull.
Proof.
  apply (refused_update_untouched memEnv (CallAppendRune (inr 0))
           (clientOf (postOf "hi")) (clientOf (postOf "hi")) world0 _
           ErrContainsNull).
  reflexivity.
Defined.

(** X5. Whatever text operations are called and whatever they return, the
    post keeps its id, thread, board and spoiler flag, and the client its
    address and captcha session. *)
Theorem text_calls_keep_frame {DB Command Image}
  (E : Env DB Command Image) ks : forall (c c' : Client)
  (w w' : World DB Image) e,
  run E ks c w = Ret e c' w' -> sameFrame c c'.
Proof.
  induction ks as [|k ks IH]; intros c c' w w' e H.
  - cbn in H. injection H as _ <- _. repeat split.
  - cbn [run] in H.
    destruct (step_shaped E k c w) as [P|(c0 & F & [[e0 R]|(m & n & U)])].
    + rewrite P in H. discriminate H.
    + rewrite R in H. apply IH in H. eapply sameFrame_trans; eauto.
    + rewrite U in H. destruct (updateBody_ret E m n c0 w) as (e1 & d & U').
      rewrite U' in H. apply IH in H. eapply sameFrame_trans; eauto.
Qed.

Lemma text_calls_keep_frame_witness :
  sameFrame (clientOf (postOf "hello"))
    (fst (after (run memEnv helloCalls (clientOf (postOf "hello")) world0))).
Proof.
  apply (text_calls_keep_frame memEnv helloCalls (clientOf (postOf "hello"))
           _ world0
           (snd (after (run memEnv helloCalls (clientOf (postOf "hello"))
                          world0))) None).
  vm_compute. reflexivity.
Defined.

End text_extras.
(** ** Accepted operations on a valid post *)

Module valid_extras.
Import utf8 utf8_checks utf8_facts buffer_facts websockets text_facts
  post_claims append_claims splice_claims invariant_claims memstore extras
  text_extras.

Section Valid.
Context {DB Command Image : Type}.
Variable E : Env DB Command Image.
Hypothesis HE : envOK E.

Lemma validPost_of_runes p rs :
  id p <> 0 -> Forall is_rune rs -> ~ In 0 rs ->
  body p = encodeRunes rs -> len p = lenof rs ->
  lenof rs <= MaxLenBody E ->
  lines p = lenof (filter (Z.eqb 10) rs) ->
  lines p <= MaxLinesBody E ->
  validPost E p.
Proof.
  intros Hid F N B L M Hl Hm.
  repeat split; try assumption; try lia.
  - rewrite B. now apply wellFormed_encodeRunes.
  - rewrite B, decodeRunes_encodeRunes, len_map by assumption. exact L.
  - rewrite B. intros I. apply N. now apply nul_encodeRunes.
  - rewrite B, decodeRunes_encodeRunes, newlines_norm by assumption.
    exact Hl.
Qed.

Lemma validPost_runes p :
  validPost E p ->
  let rs := decodeRunes (body p) in
  id p <> 0 /\ forallb validRune rs = true /\ ~ In 0 rs
  /\ body p = encodeRunes rs /\ len p = lenof rs
  /\ 0 <= len p <= MaxLenBody E
  /\ lines p = lenof (filter (Z.eqb 10) rs)
  /\ 0 <= lines p <= MaxLinesBody E.
Proof.
  intros (Hid & T & M & Hl & Hm). cbv zeta.
  pose proof (textOK_repr _ T) as (V & B & L & N).
  pose proof (len_nonneg (decodeRunes (body p))).
  pose proof (len_nonneg (filter (Z.eqb 10) (decodeRunes (body p)))).
  repeat split; auto; lia.
Qed.

(** What [appendRune] does with a rune on a valid post. *)
Lemma appendRune_valid (c : Client) (w : World DB Image) r :
  validPost E (post c) -> is_rune r ->
  appendRune E (inr r) c w
  = if len (post c) + 1 >? MaxLenBody E then Ret (Some ErrBodyTooLong) c w
    else if r =? 0 then Ret (Some ErrContainsNull) c w
    else if (r =? 10) && (lines (post c) + 1 >? MaxLinesBody E)
    then Ret (Some errTooManyLines)
             (setPost c (setLines (post c) (lines (post c) + 1))) w
    else
    match IsPrintable E r true with
    | Some e =>
        Ret (Some e)
            (setPost c (if r =? 10
                        then setLines (post c) (lines (post c) + 1)
                        else post c)) w
    | None =>
        updateBody E (MessageAppend (id (post c)) (uint r)) 1
                   (setPost c (appended (post c) r)) w
    end.
Proof.
  intros HV Hr.
  pose proof (validPost_runes _ HV) as (Hid & _ & _ & _ & _ & Hl & _ & Hn).
  destruct HE as [[M0 M1] [N0 N1]].
  assert (P31 : 2 ^ 31 = 2147483648) by reflexivity.
  assert (P63 : 2 ^ 63 = 9223372036854775808) by reflexivity.
  unfold appendRune, appended. rewrite (hasPost_open c Hid). cbn [negb].
  rewrite (int_id (len (post c) + 1)) by lia.
  destruct (len (post c) + 1 >? MaxLenBody E); [reflexivity|].
  destruct (r =? 0); [reflexivity|].
  destruct (r =? 10); cbn [andb lines setLines body len id setBody setLen].
  - rewrite (int_id (lines (post c) + 1)) by lia.
    destruct (lines (post c) + 1 >? MaxLinesBody E); [reflexivity|].
    destruct (IsPrintable E r true); [reflexivity|].
    unfold setLen, setBody, setLines.
    cbn [isSpoilered len lines id op body board].
    rewrite (int_id (len (post c) + 1)) by lia. reflexivity.
  - destruct (IsPrintable E r true); [reflexivity|].
    unfold setLen, setBody.
    cbn [isSpoilered len lines id op body board].
    rewrite (int_id (len (post c) + 1)) by lia.
    rewrite Z.add_0_r. reflexivity.
Qed.

Lemma validPost_appended p r :
  validPost E p -> is_rune r -> r <> 0 ->
  len p + 1 <= MaxLenBody E ->
  lines p + (if r =? 10 then 1 else 0) <= MaxLinesBody E ->
  validPost E (appended p r).
Proof.
  intros HV Hr Hr0 Hlen Hlines.
  pose proof (validPost_runes _ HV) as (Hid & V & N & B & L & Hl & Hc & Hn).
  apply (validPost_of_runes _ (decodeRunes (body p) ++ [r]));
    cbn [appended id body len lines].
  - exact Hid.
  - apply Forall_app. split; [now apply Forall_valid_is_rune|].
    now constructor.
  - rewrite in_app_iff. cbn [In]. intuition.
  - rewrite encodeRunes_app. cbn [encodeRunes]. rewrite app_nil_r.
    now rewrite <- B.
  - rewrite len_app. list_norm. lia.
  - rewrite len_app. list_norm. lia.
  - rewrite filter_app, len_app. cbn [filter]. rewrite (Z.eqb_sym 10 r).
    rewrite <- Hc. destruct (r =? 10); len_lia.
  - exact Hlines.
Qed.

(** What [backspace] does on a valid post. *)
Lemma backspace_valid (c : Client) (w : World DB Image) :
  validPost E (post c) ->
  backspace E c w
  = if len (post c) =? 0 then Ret (Some errEmptyPost) c w
    else updateBody E (MessageBackspace (id (post c))) 1
                    (setPost c (chopped (post c))) w.
Proof.
  intros HV.
  pose proof (validPost_runes _ HV) as (Hid & V & N & B & L & Hl & Hc & Hn).
  destruct HE as [[M0 M1] [N0 N1]].
  assert (P31 : 2 ^ 31 = 2147483648) by reflexivity.
  assert (P63 : 2 ^ 63 = 9223372036854775808) by reflexivity.
  unfold backspace. rewrite (hasPost_open c Hid). cbn [negb].
  destruct (Z.eqb_spec (len (post c)) 0) as [|Hn0]; [reflexivity|].
  unfold chopped.
  destruct (exists_last (l := decodeRunes (body (post c)))) as (rs & r & Hrs).
  { intros Hnil. rewrite Hnil in L. cbn in L. contradiction. }
  rewrite Hrs in *. rewrite removelast_last, last_last.
  rewrite forallb_app in V. apply andb_true_iff in V as [Vrs Vr].
  cbn [forallb] in Vr. rewrite andb_true_r in Vr.
  rewrite encodeRunes_app in B. cbn [encodeRunes] in B.
  rewrite app_nil_r in B.
  rewrite B, DecodeLastRune_encode by now apply validRune_is_rune.
  rewrite len_app.
  replace (lenof (encodeRunes rs) + lenof (encodeRune r)
           - lenof (encodeRune r)) with (lenof (encodeRunes rs)) by lia.
  rewrite slice_app_l, norm_of_valid by assumption.
  rewrite filter_app, len_app in Hc. cbn [filter] in Hc.
  rewrite (Z.eqb_sym 10 r) in Hc.
  pose proof (len_nonneg (filter (Z.eqb 10) rs)).
  unfold setLen, setLines, setBody.
  destruct (r =? 10); cbn [isSpoilered len lines id op body board];
    list_norm; rewrite ?int_id by lia; rewrite ?Z.sub_0_r; reflexivity.
Qed.

Lemma validPost_chopped p :
  validPost E p -> len p <> 0 -> validPost E (chopped p).
Proof.
  intros HV Hn0.
  pose proof (validPost_runes _ HV) as (Hid & V & N & B & L & Hl & Hc & Hn).
  destruct (exists_last (l := decodeRunes (body p))) as (rs & r & Hrs).
  { intros Hnil. rewrite Hnil in L. cbn in L. contradiction. }
  unfold chopped. rewrite Hrs in *. rewrite removelast_last, last_last.
  rewrite forallb_app in V. apply andb_true_iff in V as [Vrs _].
  rewrite len_app in L. list_norm.
  rewrite filter_app, len_app in Hc. cbn [filter] in Hc.
  rewrite (Z.eqb_sym 10 r) in Hc.
  pose proof (len_nonneg rs).
  apply (validPost_of_runes _ rs); cbn [id body len lines].
  - exact Hid.
  - now apply Forall_valid_is_rune.
  - intros I. apply N. apply in_app_iff. now left.
  - reflexivity.
  - lia.
  - lia.
  - destruct (r =? 10); len_lia.
  - destruct (r =? 10); len_lia.
Qed.

(** What [spliceText] does with a request on a valid post, in terms of the
    new text [spliced] and of the message [splicedMessage]. *)
Lemma spliceText_valid (c : Client) (w : World DB Image) req :
  id (post c) <> 0 -> textInv E (post c) ->
  callOK (CallSpliceText (inr req)) ->
  spliceText E (inr req) c w
  = let s := Start (coords req) in
    let l := Len (coords req) in
    let t := Text req in
    match IsPrintableRunes E t true with
    | Some e => Ret (Some e) c w
    | None =>
    if (s >? MaxLenBody E) || (l >? MaxLenBody E) || (s + l >? len (post c))
    then Ret (Some (errInvalidSpliceCoords (body (post c))
                      {| srs_coords := {| Start := s; Len := l |};
                         srs_Text := encodeRunes t |})) c w
    else if (l =? 0) && (lenof t =? 0) then Ret (Some errSpliceNOOP) c w
    else if lenof t >? MaxLenBody E then Ret (Some errSpliceTooLong) c w
    else if existsb (Z.eqb 0) t then Ret (Some ErrContainsNull) c w
    else
    let p := countLines (setBody (setLen (post c) (lenof (spliced E c req)))
                                 (encodeRunes (spliced E c req))) in
    if lines p >? MaxLinesBody E
    then Ret (Some errTooManyLines) (setPost c p) w
    else updateBody E (MessageSplice (splicedMessage E c req))
           (lenof (srs_Text (sm_request (splicedMessage E c req))) + 1)
           (setPost c p) w
    end.
Proof.
  intros Hid [T Hmax] Hreq.
  pose proof (textOK_repr _ T) as R.
  rewrite (spliceText_runes E HE c w req _ Hid R Hmax Hreq). cbv zeta.
  destruct Hreq as (Hs & Hl & Ht).
  destruct R as (V & B & L & N).
  pose proof (len_nonneg (decodeRunes (body (post c)))) as Lrs.
  pose proof (len_nonneg (Text req)) as Lt.
  destruct HE as [[M0 M1] _].
  destruct (IsPrintableRunes E (Text req) true); [reflexivity|].
  destruct (Z.gtb_spec (Start (coords req)) (MaxLenBody E)); [reflexivity|].
  destruct (Z.gtb_spec (Len (coords req)) (MaxLenBody E)); [reflexivity|].
  destruct (Z.gtb_spec (Start (coords req) + Len (coords req))
              (len (post c))); [reflexivity|].
  cbn [orb].
  destruct ((Len (coords req) =? 0) && (lenof (Text req) =? 0));
    [reflexivity|].
  destruct (Z.gtb_spec (lenof (Text req)) (MaxLenBody E)); [reflexivity|].
  destruct (existsb (Z.eqb 0) (Text req)) eqn:Hz; [reflexivity|].
  rewrite trim_whole by lia.
  change (tailTrim (MaxLenBody E)
            (firstn (Z.to_nat (Start (coords req)))
               (decodeRunes (body (post c)))
             ++ Text req
             ++ skipn (Z.to_nat (Start (coords req) + Len (coords req)))
                  (decodeRunes (body (post c)))))
    with (spliced E c req).
  assert (Hmsg :
    (if len (post c) - Len (coords req) + lenof (Text req) >? MaxLenBody E
     then {| ID := id (post c);
             sm_request :=
               {| srs_coords :=
                    {| Start := Start (coords req);
                       Len := len (post c) - Start (coords req) |};
                  srs_Text :=
                    encodeRunes
                      (firstn (Z.to_nat (MaxLenBody E - Start (coords req)))
                         (Text req
                          ++ skipn (Z.to_nat (Start (coords req)
                                              + Len (coords req)))
                               (decodeRunes (body (post c))))) |} |}
     else {| ID := id (post c);
             sm_request := {| srs_coords := coords req;
                              srs_Text := encodeRunes (Text req) |} |})
    = splicedMessage E c req).
  { unfold splicedMessage. cbv zeta.
    assert (Hend :
      lenof (Text req
             ++ skipn (Z.to_nat (Start (coords req) + Len (coords req)))
                  (decodeRunes (body (post c))))
      = lenof (Text req) + lenof (decodeRunes (body (post c)))
        - Start (coords req) - Len (coords req)).
    { rewrite len_app, len_skipn by lia. lia. }
    destruct (Z.gtb_spec (len (post c) - Len (coords req)
                          + lenof (Text req)) (MaxLenBody E));
      destruct (Z.gtb_spec (len (post c) - Len (coords req)
                            + lenof (Text req) - MaxLenBody E) 0);
      try lia; [|reflexivity].
    rewrite Hend. do 4 f_equal. f_equal. lia. }
  rewrite Hmsg. reflexivity.
Qed.

Lemma spliced_runes (c : Client) req :
  textInv E (post c) -> callOK (CallSpliceText (inr req)) ->
  existsb (Z.eqb 0) (Text req) = false ->
  Forall is_rune (spliced E c req) /\ ~ In 0 (spliced E c req)
  /\ lenof (spliced E c req) <= MaxLenBody E.
Proof.
  intros [T Hmax] (_ & _ & Ht) Hz.
  pose proof (textOK_repr _ T) as (V & B & L & N).
  destruct HE as [[M0 M1] _].
  unfold spliced, tailTrim, spliceRunes. repeat split.
  - apply Forall_firstn_. rewrite !Forall_app. repeat split.
    + apply Forall_firstn_. now apply Forall_valid_is_rune.
    + exact Ht.
    + apply Forall_skipn_. now apply Forall_valid_is_rune.
  - intros I. apply in_firstn in I. rewrite !in_app_iff in I.
    destruct I as [I|[I|I]].
    + apply N. eapply in_firstn; eauto.
    + rewrite <- not_true_iff_false, existsb_exists in Hz.
      apply Hz. exists 0. split; auto.
    + apply N. eapply in_skipn; eauto.
  - unfold lenof. rewrite length_firstn. lia.
Qed.

Lemma validPost_spliced (c : Client) req :
  validPost E (post c) -> callOK (CallSpliceText (inr req)) ->
  existsb (Z.eqb 0) (Text req) = false ->
  let p := countLines (setBody (setLen (post c) (lenof (spliced E c req)))
                               (encodeRunes (spliced E c req))) in
  lines p <= MaxLinesBody E -> validPost E p.
Proof.
  intros HV Hreq Hz p Hlines.
  destruct (spliced_runes c req (validPost_textInv E _ HV) Hreq Hz)
    as (F & N & M).
  destruct HV as (Hid & _).
  apply (validPost_of_runes _ (spliced E c req)); try assumption;
    try reflexivity.
  subst p. cbn [countLines setLines setBody setLen lines body].
  now apply newlines_encodeRunes.
Qed.

End Valid.

(** X7. An accepted text operation keeps a valid open post valid, the
    line count included: after a call that returned [nil], [lines] is the
    number of newlines of the body and within [MaxLinesBody], [len] is the
    number of runes and within [MaxLenBody], and the body is well-formed
    UTF-8 without NUL. *)
Theorem accepted_keeps_valid {DB Command Image} (E : Env DB Command Image)
  k (c c' : Client) (w w' : World DB Image) :
  envOK E -> validPost E (post c) -> callOK k ->
  step E k c w = Ret None c' w' ->
  validPost E (post c').
Proof.
  intros HE HV Hk H.
  pose proof (validPost_runes E _ HV) as (Hid & _ & _ & _ & _ & Hl & _ & Hn).
  destruct k as [[e|r]| |[e|req]]; cbn [step callOK] in *.
  - unfold appendRune in H. rewrite (hasPost_open c Hid) in H.
    cbn [negb] in H.
    destruct (_ >? _); discriminate H.
  - rewrite (appendRune_valid E HE c w r HV Hk) in H.
    destruct (Z.gtb_spec (len (post c) + 1) (MaxLenBody E));
      [discriminate H|].
    destruct (Z.eqb_spec r 0); [discriminate H|].
    destruct (Z.eqb_spec r 10) as [Hnl|Hnl]; cbn [andb] in H.
    + destruct (Z.gtb_spec (lines (post c) + 1) (MaxLinesBody E));
        [discriminate H|].
      destruct (IsPrintable E r true); [discriminate H|].
      destruct (updateBody_ret E (MessageAppend (id (post c)) (uint r)) 1
                  (setPost c (appended (post c) r)) w) as (e & d & U).
      rewrite U in H. injection H as _ <- _. cbn [post setPost].
      apply validPost_appended; auto; try lia.
      subst r. cbn. lia.
    + destruct (IsPrintable E r true); [discriminate H|].
      destruct (updateBody_ret E (MessageAppend (id (post c)) (uint r)) 1
                  (setPost c (appended (post c) r)) w) as (e & d & U).
      rewrite U in H. injection H as _ <- _. cbn [post setPost].
      apply validPost_appended; auto; try lia.
      destruct (Z.eqb_spec r 10); [contradiction | lia].
  - rewrite (backspace_valid E HE c w HV) in H.
    destruct (Z.eqb_spec (len (post c)) 0); [discriminate H|].
    destruct (updateBody_ret E (MessageBackspace (id (post c))) 1
                (setPost c (chopped (post c))) w) as (e & d & U).
    rewrite U in H. injection H as _ <- _. cbn [post setPost].
    now apply validPost_chopped.
  - unfold spliceText in H. rewrite (hasPost_open c Hid) in H.
    discriminate H.
  - rewrite (spliceText_valid E HE c w req Hid
               (validPost_textInv E _ HV) Hk) in H.
    cbv zeta in H.
    destruct (IsPrintableRunes E (Text req) true); [discriminate H|].
    destruct (_ || _ || _); [discriminate H|].
    destruct (_ && _); [discriminate H|].
    destruct (lenof (Text req) >? MaxLenBody E); [discriminate H|].
    destruct (existsb (Z.eqb 0) (Text req)) eqn:Hz; [discriminate H|].
    match type of H with
    | (if ?a >? ?b then _ else _) = _ => destruct (Z.gtb_spec a b)
    end; [discriminate H|].
    match type of H with
    | updateBody E ?m ?n ?c0 w = _ =>
        destruct (updateBody_ret E m n c0 w) as (e & d & U)
    end.
    rewrite U in H. injection H as _ <- _. cbn [post setPost].
    now apply validPost_spliced.
Qed.

Lemma accepted_keeps_valid_witness :
  validPost memEnv (post (fst euroAppended)).
Proof.
  apply (accepted_keeps_valid memEnv (CallAppendRune (inr 0x20AC))
           (clientOf (postOf "hello")) (fst euroAppended) world0
           (snd euroAppended)).
  - apply envOKb_spec. reflexivity.
  - apply validPostb_spec. reflexivity.
  - unfold callOK, is_rune. lia.
  - reflexivity.
Defined.

End valid_extras.
(** ** How the text operations compose *)

Module compose_extras.
Import utf8 utf8_checks utf8_facts buffer_facts websockets text_facts
  post_claims append_claims splice_claims invariant_claims memstore extras
  text_extras valid_extras.

(** X8. On a valid open post [appendRune] accepts a rune exactly when the
    body has room for it, the rune is not NUL, a newline does not exceed
    [MaxLinesBody], [parser.IsPrintable] accepts it and the store takes the
    new body; the client then holds the old body followed by the UTF-8
    bytes of the rune, with [len] one higher and [lines] one higher for a
    newline. *)
Theorem appendRune_accepted_iff {DB Command Image}
  (E : Env DB Command Image) (c : Client) (w : World DB Image) r :
  envOK E -> validPost E (post c) -> is_rune r ->
  ((exists c' w', appendRune E (inr r) c w = Ret None c' w')
   <-> len (post c) + 1 <= MaxLenBody E
       /\ r <> 0
       /\ (r = 10 -> lines (post c) + 1 <= MaxLinesBody E)
       /\ IsPrintable E r true = None
       /\ fst (SetOpenBody E (id (post c)) (body (post c) ++ encodeRune r)
                 (store w)) = None)
  /\ (forall c' w', appendRune E (inr r) c w = Ret None c' w' ->
      c' = setPost c (appended (post c) r)).
Proof.
  intros HE HV Hr. rewrite (appendRune_valid E HE c w r HV Hr).
  destruct (Z.gtb_spec (len (post c) + 1) (MaxLenBody E)).
  { split; [split|]; [intros (? & ? & X); discriminate X | lia
                     | intros ? ? X; discriminate X]. }
  destruct (Z.eqb_spec r 0).
  { split; [split|]; [intros (? & ? & X); discriminate X | tauto
                     | intros ? ? X; discriminate X]. }
  assert (Hnl : (r =? 10) && (lines (post c) + 1 >? MaxLinesBody E) = true
                <-> ~ (r = 10 -> lines (post c) + 1 <= MaxLinesBody E)).
  { destruct (Z.eqb_spec r 10);
      destruct (Z.gtb_spec (lines (post c) + 1) (MaxLinesBody E));
      cbn [andb]; split; try discriminate; try lia; intros X; exfalso;
      apply X; intros; lia. }
  destruct ((r =? 10) && (lines (post c) + 1 >? MaxLinesBody E)).
  { split; [split|]; [intros (? & ? & X); discriminate X
                     | intros (_ & _ & X & _); now apply Hnl in X
                     | intros ? ? X; discriminate X]. }
  assert (Hok : r = 10 -> lines (post c) + 1 <= MaxLinesBody E).
  { destruct (Z.eqb_spec r 10) as [->|];
      [|intros; contradiction].
    intros _. destruct (Z_le_gt_dec (lines (post c) + 1) (MaxLinesBody E));
      [assumption|]. exfalso.
    assert (X : false = true); [|discriminate X].
    apply Hnl. intros Y. specialize (Y eq_refl). lia. }
  destruct (IsPrintable E r true).
  { split; [split|]; [intros (? & ? & X); discriminate X
                     | intros (_ & _ & _ & X & _); discriminate X
                     | intros ? ? X; discriminate X]. }
  unfold updateBody.
  cbn [post setPost appended id body store feedCall incrementSpamScore
       IncrementSpamScore].
  destruct (SetOpenBody E (id (post c)) (body (post c) ++ encodeRune r)
              (store w)) as [[e|] d]; cbn [fst].
  - split; [split|]; [intros (? & ? & X); discriminate X
                     | intros (_ & _ & _ & _ & X); discriminate X
                     | intros ? ? X; discriminate X].
  - split; [split|].
    + intros _. repeat split; auto; lia.
    + intros _. do 2 eexists. reflexivity.
    + intros c' w' X. now injection X as <- _.
Qed.

Lemma appendRune_accepted_iff_witness :
  exists c' w',
    appendRune memEnv (inr 0x20AC) (clientOf (postOf "hello")) world0
    = Ret None c' w'.
Proof.
  refine (proj2 (proj1 (appendRune_accepted_iff memEnv
            (clientOf (postOf "hello")) world0 0x20AC _ _ _)) _).
  - apply envOKb_spec. reflexivity.
  - apply validPostb_spec. reflexivity.
  - unfold is_rune. lia.
  - split; [vm_compute; discriminate|].
    split; [discriminate|].
    split; [intros X; discriminate X|].
    split; reflexivity.
Defined.

Section Compose.
Context {DB Command Image : Type}.
Variable E : Env DB Command Image.
Hypothesis HE : envOK E.

Lemma backspaces_from n : forall (c : Client) (w : World DB Image),
  validPost E (post c) -> len (post c) = Z.of_nat n ->
  exists c' w',
    run E (repeat CallBackspace n) c w = Ret None c' w'
    /\ validPost E (post c') /\ len (post c') = 0.
Proof.
  induction n as [|n IH]; intros c w HV Hn.
  - exists c, w. split; [reflexivity | split; [assumption | exact Hn]].
  - cbn [repeat run step]. rewrite (backspace_valid E HE c w HV).
    destruct (Z.eqb_spec (len (post c)) 0); [lia|].
    destruct (updateBody_ret E (MessageBackspace (id (post c))) 1
                (setPost c (chopped (post c))) w) as (e & d & ->).
    apply IH.
    + cbn [post setPost]. now apply validPost_chopped.
    + cbn [post setPost chopped len]. lia.
Qed.

End Compose.

(** X9. As many calls of [backspace] as a valid open post has runes leave
    it with an empty body, [len] 0 and [lines] 0; the next [backspace]
    returns "post body empty" and changes nothing. *)
Theorem backspaces_empty_post {DB Command Image}
  (E : Env DB Command Image) (c : Client) (w : World DB Image) :
  envOK E -> validPost E (post c) ->
  exists c' w',
    run E (repeat CallBackspace (Z.to_nat (len (post c)))) c w
    = Ret None c' w'
    /\ body (post c') = [] /\ len (post c') = 0 /\ lines (post c') = 0
    /\ backspace E c' w' = Ret (Some errEmptyPost) c' w'.
Proof.
  intros HE HV.
  pose proof (validPost_runes E _ HV) as (_ & _ & _ & _ & _ & Hl & _).
  destruct (backspaces_from E HE (Z.to_nat (len (post c))) c w HV)
    as (c' & w' & R & HV' & L0); [lia|].
  exists c', w'. split; [exact R|].
  pose proof (validPost_runes E _ HV') as (_ & _ & _ & B & L & _ & Hc & _).
  assert (Hnil : decodeRunes (body (post c')) = []).
  { destruct (decodeRunes (body (post c'))); [reflexivity|].
    rewrite L0 in L. list_norm. pose proof (len_nonneg l). lia. }
  rewrite Hnil in B, Hc. repeat split; try assumption.
  rewrite (backspace_valid E HE c' w' HV'), L0. reflexivity.
Qed.

Lemma backspaces_empty_post_witness :
  exists c' w',
    run memEnv (repeat CallBackspace 5) (clientOf (postOf "hello")) world0
    = Ret None c' w'
    /\ body (post c') = [].
Proof.
  destruct (backspaces_empty_post memEnv (clientOf (postOf "hello")) world0)
    as (c' & w' & R & B & _).
  - apply envOKb_spec. reflexivity.
  - apply validPostb_spec. reflexivity.
  - exists c', w'. split; [exact R | exact B].
Defined.

End compose_extras.
(** ** Accepted splices *)

Module splice_extras.
Import utf8 utf8_checks utf8_facts buffer_facts websockets text_facts
  post_claims append_claims splice_claims invariant_claims memstore extras
  text_extras valid_extras.

Lemma firstn_exact {A} (a b : list A) n :
  n = length a -> firstn n (a ++ b) = a.
Proof.
  intros ->. rewrite firstn_app, firstn_all, Nat.sub_diag.
  cbn [firstn]. apply app_nil_r.
Qed.

Lemma skipn_exact {A} (a b : list A) n :
  n = length a -> skipn n (a ++ b) = b.
Proof.
  intros ->. rewrite skipn_app, skipn_all, Nat.sub_diag. reflexivity.
Qed.

(** Putting back the runes a splice replaced gives the old runes. *)
Lemma spliceRunes_back (B t t' : list Z) s l :
  0 <= s -> 0 <= l -> s + l <= lenof B -> lenof t' = lenof t ->
  spliceRunes (spliceRunes B s l t') s (lenof t)
    (firstn (Z.to_nat l) (skipn (Z.to_nat s) B)) = B.
Proof.
  intros Hs Hl Hb Ht. unfold spliceRunes, lenof in *.
  rewrite firstn_exact by (rewrite length_firstn; lia).
  rewrite (app_assoc (firstn (Z.to_nat s) B) t').
  rewrite (skipn_exact (firstn (Z.to_nat s) B ++ t'))
    by (rewrite length_app, length_firstn; lia).
  replace (Z.to_nat (s + l)) with (Z.to_nat l + Z.to_nat s)%nat by lia.
  rewrite <- skipn_skipn, firstn_skipn. apply firstn_skipn.
Qed.

Section Accepted.
Context {DB Command Image : Type}.
Variable E : Env DB Command Image.
Hypothesis HE : envOK E.

(** What an accepted splice has passed, and what it leaves. *)
Lemma spliceText_accepted (c c' : Client) (w w' : World DB Image) req :
  validPost E (post c) -> callOK (CallSpliceText (inr req)) ->
  spliceText E (inr req) c w = Ret None c' w' ->
  let p := countLines (setBody (setLen (post c) (lenof (spliced E c req)))
                               (encodeRunes (spliced E c req))) in
  Start (coords req) + Len (coords req) <= len (post c)
  /\ (Len (coords req) =? 0) && (lenof (Text req) =? 0) = false
  /\ lenof (Text req) <= MaxLenBody E
  /\ existsb (Z.eqb 0) (Text req) = false
  /\ lines p <= MaxLinesBody E
  /\ c' = setPost c p
  /\ updateBody E (MessageSplice (splicedMessage E c req))
       (lenof (srs_Text (sm_request (splicedMessage E c req))) + 1)
       (setPost c p) w = Ret None c' w'.
Proof.
  intros HV Hk H p.
  pose proof (validPost_runes E _ HV) as (Hid & _).
  rewrite (spliceText_valid E HE c w req Hid (validPost_textInv E _ HV) Hk)
    in H.
  cbv zeta in H. fold p in H.
  destruct (IsPrintableRunes E (Text req) true); [discriminate H|].
  destruct (Z.gtb_spec (Start (coords req)) (MaxLenBody E));
    [discriminate H|].
  destruct (Z.gtb_spec (Len (coords req)) (MaxLenBody E));
    [discriminate H|].
  destruct (Z.gtb_spec (Start (coords req) + Len (coords req))
              (len (post c))); [discriminate H|].
  cbn [orb] in H.
  destruct ((Len (coords req) =? 0) && (lenof (Text req) =? 0));
    [discriminate H|].
  destruct (Z.gtb_spec (lenof (Text req)) (MaxLenBody E));
    [discriminate H|].
  destruct (existsb (Z.eqb 0) (Text req)); [discriminate H|].
  destruct (Z.gtb_spec (lines p) (MaxLinesBody E)); [discriminate H|].
  repeat split; try assumption.
  destruct (updateBody_ret E (MessageSplice (splicedMessage E c req))
              (lenof (srs_Text (sm_request (splicedMessage E c req))) + 1)
              (setPost c p) w) as (e & d & U).
  rewrite U in H. now injection H as _ <- _.
Qed.

(** A request that passes the checks ends with [updateBody]. *)
Lemma spliceText_passes (c : Client) (w : World DB Image) req :
  validPost E (post c) -> callOK (CallSpliceText (inr req)) ->
  let p := countLines (setBody (setLen (post c) (lenof (spliced E c req)))
                               (encodeRunes (spliced E c req))) in
  IsPrintableRunes E (Text req) true = None ->
  Start (coords req) <= MaxLenBody E ->
  Len (coords req) <= MaxLenBody E ->
  Start (coords req) + Len (coords req) <= len (post c) ->
  (Len (coords req) =? 0) && (lenof (Text req) =? 0) = false ->
  lenof (Text req) <= MaxLenBody E ->
  existsb (Z.eqb 0) (Text req) = false ->
  lines p <= MaxLinesBody E ->
  spliceText E (inr req) c w
  = updateBody E (MessageSplice (splicedMessage E c req))
      (lenof (srs_Text (sm_request (splicedMessage E c req))) + 1)
      (setPost c p) w.
Proof.
  intros HV Hk p Hp Hs Hl Hsl Hn Ht Hz Hlines.
  pose proof (validPost_runes E _ HV) as (Hid & _).
  rewrite (spliceText_valid E HE c w req Hid (validPost_textInv E _ HV) Hk).
  cbv zeta. fold p. rewrite Hp, Hn, Hz.
  destruct (Z.gtb_spec (Start (coords req)) (MaxLenBody E)); [lia|].
  destruct (Z.gtb_spec (Len (coords req)) (MaxLenBody E)); [lia|].
  destruct (Z.gtb_spec (Start (coords req) + Len (coords req))
              (len (post c))); [lia|].
  destruct (Z.gtb_spec (lenof (Text req)) (MaxLenBody E)); [lia|].
  destruct (Z.gtb_spec (lines p) (MaxLinesBody E)); [lia|].
  reflexivity.
Qed.

(** The text of the message of a splice is far below the range of
    [uint]. *)
Lemma splicedMessage_bytes (c : Client) req :
  validPost E (post c) -> callOK (CallSpliceText (inr req)) ->
  Start (coords req) + Len (coords req) <= len (post c) ->
  lenof (Text req) <= MaxLenBody E ->
  0 <= lenof (srs_Text (sm_request (splicedMessage E c req))) < 2 ^ 34.
Proof.
  intros HV (Hs & Hl & Ht) Hsl Hmax.
  pose proof (validPost_runes E _ HV) as (_ & V & _ & _ & L & Hlen & _).
  destruct HE as [[M0 M1] _].
  assert (P31 : 2 ^ 31 = 2147483648) by reflexivity.
  assert (P34 : 2 ^ 34 = 17179869184) by reflexivity.
  pose proof (len_nonneg (Text req)).
  unfold splicedMessage. cbv zeta.
  destruct (_ >? 0); cbn [sm_request srs_Text].
  - match goal with
    | |- context [encodeRunes ?x] =>
        assert (F : Forall is_rune x);
        [| pose proof (len_encodeRunes_bound x F);
           assert (lenof x <= lenof (Text req) + len (post c)) ]
    end.
    + apply Forall_firstn_, Forall_app. split; [assumption|].
      now apply Forall_skipn_, Forall_valid_is_rune.
    + unfold lenof. rewrite length_firstn, length_app, length_skipn.
      unfold lenof in L. lia.
    + lia.
  - pose proof (len_encodeRunes_bound _ Ht). lia.
Qed.

End Accepted.

(** X10. What an accepted operation adds to the spam score: [CharScore]
    for an append or a backspace, and for a splice [CharScore] times the
    number of bytes, not of runes, of the text of the message sent to the
    feed, plus one. *)
Theorem accepted_cost {DB Command Image} (E : Env DB Command Image)
  k (c c' : Client) (w w' : World DB Image) :
  envOK E -> validPost E (post c) -> callOK k ->
  step E k c w = Ret None c' w' ->
  spamScore w' = spamScore w + uint (charsUpdated E k c * CharScore E).
Proof.
  intros HE HV Hk H.
  assert (U : forall msg n c0,
    0 <= n < 2 ^ 64 ->
    updateBody E msg n c0 w = Ret None c' w' ->
    spamScore w' = spamScore w + uint (n * CharScore E)).
  { intros msg n c0 Hn X.
    destruct (updateBody_ret E msg n c0 w) as (e & d & R).
    rewrite R in X. injection X as _ _ <-.
    cbn [setStore spamScore incrementSpamScore IncrementSpamScore feedCall].
    now rewrite (uint_id n). }
  assert (P64 : 2 ^ 64 = 18446744073709551616) by reflexivity.
  pose proof (validPost_runes E _ HV) as (Hid & _).
  destruct k as [[e|r]| |[e|req]]; cbn [step callOK charsUpdated] in *.
  - unfold appendRune in H. rewrite (hasPost_open c Hid) in H.
    cbn [negb] in H. destruct (_ >? _); discriminate H.
  - rewrite (appendRune_valid E HE c w r HV Hk) in H.
    destruct (_ >? _); [discriminate H|].
    destruct (r =? 0); [discriminate H|].
    destruct (_ && _); [discriminate H|].
    destruct (IsPrintable E r true); [discriminate H|].
    apply U in H; [exact H | lia].
  - rewrite (backspace_valid E HE c w HV) in H.
    destruct (_ =? 0); [discriminate H|].
    apply U in H; [exact H | lia].
  - unfold spliceText in H. rewrite (hasPost_open c Hid) in H.
    discriminate H.
  - destruct (spliceText_accepted E HE c c' w w' req HV Hk H)
      as (Hsl & _ & Ht & _ & _ & _ & X).
    pose proof (splicedMessage_bytes E HE c req HV Hk Hsl Ht).
    apply U in X; [exact X|].
    assert (2 ^ 34 = 17179869184) by reflexivity. lia.
Qed.

Lemma accepted_cost_witness :
  spamScore (snd euroAppended) = 170.
Proof.
  apply (accepted_cost memEnv (CallAppendRune (inr 0x20AC))
           (clientOf (postOf "hello")) (fst euroAppended) world0
           (snd euroAppended)).
  - apply envOKb_spec. reflexivity.
  - apply validPostb_spec. reflexivity.
  - unfold callOK, is_rune. lia.
  - reflexivity.
Defined.

(** X11. A splice that inserts one rune at the end of a valid post does
    what [appendRune] does: if [appendRune] accepts the rune and
    [parser.IsPrintableRunes] accepts it as a text, [spliceText] accepts
    the request and leaves the same client and the same store. *)
Theorem splice_at_end_is_append {DB Command Image}
  (E : Env DB Command Image) (c c1 : Client) (w w1 : World DB Image) r :
  envOK E -> validPost E (post c) -> is_rune r ->
  appendRune E (inr r) c w = Ret None c1 w1 ->
  IsPrintableRunes E [r] true = None ->
  exists w2,
    spliceText E (inr (appendRequest (post c) r)) c w = Ret None c1 w2
    /\ store w2 = store w1.
Proof.
  intros HE HV Hr H Hp.
  pose proof (validPost_runes E _ HV) as (Hid & V & N & B & L & Hl & Hc & Hn).
  rewrite (appendRune_valid E HE c w r HV Hr) in H.
  destruct (Z.gtb_spec (len (post c) + 1) (MaxLenBody E)) as [|Hlen];
    [discriminate H|].
  destruct (Z.eqb_spec r 0) as [|Hr0]; [discriminate H|].
  destruct ((r =? 10) && (lines (post c) + 1 >? MaxLinesBody E)) eqn:Hnl;
    [discriminate H|].
  destruct (IsPrintable E r true); [discriminate H|].
  assert (Hk : callOK (CallSpliceText (inr (appendRequest (post c) r)))).
  { unfold callOK, appendRequest. cbn [coords Start Len Text].
    assert (2 ^ 64 = 18446744073709551616) by reflexivity.
    assert (2 ^ 31 = 2147483648) by reflexivity.
    destruct HE as [[M0 M1] _].
    repeat split; try lia. now constructor. }
  assert (Hsp : spliced E c (appendRequest (post c) r)
                = decodeRunes (body (post c)) ++ [r]).
  { unfold spliced, tailTrim, spliceRunes, appendRequest.
    cbn [coords Start Len Text].
    rewrite (@firstn_all2 _ (Z.to_nat (len (post c))))
      by (unfold lenof in L; lia).
    rewrite skipn_all2 by (unfold lenof in L; lia).
    cbn [app]. apply firstn_all2.
    rewrite length_app. cbn [length]. unfold lenof in L. lia. }
  assert (Hpost :
    countLines
      (setBody (setLen (post c)
                  (lenof (spliced E c (appendRequest (post c) r))))
         (encodeRunes (spliced E c (appendRequest (post c) r))))
    = appended (post c) r).
  { rewrite Hsp. unfold countLines, setBody, setLen, setLines, appended.
    cbn [isSpoilered len lines id op body board].
    rewrite encodeRunes_app. cbn [encodeRunes]. rewrite app_nil_r, <- B.
    rewrite len_app, <- L. list_norm.
    rewrite filter_app, len_app.
    rewrite (newlines_encodeRune r Hr).
    rewrite B at 1.
    rewrite newlines_encodeRunes by now apply Forall_valid_is_rune.
    rewrite <- Hc. change (1 + 0) with 1.
    now destruct (r =? 10). }
  rewrite (spliceText_passes E HE c w _ HV Hk); rewrite ?Hpost;
    cbn [appendRequest coords Start Len Text]; try assumption; try lia.
  - unfold updateBody in *.
    cbn [post setPost appended id body store feedCall incrementSpamScore
         IncrementSpamScore] in *.
    destruct (SetOpenBody E (id (post c)) (body (post c) ++ encodeRune r)
                (store w)) as [e d].
    injection H as -> <- <-. eexists. split; reflexivity.
  - reflexivity.
  - destruct HE as [[M0 M1] _]. list_norm. lia.
  - cbn [existsb]. rewrite (Z.eqb_sym 0 r).
    destruct (Z.eqb_spec r 0); [contradiction | reflexivity].
  - cbn [appended lines]. destruct (Z.eqb_spec r 10); [|lia].
    cbn [andb] in Hnl.
    destruct (Z.gtb_spec (lines (post c) + 1) (MaxLinesBody E));
      [discriminate Hnl | lia].
Qed.

Lemma splice_at_end_is_append_witness :
  exists w2,
    spliceText memEnv (inr (appendRequest (postOf "hello") 0x20AC))
      (clientOf (postOf "hello")) world0
    = Ret None (fst euroAppended) w2
    /\ store w2 = store (snd euroAppended).
Proof.
  apply (splice_at_end_is_append memEnv (clientOf (postOf "hello"))
           (fst euroAppended) world0 (snd euroAppended) 0x20AC).
  - apply envOKb_spec. reflexivity.
  - apply validPostb_spec. reflexivity.
  - unfold is_rune. lia.
  - reflexivity.
  - reflexivity.
Defined.

(** X12. A splice can be undone: after an accepted splice that needed no
    trimming, the request with the same start, the length of the inserted
    text and the replaced runes as its text brings the client back to what
    it was, body, [len] and [lines] included, when
    [parser.IsPrintableRunes] accepts the replaced runes; the only error
    it can return is the store's. *)
Theorem splice_undo {DB Command Image} (E : Env DB Command Image)
  (c c1 : Client) (w w1 : World DB Image) req :
  envOK E -> validPost E (post c) -> callOK (CallSpliceText (inr req)) ->
  spliceText E (inr req) c w = Ret None c1 w1 ->
  len (post c) - Len (coords req) + lenof (Text req) <= MaxLenBody E ->
  IsPrintableRunes E
    (Text (undoRequest (decodeRunes (body (post c))) req)) true = None ->
  exists w2,
    spliceText E (inr (undoRequest (decodeRunes (body (post c))) req)) c1 w1
    = Ret (fst (SetOpenBody E (id (post c)) (body (post c)) (store w1)))
          c w2.
Proof.
  intros HE HV Hk H Hroom Hp.
  pose proof (validPost_runes E _ HV) as (Hid & V & N & B & L & Hl & Hc & Hn).
  destruct (spliceText_accepted E HE c c1 w w1 req HV Hk H)
    as (Hsl & Hnoop & Ht & Hz & Hlines & Hc1 & _).
  pose proof (validPost_spliced E HE c req HV Hk Hz Hlines) as HV1.
  destruct (spliced_runes E HE c req (validPost_textInv E _ HV) Hk Hz)
    as (F1 & _ & _).
  destruct Hk as (Hs & Hl0 & Ft).
  destruct HE as [[M0 M1] [N0 N1]].
  assert (P31 : 2 ^ 31 = 2147483648) by reflexivity.
  assert (P64 : 2 ^ 64 = 18446744073709551616) by reflexivity.
  pose proof (len_nonneg (Text req)) as Lt.
  set (rs := decodeRunes (body (post c))) in *.
  set (s := Start (coords req)) in *.
  set (l := Len (coords req)) in *.
  assert (Hsp : spliced E c req = spliceRunes rs s l (Text req)).
  { unfold spliced, tailTrim. fold rs s l. apply firstn_all2.
    unfold spliceRunes.
    rewrite !length_app, length_firstn, length_skipn.
    unfold lenof in *. lia. }
  assert (Hlen1 : lenof (spliceRunes rs s l (Text req))
                  = len (post c) - l + lenof (Text req)).
  { unfold spliceRunes, lenof in *.
    rewrite !length_app, length_firstn, length_skipn. lia. }
  assert (Hdec : decodeRunes (body (post c1))
                 = spliceRunes rs s l (map norm (Text req))).
  { rewrite Hc1. cbn [post setPost countLines setLines setBody body].
    rewrite decodeRunes_encodeRunes, Hsp by assumption.
    unfold spliceRunes. rewrite !map_app, <- firstn_map, <- skipn_map.
    now rewrite (map_norm_valid rs V). }
  assert (Lseg : lenof (firstn (Z.to_nat l) (skipn (Z.to_nat s) rs)) = l).
  { unfold lenof in *. rewrite length_firstn, length_skipn. lia. }
  assert (Hk2 : callOK (CallSpliceText (inr (undoRequest rs req)))).
  { unfold callOK, undoRequest. cbn [coords Start Len Text]. fold s l.
    repeat split; try lia.
    apply Forall_firstn_, Forall_skipn_. now apply Forall_valid_is_rune. }
  assert (Hsp2 : spliced E c1 (undoRequest rs req) = rs).
  { unfold spliced, tailTrim. rewrite Hdec.
    unfold undoRequest. cbn [coords Start Len Text]. fold s l.
    rewrite spliceRunes_back by (try lia; apply len_map).
    apply firstn_all2. unfold lenof in *. lia. }
  assert (Hpost :
    countLines
      (setBody (setLen (post c1) (lenof (spliced E c1 (undoRequest rs req))))
         (encodeRunes (spliced E c1 (undoRequest rs req))))
    = post c).
  { rewrite Hsp2, Hc1.
    unfold countLines, setBody, setLen, setLines.
    cbn [post setPost isSpoilered len lines id op body board].
    rewrite newlines_encodeRunes by now apply Forall_valid_is_rune.
    rewrite <- B, <- L, <- Hc. apply post_eta. }
  assert (Hc2 : setPost c1 (post c) = c).
  { rewrite Hc1. unfold setPost. cbn [ip captchaSession]. apply client_eta. }
  assert (HV1' : validPost E (post c1)) by (rewrite Hc1; exact HV1).
  rewrite (spliceText_passes E (conj (conj M0 M1) (conj N0 N1)) c1 w1 _
             HV1' Hk2);
    rewrite ?Hpost; cbn [undoRequest coords Start Len Text]; fold s l;
    try assumption; try lia.
  - rewrite Hc2. unfold updateBody.
    cbn [feedCall incrementSpamScore IncrementSpamScore store].
    destruct (SetOpenBody E (id (post c)) (body (post c)) (store w1))
      as [e d].
    eexists. reflexivity.
  - rewrite Hc1. cbn [post setPost countLines setLines setBody setLen len].
    rewrite Hsp, Hlen1. lia.
  - apply not_true_iff_false. rewrite existsb_exists.
    intros (x & I & X). apply Z.eqb_eq in X. subst x.
    apply N. eapply in_skipn, in_firstn. exact I.
Qed.

Lemma splice_undo_witness :
  exists w2,
    spliceText memEnv
      (inr (undoRequest (decodeRunes (bytesOf "hello")) helloRequest))
      (fst (after (spliceText memEnv (inr helloRequest)
                     (clientOf (postOf "hello")) world0)))
      (snd (after (spliceText memEnv (inr helloRequest)
                     (clientOf (postOf "hello")) world0)))
    = Ret None (clientOf (postOf "hello")) w2.
Proof.
  apply (splice_undo memEnv (clientOf (postOf "hello")) _ world0 _
           helloRequest).
  - apply envOKb_spec. reflexivity.
  - apply validPostb_spec. reflexivity.
  - apply (callOKb_spec (CallSpliceText (inr helloRequest))). reflexivity.
  - reflexivity.
  - vm_compute. discriminate.
  - reflexivity.
Defined.

End splice_extras.
(** ** Closing a post, and its image *)

Module close_extras.
Import utf8 websockets post_claims memstore extras.

Lemma hasPrefix_spec sub : forall b,
  hasPrefix b sub = true <-> exists suf, b = sub ++ suf.
Proof.
  induction sub as [|x sub IH]; intros b.
  - split; [intros _; now exists b | now destruct b].
  - destruct b as [|y b]; cbn [hasPrefix].
    + split; [discriminate | intros (suf & X); discriminate X].
    + rewrite andb_true_iff, Z.eqb_eq, IH. split.
      * intros (-> & suf & ->). now exists suf.
      * intros (suf & X). injection X as -> ->. split; [reflexivity|].
        now exists suf.
Qed.

(** The model of [bytes.Contains] finds the occurrences of [sub]. *)
Lemma bytesContains_spec sub : forall b,
  bytesContains b sub = true <-> occursIn sub b.
Proof.
  unfold occursIn.
  induction b as [|y b IH]; cbn [bytesContains]; rewrite orb_true_iff,
    hasPrefix_spec.
  - split.
    + intros [(suf & ->)|X]; [|discriminate X]. now exists [], suf.
    + intros (pre & suf & X). left. destruct pre; [now exists suf|].
      discriminate X.
  - rewrite IH. split.
    + intros [(suf & ->)|(pre & suf & ->)].
      * now exists [], suf.
      * now exists (y :: pre), suf.
    + intros ([|z pre] & suf & X).
      * left. now exists suf.
      * right. injection X as -> ->. now exists pre, suf.
Qed.

Section Close.
Context {DB Command Image : Type}.
Variable E : Env DB Command Image.

Lemma filterBody_frame (p : openPost) (w : World DB Image) :
  let r := filterBody E p w in
  id (fst r) = id p /\ op (fst r) = op p /\ board (fst r) = board p
  /\ len (fst r) = len p /\ lines (fst r) = lines p
  /\ isSpoilered (fst r) = isSpoilered p
  /\ spamScore (snd r) = spamScore w
  /\ exists l, feed (snd r) = feed w ++ l /\ filterCalls (id p) l.
Proof.
  unfold filterBody, filterCalls.
  destruct (RegisterFilter E (op p) (body p) (store w)) as [[|] d];
    cbn [negb setStore store fst snd].
  - repeat split. exists []. rewrite app_nil_r. auto.
  - destruct (ApplyFilters E (op p) (body p) d) as [[[|] b] d'];
      cbn [fst snd setBody id op board len lines isSpoilered feedCall
           spamScore feed setStore];
      repeat split.
    + eexists. split; [reflexivity|]. right. do 2 eexists. reflexivity.
    + exists []. rewrite app_nil_r. auto.
Qed.

Lemma finishClose_ret links com (c : Client) (w : World DB Image) :
  exists e c' d,
    finishClose E links com c w = Ret e c' (setStore w d)
    /\ match e with
       | None => c' = setPost c emptyPost
       | Some _ => c' = c
       end.
Proof.
  unfold finishClose.
  destruct (ClosePost E _ _ _ _ _ _) as [[e|] d]; do 3 eexists; split;
    reflexivity.
Qed.

(** What [closePost] leaves on a client with an open post. *)
Lemma closePost_open (c c' : Client) (w w' : World DB Image) e :
  id (post c) <> 0 ->
  closePost E c w = Ret e c' w' ->
  ip c' = ip c /\ captchaSession c' = captchaSession c
  /\ match e with
     | None => post c' = emptyPost
     | Some _ => id (post c') = id (post c) /\ op (post c') = op (post c)
                 /\ board (post c') = board (post c)
                 /\ len (post c') = len (post c)
                 /\ lines (post c') = lines (post c)
                 /\ isSpoilered (post c') = isSpoilered (post c)
     end
  /\ exists fl sl,
       feed w' = feed w ++ fl ++ sl
       /\ filterCalls (id (post c)) fl
       /\ ((sl = [] /\ spamScore w' = spamScore w)
           \/ (stealCalls E (id (post c)) (op (post c)) sl
               /\ spamScore w' = spamScore w + ImageScore E
               /\ board (post c) = "a"%string
               /\ occursIn stealCommand
                    (body (fst (filterBody E (post c) w))))).
Proof.
  intros Hid H. unfold closePost in H.
  destruct (Z.eqb_spec (id (post c)) 0); [contradiction|].
  assert (Fin : forall links com c0 w0,
    finishClose E links com c0 w0 = Ret e c' w' ->
    ip c' = ip c0 /\ captchaSession c' = captchaSession c0
    /\ match e with
       | None => post c' = emptyPost
       | Some _ => post c' = post c0
       end
    /\ feed w' = feed w0 /\ spamScore w' = spamScore w0).
  { intros links com c0 w0 X.
    destruct (finishClose_ret links com c0 w0) as (e0 & c0' & d & R & M).
    rewrite R in X. injection X as X1 X2 X3. subst e0 c0' w'.
    destruct e; subst c'; repeat split. }
  destruct (len (post c) =? 0); cbn [negb] in H.
  { apply Fin in H as (? & ? & M & F & S).
    split; [assumption|]. split; [assumption|]. split.
    - destruct e; [now rewrite M | exact M].
    - exists [], []. cbn [app]. rewrite app_nil_r.
      split; [exact F|]. split; [now left|]. left. now split. }
  pose proof (filterBody_frame (post c) w)
    as (Fi & Fo & Fb & Fl & Fn & Fs & Sp & fl & Ff & Hfl).
  cbv zeta in *.
  destruct (filterBody E (post c) w) as [p w1]. cbn [fst snd] in *.
  assert (Quiet : forall (c0 : Client) (w0 : World DB Image),
    ip c0 = ip c -> captchaSession c0 = captchaSession c -> post c0 = p ->
    feed w0 = feed w1 -> spamScore w0 = spamScore w1 ->
    (ip c' = ip c0 /\ captchaSession c' = captchaSession c0
     /\ match e with
        | None => post c' = emptyPost
        | Some _ => post c' = post c0
        end
     /\ feed w' = feed w0 /\ spamScore w' = spamScore w0) ->
    ip c' = ip c /\ captchaSession c' = captchaSession c
    /\ match e with
       | None => post c' = emptyPost
       | Some _ => id (post c') = id (post c) /\ op (post c') = op (post c)
                   /\ board (post c') = board (post c)
                   /\ len (post c') = len (post c)
                   /\ lines (post c') = lines (post c)
                   /\ isSpoilered (post c') = isSpoilered (post c)
       end
    /\ exists fl sl,
         feed w' = feed w ++ fl ++ sl
         /\ filterCalls (id (post c)) fl
         /\ ((sl = [] /\ spamScore w' = spamScore w)
             \/ (stealCalls E (id (post c)) (op (post c)) sl
                 /\ spamScore w' = spamScore w + ImageScore E
                 /\ board (post c) = "a"%string
                 /\ occursIn stealCommand (body p)))).
  { intros c0 w0 I1 I2 I3 I4 I5 (J1 & J2 & M & F & S).
    split; [congruence|]. split; [congruence|]. split.
    - destruct e; [|exact M]. rewrite M, I3. now repeat split.
    - exists fl, []. rewrite app_nil_r.
      split; [congruence|]. split; [assumption|]. left.
      split; [reflexivity | congruence]. }
  destruct (ParseBody E (body p) (board p) (op p) (id p)
              (ip (setPost c p)) false (store w1))
    as [[[links com] [er|]] d].
  { injection H as <- <- <-.
    apply (Quiet (setPost c p) (setStore w1 d)); try reflexivity.
    now repeat split. }
  destruct (String.eqb_spec (board p) "a") as [Ha|Ha]; cbn [andb] in H;
    [|apply Fin in H; revert H; now apply Quiet].
  destruct (negb (lenof links =? 0)); cbn [andb] in H;
    [|apply Fin in H; revert H; now apply Quiet].
  destruct (bytesContains (body p) stealCommand) eqn:Hst;
    [|apply Fin in H; revert H; now apply Quiet].
  apply bytesContains_spec in Hst.
  destruct (TransferImage E _ (id p) (op p) _) as [[img [er|]] d'] eqn:HT.
  { injection H as <- <- <-.
    apply (Quiet (setPost c p) (setStore (setStore w1 d) d'));
      try reflexivity.
    now repeat split. }
  destruct img as [im|];
    [|apply Fin in H; revert H; now apply Quiet].
  apply Fin in H as (J1 & J2 & M & F & S).
  cbn [ip captchaSession setPost post setStore feed spamScore feedCall
       incrementSpamScore IncrementSpamScore] in *.
  split; [assumption|]. split; [assumption|]. split.
  - destruct e; [|exact M]. rewrite M. now repeat split.
  - exists fl. eexists. split; [|split; [assumption|]].
    + rewrite F, Ff, <- !app_assoc. reflexivity.
    + right. split; [|split; [congruence|split; [congruence|assumption]]].
      rewrite <- Fi, <- Fo. do 4 eexists. split; [exact HT | reflexivity].
Qed.

(** The last link is the one at index [len(links)-1]. *)
Lemma nth_last_link (links : list Link) lk :
  nth (Z.to_nat (lenof (links ++ [lk]) - 1)) (links ++ [lk])
      {| LinkID := 0 |} = lk.
Proof.
  unfold lenof. rewrite length_app. cbn [length].
  replace (Z.to_nat (Z.of_nat (length links + 1) - 1)) with (length links)
    by lia.
  apply nth_middle.
Qed.

(** [closePost] on board "a", when the body asks for the image of the last
    link and [db.TransferImage] hands one over. *)
Lemma closePost_theft (c : Client) (w w1 : World DB Image) p1 links lk com
  d im d' :
  id (post c) <> 0 -> len (post c) <> 0 ->
  filterBody E (post c) w = (p1, w1) ->
  ParseBody E (body p1) (board p1) (op p1) (id p1) (ip c) false (store w1)
  = (links ++ [lk], com, None, d) ->
  board p1 = "a"%string -> occursIn stealCommand (body p1) ->
  TransferImage E (LinkID lk) (id p1) (op p1) d = (Some im, None, d') ->
  closePost E c w
  = finishClose E (links ++ [lk]) com (setPost c p1)
      (feedCall
         (feedCall
            (incrementSpamScore (ImageScore E) (setPost c p1)
               (setStore (setStore w1 d) d'))
            (FeedSend (MessageStoleImageFrom (LinkID lk))))
         (FeedSend (MessageStoleImageTo (id p1) im))).
Proof.
  intros Hid Hlen HF HP Hb Hs HT. unfold closePost.
  destruct (Z.eqb_spec (id (post c)) 0); [contradiction|].
  destruct (Z.eqb_spec (len (post c)) 0); [contradiction|].
  cbn [negb]. rewrite HF. cbn [ip setPost]. rewrite HP, Hb.
  apply bytesContains_spec in Hs. rewrite Hs, nth_last_link.
  replace (lenof (links ++ [lk]) =? 0) with false.
  2:{ symmetry. apply Z.eqb_neq. unfold lenof. rewrite length_app.
      cbn [length]. lia. }
  cbn [String.eqb Ascii.eqb Bool.eqb andb negb store setStore].
  rewrite HT. reflexivity.
Qed.

End Close.

(** X13. [closePost] clears the open post exactly when it returns [nil]:
    after a [nil] the client has the empty post and a second [closePost]
    returns "no post open"; after an error the post is still the open one,
    with its id, thread, board, [len], [lines] and spoiler flag. The
    address and the session of the client are never changed. *)
Theorem closePost_clears_on_nil {DB Command Image}
  (E : Env DB Command Image) (c c' : Client) (w w' : World DB Image) e :
  closePost E c w = Ret e c' w' ->
  ip c' = ip c /\ captchaSession c' = captchaSession c
  /\ match e with
     | None => id (post c) <> 0 /\ post c' = emptyPost
               /\ closePost E c' w' = Ret (Some errNoPostOpen) c' w'
     | Some _ => id (post c') = id (post c) /\ op (post c') = op (post c)
                 /\ board (post c') = board (post c)
                 /\ len (post c') = len (post c)
                 /\ lines (post c') = lines (post c)
                 /\ isSpoilered (post c') = isSpoilered (post c)
     end.
Proof.
  intros H. destruct (Z.eq_dec (id (post c)) 0) as [Hid|Hid].
  - unfold closePost in H. rewrite Hid in H. cbn in H.
    injection H as <- <- <-. now repeat split.
  - destruct (closePost_open E c c' w w' e Hid H) as (I1 & I2 & M & _).
    split; [assumption|]. split; [assumption|].
    destruct e; [exact M|]. split; [assumption|]. split; [assumption|].
    unfold closePost. now rewrite M.
Qed.

Lemma closePost_clears_on_nil_witness :
  post (fst stolen) = emptyPost.
Proof.
  apply (closePost_clears_on_nil stealEnv (clientOf stealPost) (fst stolen)
           worldWithImage7 (snd stolen) None).
  reflexivity.
Defined.

(** X14. What [closePost] sends and charges. The feed gets at most the
    splice of the filter block and the spam score stays as it is, unless
    [db.TransferImage] has handed over an image; then the board is "a", the
    body (after the filters) has "#steal" in it, [ImageScore] is added to
    the spam score and the feed gets the two messages of the theft.
    Conversely, whenever the post is on board "a", its filtered body has
    "#steal" in it and [db.TransferImage] hands over an image for the last
    link the parser found, [closePost] adds [ImageScore], sends the two
    messages naming that link and that image, and goes on to
    [db.ClosePost] with the links and commands of the parser. *)
Theorem closePost_charges_theft {DB Command Image}
  (E : Env DB Command Image) (c c' : Client) (w w' : World DB Image) e :
  closePost E c w = Ret e c' w' ->
  (exists fl sl,
     feed w' = feed w ++ fl ++ sl
     /\ filterCalls (id (post c)) fl
     /\ ((sl = [] /\ spamScore w' = spamScore w)
         \/ (stealCalls E (id (post c)) (op (post c)) sl
             /\ spamScore w' = spamScore w + ImageScore E
             /\ board (post c) = "a"%string
             /\ occursIn stealCommand
                  (body (fst (filterBody E (post c) w))))))
  /\ (id (post c) <> 0 -> len (post c) <> 0 ->
      forall p1 w1 links lk com d im d',
        filterBody E (post c) w = (p1, w1) ->
        ParseBody E (body p1) (board p1) (op p1) (id p1) (ip c) false
                  (store w1) = (links ++ [lk], com, None, d) ->
        board p1 = "a"%string -> occursIn stealCommand (body p1) ->
        TransferImage E (LinkID lk) (id p1) (op p1) d = (Some im, None, d') ->
        spamScore w' = spamScore w + ImageScore E
        /\ feed w'
           = feed w1 ++ [FeedSend (MessageStoleImageFrom (LinkID lk));
                         FeedSend (MessageStoleImageTo (id (post c)) im)]
        /\ ClosePost E (id p1) (op p1) (body p1) (links ++ [lk]) com d'
           = (e, store w')).
Proof.
  intros H. split.
  - destruct (Z.eq_dec (id (post c)) 0) as [Hid|Hid].
    + unfold closePost in H. rewrite Hid in H. cbn in H.
      injection H as <- <- <-. exists [], []. cbn [app]. rewrite app_nil_r.
      split; [reflexivity|]. split; [now left|]. left. now split.
    + now destruct (closePost_open E c c' w w' e Hid H) as (_ & _ & _ & X).
  - intros Hid Hlen p1 w1 links lk com d im d' HF HP Hb Hs HT.
    rewrite (closePost_theft E c w w1 p1 links lk com d im d'
               Hid Hlen HF HP Hb Hs HT) in H.
    pose proof (filterBody_frame E (post c) w) as (Fi & _ & _ & _ & _ & _
                                                   & Sp & _).
    rewrite HF in Fi, Sp. cbn [fst snd] in Fi, Sp.
    unfold finishClose in H.
    cbn [post setPost id op body store setStore feedCall incrementSpamScore
         IncrementSpamScore] in H.
    destruct (ClosePost E (id p1) (op p1) (body p1) (links ++ [lk]) com d')
      as [[er|] d2]; injection H as <- _ <-;
      cbn [spamScore feed store setStore feedCall incrementSpamScore
           IncrementSpamScore];
      rewrite Sp, Fi, <- app_assoc; repeat split.
Qed.

Lemma closePost_charges_theft_witness :
  spamScore (snd stolen) = spamScore worldWithImage7 + ImageScore stealEnv
  /\ feed (snd stolen)
     = feed worldWithImage7
       ++ [FeedSend (MessageStoleImageFrom 7);
           FeedSend (MessageStoleImageTo 101 7)].
Proof.
  destruct (closePost_charges_theft stealEnv (clientOf stealPost)
              (fst stolen) worldWithImage7 (snd stolen) None eq_refl)
    as [_ H2].
  destruct (H2 ltac:(discriminate) ltac:(discriminate) stealPost
              worldWithImage7 [{| LinkID := 5 |}] {| LinkID := 7 |} []
              (store worldWithImage7) 7
              (snd (memTransferImage 7 101 42 (store worldWithImage7))))
    as (S & F & _); try reflexivity.
  - exists (bytesOf ">>7 "), []. reflexivity.
  - split; [exact S | exact F].
Defined.

Section Images.
Context {DB Command Image : Type}.
Variable E : Env DB Command Image.

(** An accepted [spoilerImage] on a post not marked as spoilered. *)
Lemma spoilerImage_unmarked (c c' : Client) (w w' : World DB Image) :
  isSpoilered (post c) = false ->
  spoilerImage E c w = Ret None c' w' ->
  c' = c
  /\ spamScore w' = spamScore w + CharScore E
  /\ feed w'
     = feed w ++ [FeedSpoilerImage (id (post c)) (MessageSpoiler (id (post c)))]
  /\ SpoilerImage E (id (post c)) (op (post c)) (store w) = (None, store w').
Proof.
  intros Hs H. unfold spoilerImage, hasImage in H.
  destruct (Z.eq_dec (id (post c)) 0) as [Hid|Hid].
  { rewrite (hasPost_closed c Hid) in H. discriminate H. }
  rewrite (hasPost_open c Hid) in H. cbn [negb] in H.
  cbn [incrementSpamScore IncrementSpamScore store] in H.
  destruct (HasImage E (id (post c)) (store w)) as [has [er|]];
    [discriminate H|].
  destruct has; cbn [negb] in H; [|discriminate H].
  rewrite Hs in H.
  destruct (SpoilerImage E (id (post c)) (op (post c)) (store w))
    as [[er|] d]; [discriminate H|].
  injection H as <- <-. now repeat split.
Qed.

End Images.

(** X15. [spoilerImage] never marks the post as spoilered: after it has
    spoilered the image of a post whose flag is not set, the client is
    unchanged, so that a second call goes to the store and to the feed
    again instead of taking the branch for an image already spoilered;
    each call adds [CharScore] to the spam score. *)
Theorem spoilerImage_repeats {DB Command Image}
  (E : Env DB Command Image) (c c1 c2 : Client) (w w1 w2 : World DB Image) :
  isSpoilered (post c) = false ->
  spoilerImage E c w = Ret None c1 w1 ->
  spoilerImage E c1 w1 = Ret None c2 w2 ->
  c2 = c
  /\ spamScore w2 = spamScore w + CharScore E + CharScore E
  /\ feed w2
     = feed w
       ++ [FeedSpoilerImage (id (post c)) (MessageSpoiler (id (post c)));
           FeedSpoilerImage (id (post c)) (MessageSpoiler (id (post c)))]
  /\ SpoilerImage E (id (post c)) (op (post c)) (store w1)
     = (None, store w2).
Proof.
  intros Hs H1 H2.
  destruct (spoilerImage_unmarked E c c1 w w1 Hs H1) as (-> & S1 & F1 & _).
  destruct (spoilerImage_unmarked E c c2 w1 w2 Hs H2) as (-> & S2 & F2 & D).
  split; [reflexivity|]. split; [lia|]. split; [|exact D].
  rewrite F2, F1, <- app_assoc. reflexivity.
Qed.

Lemma spoilerImage_repeats_witness :
  fst spoileredTwice = clientOf (postOf "hi").
Proof.
  apply (spoilerImage_repeats memEnv (clientOf (postOf "hi"))
           (fst spoileredOnce) (fst spoileredTwice) worldWithImage
           (snd spoileredOnce) (snd spoileredTwice));
    reflexivity.
Defined.

(** X16. When [insertImage] returns [nil] for a post that had no image,
    the board is not text-only, the store has inserted the image under the
    token, the formatted name and the spoiler flag of the request, the
    feed has got exactly that insertion, and the client's spoiler flag is
    the one of the request. *)
Theorem insertImage_inserts {DB Command Image}
  (E : Env DB Command Image) req (c c' : Client) (w w' : World DB Image) :
  insertImage E (inr req) c w = Ret None c' w' ->
  fst (HasImage E (id (post c)) (store w)) = false ->
  TextOnly E (board (post c)) = false
  /\ isSpoilered (post c') = Spoiler req
  /\ exists msg,
       InsertImage E (id (post c)) (Token req)
         (formatImageName E (Name req)) (Spoiler req) (store w)
       = (msg, None, store w')
       /\ feed w'
          = feed w ++ [FeedInsertImage (id (post c)) (Spoiler req)
                         (MessageInsertImage msg)].
Proof.
  intros H Hh. unfold insertImage, hasImage in H.
  destruct (Z.eq_dec (id (post c)) 0) as [Hid|Hid].
  { rewrite (hasPost_closed c Hid) in H. discriminate H. }
  rewrite (hasPost_open c Hid) in H. cbn [negb] in H.
  cbn [incrementSpamScore IncrementSpamScore store] in H.
  destruct (HasImage E (id (post c)) (store w)) as [has [er|]];
    [discriminate H|].
  cbn [fst] in Hh. subst has. cbn [negb] in H.
  cbn [post setPost setSpoilered board id] in H.
  destruct (TextOnly E (board (post c))); [discriminate H|].
  destruct (InsertImage E (id (post c)) (Token req)
              (formatImageName E (Name req)) (Spoiler req) (store w))
    as [[msg [er|]] d]; [discriminate H|].
  injection H as <- <-. split; [reflexivity|]. split; [reflexivity|].
  exists msg. split; reflexivity.
Qed.

Lemma insertImage_inserts_witness :
  isSpoilered (post (fst catInserted)) = true.
Proof.
  apply (insertImage_inserts memEnv catRequest (clientOf (postOf "hi"))
           (fst catInserted) world0 (snd catInserted));
    reflexivity.
Defined.

(** X17. On a text-only board [insertImage] never inserts: whatever the
    request, the store and the feed are left as they were, and [nil] is
    returned only when the store says that the post has an image. *)
Theorem insertImage_text_only {DB Command Image}
  (E : Env DB Command Image) data (c c' : Client) (w w' : World DB Image) e :
  TextOnly E (board (post c)) = true ->
  insertImage E data c w = Ret e c' w' ->
  store w' = store w /\ feed w' = feed w
  /\ (e = None -> fst (HasImage E (id (post c)) (store w)) = true).
Proof.
  intros Ht H. unfold insertImage, hasImage in H.
  destruct (Z.eq_dec (id (post c)) 0) as [Hid|Hid].
  { rewrite (hasPost_closed c Hid) in H. injection H as <- _ <-.
    now repeat split. }
  rewrite (hasPost_open c Hid) in H. cbn [negb] in H.
  cbn [incrementSpamScore IncrementSpamScore store] in H.
  destruct (HasImage E (id (post c)) (store w)) as [has [er|]].
  { injection H as <- _ <-. now repeat split. }
  destruct has; cbn [negb fst] in *.
  { injection H as <- _ <-. now repeat split. }
  destruct data as [er|req].
  { injection H as <- _ <-. now repeat split. }
  cbn [post setPost setSpoilered board] in H. rewrite Ht in H.
  injection H as <- _ <-. now repeat split.
Qed.

Lemma insertImage_text_only_witness :
  store (snd catRefused) = store world0.
Proof.
  apply (insertImage_text_only textOnlyEnv (inr catRequest)
           (clientOf (postOf "hi")) (fst catRefused) world0 (snd catRefused)
           (Some errTextOnly));
    reflexivity.
Defined.

End close_extras.
(** ** What the feed is told *)

Module replay_extras.
Import utf8 utf8_checks utf8_facts buffer_facts websockets text_facts
  post_claims append_claims splice_claims invariant_claims memstore extras
  text_extras valid_extras splice_extras.

(** X18. The message of an accepted splice tells the feed what happened to
    the body: the splice of its coordinates and its text, decoded, applied
    to the old runes gives the new body, also when the server has trimmed
    the text to [MaxLenBody]; the message carries the id of the post and
    goes out with the new body. *)
Theorem splice_message_replays {DB Command Image}
  (E : Env DB Command Image) (c c' : Client) (w w' : World DB Image) req :
  envOK E -> validPost E (post c) -> callOK (CallSpliceText (inr req)) ->
  spliceText E (inr req) c w = Ret None c' w' ->
  exists m,
    feed w' = feed w ++ [FeedSetOpenBody (id (post c)) (body (post c'))
                           (MessageSplice m)]
    /\ ID m = id (post c)
    /\ body (post c')
       = encodeRunes
           (spliceRunes (decodeRunes (body (post c)))
              (Start (srs_coords (sm_request m)))
              (Len (srs_coords (sm_request m)))
              (decodeRunes (srs_Text (sm_request m)))).
Proof.
  intros HE HV Hk H.
  pose proof (validPost_runes E _ HV) as (Hid & V & N & B & L & Hl & Hc & Hn).
  destruct HV as (_ & T & Hmax & _).
  rewrite (spliceText_runes E HE c w req _ Hid (textOK_repr _ T) Hmax Hk)
    in H.
  cbv zeta in H.
  destruct Hk as (Hs & Hl0 & Ft).
  destruct HE as [[M0 M1] _].
  pose proof (len_nonneg (Text req)) as Lt.
  set (rs := decodeRunes (body (post c))) in *.
  set (s := Start (coords req)) in *.
  set (l := Len (coords req)) in *.
  destruct (IsPrintableRunes E (Text req) true); [discriminate H|].
  destruct (Z.gtb_spec s (MaxLenBody E)); [discriminate H|].
  destruct (Z.gtb_spec l (MaxLenBody E)); [discriminate H|].
  destruct (Z.gtb_spec (s + l) (len (post c))); [discriminate H|].
  cbn [orb] in H.
  destruct ((l =? 0) && (lenof (Text req) =? 0)); [discriminate H|].
  destruct (Z.gtb_spec (lenof (Text req)) (MaxLenBody E));
    [discriminate H|].
  destruct (existsb (Z.eqb 0) (Text req)); [discriminate H|].
  match type of H with
  | (if ?a >? ?b then _ else _) = _ => destruct (a >? b)
  end; [discriminate H|].
  assert (Frs : Forall is_rune rs) by now apply Forall_valid_is_rune.
  assert (Fend : Forall is_rune (Text req ++ skipn (Z.to_nat (s + l)) rs)).
  { apply Forall_app. split; [assumption | now apply Forall_skipn_]. }
  match type of H with
  | updateBody E ?m ?n ?c0 w = _ =>
      destruct (updateBody_ret E m n c0 w) as (e & d & U)
  end.
  rewrite U in H. clear U. injection H as _ <- <-.
  cbn [post setPost countLines setLines setBody setLen body id feed
       setStore incrementSpamScore IncrementSpamScore feedCall].
  eexists. split; [reflexivity|].
  destruct (Z.gtb_spec (len (post c) - l + lenof (Text req)) (MaxLenBody E));
    cbn [ID sm_request srs_coords srs_Text Start Len]; fold s l;
    (split; [reflexivity|]); unfold spliceRunes.
  - rewrite decodeRunes_encodeRunes by now apply Forall_firstn_.
    rewrite (@skipn_all2 _ (Z.to_nat (s + (len (post c) - s))))
      by (unfold lenof in *; lia).
    rewrite app_nil_r, !encodeRunes_app, encodeRunes_norm
      by now apply Forall_firstn_.
    reflexivity.
  - rewrite decodeRunes_encodeRunes by assumption.
    rewrite (@firstn_all2 _ (Z.to_nat (MaxLenBody E - s)))
      by (rewrite length_app, length_skipn; unfold lenof in *; lia).
    rewrite !encodeRunes_app, encodeRunes_norm by assumption.
    reflexivity.
Qed.

Lemma splice_message_replays_witness :
  exists m,
    feed (snd (after (spliceText memEnv (inr helloRequest)
                        (clientOf (postOf "hello")) world0)))
    = feed world0
      ++ [FeedSetOpenBody 101
            (body (post (fst (after (spliceText memEnv (inr helloRequest)
                                       (clientOf (postOf "hello"))
                                       world0)))))
            (MessageSplice m)]
    /\ ID m = 101.
Proof.
  destruct (splice_message_replays memEnv (clientOf (postOf "hello"))
              (fst (after (spliceText memEnv (inr helloRequest)
                             (clientOf (postOf "hello")) world0)))
              world0
              (snd (after (spliceText memEnv (inr helloRequest)
                             (clientOf (postOf "hello")) world0)))
              helloRequest) as (m & F & I & _).
  - apply envOKb_spec. reflexivity.
  - apply validPostb_spec. reflexivity.
  - apply (callOKb_spec (CallSpliceText (inr helloRequest))). reflexivity.
  - reflexivity.
  - exists m. split; [exact F | exact I].
Defined.

(** X19. An accepted [backspace] on a valid post removes the last rune
    whole, however many bytes it has: the new body is the encoding of the
    runes before it, [len] is one lower, [lines] is one lower when the
    rune was a newline, and the feed is sent the new body with the
    backspace message. *)
Theorem backspace_removes_last_rune {DB Command Image}
  (E : Env DB Command Image) (c c' : Client) (w w' : World DB Image) :
  envOK E -> validPost E (post c) ->
  backspace E c w = Ret None c' w' ->
  exists rs r,
    decodeRunes (body (post c)) = rs ++ [r]
    /\ body (post c) = encodeRunes rs ++ encodeRune r
    /\ body (post c') = encodeRunes rs
    /\ len (post c') = len (post c) - 1
    /\ lines (post c') = lines (post c) - (if r =? 10 then 1 else 0)
    /\ feed w' = feed w ++ [FeedSetOpenBody (id (post c)) (encodeRunes rs)
                              (MessageBackspace (id (post c)))].
Proof.
  intros HE HV H.
  pose proof (validPost_runes E _ HV) as (Hid & V & N & B & L & Hl & Hc & Hn).
  rewrite (backspace_valid E HE c w HV) in H.
  destruct (Z.eqb_spec (len (post c)) 0) as [|Hn0]; [discriminate H|].
  destruct (exists_last (l := decodeRunes (body (post c))))
    as (rs & r & Hrs).
  { intros Hnil. rewrite Hnil in L. cbn in L. contradiction. }
  destruct (updateBody_ret E (MessageBackspace (id (post c))) 1
              (setPost c (chopped (post c))) w) as (e & d & U).
  rewrite U in H. clear U. injection H as _ <- <-.
  exists rs, r. unfold chopped.
  cbn [post setPost body len lines id feed setStore incrementSpamScore
       IncrementSpamScore feedCall].
  rewrite Hrs, removelast_last, last_last.
  split; [reflexivity|]. split.
  { rewrite B, Hrs, encodeRunes_app. cbn [encodeRunes].
    now rewrite app_nil_r. }
  now repeat split.
Qed.

Lemma backspace_removes_last_rune_witness :
  exists rs r,
    decodeRunes (body (post (fst euroAppended))) = rs ++ [r]
    /\ body (post (fst (after (backspace memEnv (fst euroAppended)
                                 (snd euroAppended)))))
       = encodeRunes rs.
Proof.
  destruct (backspace_removes_last_rune memEnv (fst euroAppended)
              (fst (after (backspace memEnv (fst euroAppended)
                             (snd euroAppended))))
              (snd euroAppended)
              (snd (after (backspace memEnv (fst euroAppended)
                             (snd euroAppended)))))
    as (rs & r & D & _ & B & _).
  - apply envOKb_spec. reflexivity.
  - apply validPostb_spec. reflexivity.
  - reflexivity.
  - exists rs, r. split; [exact D | exact B].
Defined.

End replay_extras.
